(** * A line-based chat server: sessions, registry and broadcast

    Shallow embedding of [server.py] (classes [Client] and [Server]) and the
    properties of its connection lifecycle.

    Text is a list of Unicode code points.  The wire carries UTF-8; a receive
    is given by what [raw.decode("utf-8")] makes of it and a payload is
    recorded as the text handed to [bytes(..., "utf-8")].

    One thread of control is modelled at a time: a session's handling routine
    runs against the shared server state, reading the successive results of
    [socket.recv] from a script. *)

From Stdlib Require Import List Bool Arith ZArith NArith String Ascii Lia.
Import ListNotations.

Set Implicit Arguments.

(** ** Text *)

Module Text.

Definition text := list N.

Definition str (s : string) : text :=
  map N_of_ascii (list_ascii_of_string s).

Definition ESC : N := 27.
Definition LF : N := 10.
Definition CR : N := 13.

Definition eqb (a b : text) : bool :=
  if list_eq_dec N.eq_dec a b then true else false.

(** [Py_UNICODE_ISSPACE]: the characters [str.strip()] removes. *)
Definition is_space (c : N) : bool :=
  ((9 <=? c) && (c <=? 13) || (28 <=? c) && (c <=? 32)
   || (c =? 133) || (c =? 160) || (c =? 5760)
   || (8192 <=? c) && (c <=? 8202)
   || (c =? 8232) || (c =? 8233) || (c =? 8239) || (c =? 8287)
   || (c =? 12288))%N.

Fixpoint lstrip (s : text) : text :=
  match s with
  | [] => []
  | c :: s' => if is_space c then lstrip s' else s
  end.

Definition rstrip (s : text) : text := rev (lstrip (rev s)).

(** [s.strip()] *)
Definition strip (s : text) : text := rstrip (lstrip s).

Fixpoint startswith (p s : text) : bool :=
  match p, s with
  | [], _ => true
  | _ :: _, [] => false
  | a :: p', b :: s' => (a =? b)%N && startswith p' s'
  end.

(** [p in s] on strings: [p] occurs as a contiguous substring of [s]. *)
Fixpoint contains (p s : text) : bool :=
  startswith p s ||
  match s with
  | [] => false
  | _ :: s' => contains p s'
  end.

Definition all_space (s : text) : bool := forallb is_space s.

End Text.
Import Text.

(** ** Sockets and exceptions *)

Definition EBADF : Z := 9.
Definition EPIPE : Z := 32.
Definition ECONNRESET : Z := 104.
Definition ETIMEDOUT : Z := 110.
Definition ENOTCONN : Z := 107.

(** The exceptions the code can raise. [SocketError n] is a [socket.error]
    whose [args[0]] is [n]. *)
Inductive exn : Type :=
| SocketError (n : Z)
| KeyError
| AttributeError
| UnicodeDecodeError.

(** A connection as the server sees it: what has been handed to the peer, and
    how the operating system answers [send], [shutdown] and [close]. *)
Record sock : Type := mkSock {
  sk_closed : bool;
  sk_sent : list text;
  sk_send_err : option Z;
  sk_shutdown_err : option Z;
  sk_close_err : option Z
}.

(** What one call of [socket.recv] yields. *)
Inductive recv_event : Type :=
| RecvData (s : text)
| RecvUndecodable
| RecvErr (n : Z).

Definition address := (text * nat)%type.

(** A [Client] object. [c_name] is [None] until [join] assigns it. *)
Record client : Type := mkClient {
  c_socket : sock;
  c_address : address;
  c_chat : bool;
  c_name : option text
}.

Inductive log_line : Type :=
| LogAvailable
| LogShuttingDown
| LogJoined (a : address)
| LogLeft (a : address)
| LogClosedServer.

(** The listening socket [Server.server]. *)
Inductive listener_state : Type := Bound | Listening | Released.

(** The [Server] object and the [Client] objects it refers to. [clients] is
    the dict [Server.clients] in insertion order, keyed by object identity. *)
Record world : Type := mkWorld {
  clients : list (nat * text);
  heap : nat -> client;
  is_running : bool;
  listener : listener_state;
  threads : list nat;
  stdout : list log_line
}.

Definition keys (w : world) : list nat := map fst (clients w).

Definition registered (c : nat) (w : world) : bool :=
  existsb (Nat.eqb c) (keys w).

Definition sent (w : world) (c : nat) : list text :=
  sk_sent (c_socket (heap w c)).

Definition chat (w : world) (c : nat) : bool := c_chat (heap w c).

Definition closed (w : world) (c : nat) : bool :=
  sk_closed (c_socket (heap w c)).

(** ** The state and exception monad *)

Inductive result (A : Type) : Type :=
| Ok (a : A) (w : world)
| Err (e : exn) (w : world).

Arguments Err {A} e w.

Definition M (A : Type) : Type := world -> result A.

Definition ret {A} (a : A) : M A := fun w => Ok a w.

Definition raise {A} (e : exn) : M A := fun w => Err e w.

Definition bind {A B} (m : M A) (f : A -> M B) : M B :=
  fun w => match m w with
           | Ok a w' => f a w'
           | Err e w' => Err e w'
           end.

Definition try_except {A} (m : M A) (h : exn -> M A) : M A :=
  fun w => match m w with
           | Ok a w' => Ok a w'
           | Err e w' => h e w'
           end.

Declare Scope py_scope.
Delimit Scope py_scope with py.
Notation "x <- m ;; k" := (bind m (fun x => k))
  (at level 100, m at next level, right associativity) : py_scope.
Notation "m ;; k" := (bind m (fun _ => k))
  (at level 100, right associativity) : py_scope.
Open Scope py_scope.

Definition world_of {A} (r : result A) : world :=
  match r with Ok _ w => w | Err _ w => w end.

Definition raised {A} (r : result A) : option exn :=
  match r with Ok _ _ => None | Err e _ => Some e end.

(** ** Updating objects *)

Definition set_heap (c : nat) (o : client) (w : world) : world :=
  mkWorld (clients w)
          (fun c' => if Nat.eqb c' c then o else heap w c')
          (is_running w) (listener w) (threads w) (stdout w).

Definition set_clients (d : list (nat * text)) (w : world) : world :=
  mkWorld d (heap w) (is_running w) (listener w) (threads w) (stdout w).

Definition set_socket (s : sock) (o : client) : client :=
  mkClient s (c_address o) (c_chat o) (c_name o).

Definition set_chat (b : bool) (o : client) : client :=
  mkClient (c_socket o) (c_address o) b (c_name o).

Definition set_name (n : text) (o : client) : client :=
  mkClient (c_socket o) (c_address o) (c_chat o) (Some n).

Definition print (l : log_line) : M unit :=
  fun w => Ok tt (mkWorld (clients w) (heap w) (is_running w) (listener w)
                          (threads w) (stdout w ++ [l])).

(** ** The dict [Server.clients] *)

(** [d[k] = v] *)
Fixpoint dict_set (k : nat) (v : text) (d : list (nat * text))
  : list (nat * text) :=
  match d with
  | [] => [(k, v)]
  | (k', v') :: d' =>
      if Nat.eqb k' k then (k, v) :: d' else (k', v') :: dict_set k v d'
  end.

(** [del d[k]]; [None] stands for the [KeyError]. *)
Fixpoint dict_del (k : nat) (d : list (nat * text))
  : option (list (nat * text)) :=
  match d with
  | [] => None
  | (k', v') :: d' =>
      if Nat.eqb k' k then Some d'
      else match dict_del k d' with
           | Some d'' => Some ((k', v') :: d'')
           | None => None
           end
  end.

(** ** Socket operations *)

Definition sock_send (raw : text) (s : sock) : exn + sock :=
  if sk_closed s then inl (SocketError EBADF)
  else match sk_send_err s with
       | Some n => inl (SocketError n)
       | None => inr (mkSock (sk_closed s) (sk_sent s ++ [raw])
                             (sk_send_err s) (sk_shutdown_err s)
                             (sk_close_err s))
       end.

Definition sock_shutdown (s : sock) : exn + sock :=
  if sk_closed s then inl (SocketError EBADF)
  else match sk_shutdown_err s with
       | Some n => inl (SocketError n)
       | None => inr s
       end.

(** [close] releases the descriptor even when it reports an error. *)
Definition sock_close (s : sock) : option exn * sock :=
  let s' := mkSock true (sk_sent s) (sk_send_err s) (sk_shutdown_err s)
                   (sk_close_err s) in
  if sk_closed s then (None, s)
  else match sk_close_err s with
       | Some n => (Some (SocketError n), s')
       | None => (None, s')
       end.

(** ** [Client] *)

Definition clear : text := [ESC] ++ str "[1K" ++ [CR].

Definition prompt : text :=
  [ESC] ++ str "[33m>" ++ [ESC] ++ str "[0m ".

(** The bytes [Client.send] writes for [msg]. *)
Definition frame (in_chat : bool) (msg : text) : text :=
  if in_chat
  then clear ++ (msg ++ match msg with [] => [] | _ => [LF] end) ++ prompt
  else clear ++ msg.

(** [Client.send] *)
Definition send (c : nat) (msg : text) : M unit :=
  fun w =>
    let o := heap w c in
    match sock_send (frame (c_chat o) msg) (c_socket o) with
    | inl e => Err e w
    | inr s => Ok tt (set_heap c (set_socket s o) w)
    end.

(** [Client.recv], when [socket.recv] yields [ev]. *)
Definition recv (c : nat) (ev : recv_event) : M text :=
  fun w =>
    match ev with
    | RecvErr n => Err (SocketError n) w
    | RecvData s =>
        ((if chat w c then send c [] else ret tt) ;; ret s) w
    | RecvUndecodable =>
        ((if chat w c then send c [] else ret tt) ;;
         raise UnicodeDecodeError) w
    end.

(** [Server.broadcast]: [recipients] is the iteration over the dict. *)
Fixpoint broadcast_to (recipients : list nat) (message : text)
         (sender : option nat) : M unit :=
  match recipients with
  | [] => ret tt
  | c :: rest =>
      match sender with
      | Some s =>
          if Nat.eqb c s then broadcast_to rest message sender
          else (send c message ;; broadcast_to rest message sender)
      | None => (send c message ;; broadcast_to rest message sender)
      end
  end.

Definition broadcast (message : text) (sender : option nat) : M unit :=
  fun w => broadcast_to (keys w) message sender w.

(** [Client.msg] *)
Definition chat_line (name message : text) : text :=
  [ESC] ++ str "[36m" ++ name ++ [ESC] ++ str "[0m: " ++ strip message.

Definition get_name (c : nat) : M text :=
  fun w => match c_name (heap w c) with
           | Some n => Ok n w
           | None => Err AttributeError w
           end.

Definition msg (c : nat) (message : text) : M unit :=
  name <- get_name c ;;
  broadcast (chat_line name message) (Some c).

Definition name_prompt : text := str "Enter your name" ++ [LF] ++ str "> ".

Definition welcome (name : text) : text :=
  str "Hi " ++ name ++ str "! Type :quit to leave" ++ [LF].

Definition joined_notice (name : text) : text :=
  [ESC] ++ str "[32m" ++ name ++ str " has joined" ++ [ESC] ++ str "[0m".

Definition left_notice (name : text) : text :=
  [ESC] ++ str "[32m" ++ name ++ str " has left the chat" ++ [ESC]
  ++ str "[0m".

Definition farewell : text := str "You will be disconnected. Bye!".

Definition closing_notice : text := str "Closing server...".

Definition assign_name (c : nat) (n : text) : M unit :=
  fun w => Ok tt (set_heap c (set_name n (heap w c)) w).

Definition assign_chat (c : nat) (b : bool) : M unit :=
  fun w => Ok tt (set_heap c (set_chat b (heap w c)) w).

Definition register (c : nat) (n : text) : M unit :=
  fun w => Ok tt (set_clients (dict_set c n (clients w)) w).

Definition deregister (c : nat) : M unit :=
  fun w => match dict_del c (clients w) with
           | Some d => Ok tt (set_clients d w)
           | None => Err KeyError w
           end.

(** [Client.join] in two parts: the name prompt, sent before the session
    blocks in [recv], and the rest, run once [socket.recv] has yielded
    [ev]. *)
Definition join_prompt (c : nat) : M unit := send c name_prompt.

Definition join_named (c : nat) (ev : recv_event) : M unit :=
  line <- recv c ev ;;
  let name := strip line in
  assign_name c name ;;
  send c (welcome name) ;;
  broadcast (joined_notice name) None ;;
  register c name.

Definition join (c : nat) (ev : recv_event) : M unit :=
  join_prompt c ;; join_named c ev.

(** The [try] block of [Client.kill]. *)
Definition teardown (c : nat) : M unit :=
  fun w =>
    let o := heap w c in
    match sock_shutdown (c_socket o) with
    | inl e => Err e w
    | inr s =>
        let '(r, s') := sock_close s in
        let w' := set_heap c (set_socket s' o) w in
        match r with
        | Some e => Err e w'
        | None => Ok tt w'
        end
    end.

Definition swallowed (e : exn) : bool :=
  match e with
  | SocketError n => (n =? 32)%Z || (n =? 107)%Z
  | _ => false
  end.

(** [Client.kill] *)
Definition kill (c : nat) (delete : bool) : M unit :=
  try_except (teardown c)
             (fun e => if swallowed e then ret tt else raise e) ;;
  (fun w => print (LogLeft (c_address (heap w c))) w) ;;
  if delete then deregister c else ret tt.

(** [Client.leave] *)
Definition leave (c : nat) (delete gone : bool) : M unit :=
  assign_chat c false ;;
  (if gone then ret tt else send c farewell) ;;
  kill c delete ;;
  if delete
  then (name <- get_name c ;; broadcast (left_notice name) None)
  else ret tt.

(** ** The handling routine *)

Definition script := list recv_event.

(** How a routine that reads from the socket ends: it returns, it raises, or
    it is still blocked in [socket.recv] when the script is used up. [rest]
    is what was not read. *)
Inductive run : Type :=
| Returned (rest : script) (w : world)
| Raised (e : exn) (rest : script) (w : world)
| Waiting (w : world).

Definition quit_token : text := str ":quit".

Definition is_blank (message : text) : bool :=
  Text.eqb message [] || Text.eqb message [LF].

(** The [while True] loop of [Client.handler]. *)
Fixpoint handler_loop (c : nat) (s : script) (w : world) : run :=
  match s with
  | [] => Waiting w
  | ev :: s' =>
      match recv c ev w with
      | Err e w1 => Raised e s' w1
      | Ok message w1 =>
          if contains quit_token message then
            match leave c true false w1 with
            | Ok _ w2 => Returned s' w2
            | Err e w2 => Raised e s' w2
            end
          else if is_blank message then handler_loop c s' w1
          else
            match msg c message w1 with
            | Ok _ w2 => handler_loop c s' w2
            | Err e w2 => Raised e s' w2
            end
      end
  end.

(** [Client.handler] *)
Definition handler (c : nat) (s : script) (w : world) : run :=
  match join_prompt c w with
  | Err e w1 => Raised e s w1
  | Ok _ w1 =>
      match s with
      | [] => Waiting w1
      | ev :: s' =>
          match (join_named c ev ;; assign_chat c true ;; send c []) w1 with
          | Err e w2 => Raised e s' w2
          | Ok _ w2 => handler_loop c s' w2
          end
      end
  end.

(** The [except socket.error] clause of [Client.handle]. *)
Definition on_error (c : nat) (e : exn) (rest : script) (w : world) : run :=
  match e with
  | SocketError n =>
      if (n =? EPIPE)%Z then
        match leave c true true w with
        | Ok _ w' => Returned rest w'
        | Err e' w' => Raised e' rest w'
        end
      else if (n =? 9)%Z then Returned rest w
      else Raised e rest w
  | _ => Raised e rest w
  end.

Definition contain (r : run) (c : nat) : run :=
  match r with
  | Raised e rest w => on_error c e rest w
  | _ => r
  end.

(** [Client.handle] *)
Definition handle (c : nat) (s : script) (w : world) : run :=
  contain (handler c s w) c.

(** [Client.handle] for a session that is already in its chat loop. *)
Definition handle_chatting (c : nat) (s : script) (w : world) : run :=
  contain (handler_loop c s w) c.

(** ** [Server] *)

Fixpoint leave_all (cs : list nat) : M unit :=
  match cs with
  | [] => ret tt
  | c :: rest => (leave c false false ;; leave_all rest)
  end.

(** [Server.close_connections] *)
Definition close_connections : M unit :=
  broadcast closing_notice None ;;
  (fun w => leave_all (keys w) w).

Definition set_listener (l : listener_state) (w : world) : world :=
  mkWorld (clients w) (heap w) (is_running w) l (threads w) (stdout w).

Definition set_running (b : bool) (w : world) : world :=
  mkWorld (clients w) (heap w) b (listener w) (threads w) (stdout w).

Definition spawn (c : nat) (w : world) : world :=
  mkWorld (clients w) (heap w) (is_running w) (listener w) (threads w ++ [c])
          (stdout w).

(** [Server.close] *)
Definition close (w : world) : world :=
  world_of (print LogClosedServer (set_listener Released w)).

(** What one call of [server.accept] yields: the one-second timeout, or a
    connection, for which [Client(...)] makes the object [c]. *)
Inductive accept_event : Type :=
| AcceptTimeout
| AcceptConn (c : nat) (s : sock) (a : address).

Definition new_client (s : sock) (a : address) : client :=
  mkClient s a false None.

(** [Server.accept_connections]. When the events are used up while the server
    is running the thread is still polling. *)
Fixpoint accept_connections (evs : list accept_event) (w : world) : world :=
  if is_running w then
    match evs with
    | [] => w
    | AcceptTimeout :: evs' => accept_connections evs' w
    | AcceptConn c s a :: evs' =>
        let w1 := world_of (print (LogJoined a) w) in
        accept_connections evs' (spawn c (set_heap c (new_client s a) w1))
    end
  else close w.

(** [Server.start], the main thread: listen, announce, set the flag and start
    the accepting thread; then the main thread is blocked in
    [accept_thread.join()] until the interrupt, and [others] is what the
    accepting thread and the sessions' routines do to the state meanwhile;
    then the [finally] clause clears the flag and sweeps the sessions. The
    listening socket is not closed here: the accepting thread closes it when
    it next looks at the flag ([accept_connections] with the flag off). *)
Definition start (others : world -> world) (w : world) : result unit :=
  let w1 := set_listener Listening w in
  let w2 := world_of (print LogAvailable w1) in
  let w3 := set_running true w2 in
  let w4 := others w3 in
  let w5 := world_of (print LogShuttingDown w4) in
  let w6 := set_running false w5 in
  close_connections w6.

(** The log lines [accept_connections] prints while [evs] are accepted. *)
Fixpoint accept_log (evs : list accept_event) : list log_line :=
  match evs with
  | [] => []
  | AcceptTimeout :: evs' => accept_log evs'
  | AcceptConn _ _ a :: evs' => LogJoined a :: accept_log evs'
  end.

(** ** A small chat room, for running the definitions *)

Module Room.

Definition fresh_sock : sock := mkSock false [] None None None.

Definition idle : world :=
  mkWorld [] (fun c => new_client fresh_sock (str "127.0.0.1", 5000 + c))
          false Bound [] [].

Definition after (r : run) : world :=
  match r with
  | Returned _ w => w
  | Raised _ _ w => w
  | Waiting w => w
  end.

Definition line (s : string) : recv_event := RecvData (str s ++ [LF]).

Definition alice : nat := 1.
Definition bob : nat := 2.
Definition carol : nat := 3.

Definition error_of (r : run) : option exn :=
  match r with
  | Raised e _ _ => Some e
  | _ => None
  end.

(** Alice and Bob have joined, in this order, and wait for input. *)
Definition two : world :=
  after (handle bob [line "Bob"] (after (handle alice [line "Alice"] idle))).

(** Carol has joined them. *)
Definition three : world := after (handle carol [line "Carol"] two).

(** The same room once Bob's peer is gone: sends to him raise [n]. *)
Definition break_send (c : nat) (n : Z) (w : world) : world :=
  let o := heap w c in
  let s := c_socket o in
  set_heap c (set_socket (mkSock (sk_closed s) (sk_sent s) (Some n)
                                 (sk_shutdown_err s) (sk_close_err s)) o) w.

(** The same room once tearing Bob's socket down fails: [shutdown] raises
    [n]. *)
Definition break_shutdown (c : nat) (n : Z) (w : world) : world :=
  let o := heap w c in
  let s := c_socket o in
  set_heap c (set_socket (mkSock (sk_closed s) (sk_sent s) (sk_send_err s)
                                 (Some n) (sk_close_err s)) o) w.

(** A fourth connection, accepted but not yet named. *)
Definition dave : nat := 4.

End Room.

(** ** Vocabulary for the statements *)

(** The object [o] once [raw] has been written to its socket. *)
Definition received (raw : text) (o : client) : client :=
  let s := c_socket o in
  set_socket (mkSock (sk_closed s) (sk_sent s ++ [raw]) (sk_send_err s)
                     (sk_shutdown_err s) (sk_close_err s)) o.

(** The object [o] once its socket has been closed. *)
Definition released (o : client) : client :=
  let s := c_socket o in
  set_socket (mkSock true (sk_sent s) (sk_send_err s) (sk_shutdown_err s)
                     (sk_close_err s)) o.

(** A [send] on the socket of [c] succeeds. *)
Definition can_send (w : world) (c : nat) : Prop :=
  closed w c = false /\ sk_send_err (c_socket (heap w c)) = None.

(** A [send] on the socket of [c] raises [SocketError n]. *)
Definition send_fails (w : world) (c : nat) (n : Z) : Prop :=
  (closed w c = true /\ n = EBADF) \/
  (closed w c = false /\ sk_send_err (c_socket (heap w c)) = Some n).

Definition quiet (r : option Z) : Prop :=
  r = None \/ r = Some EPIPE \/ r = Some ENOTCONN.

(** Tearing the socket of [c] down raises nothing that [kill] lets through:
    the socket is open, and [shutdown] and [close] succeed or fail with 32 or
    107. *)
Definition teardown_quiet (w : world) (c : nat) : Prop :=
  closed w c = false /\
  quiet (sk_shutdown_err (c_socket (heap w c))) /\
  quiet (sk_close_err (c_socket (heap w c))).

(** The socket of [c] is open and no operation on it fails. *)
Definition healthy (w : world) (c : nat) : Prop :=
  closed w c = false /\
  sk_send_err (c_socket (heap w c)) = None /\
  sk_shutdown_err (c_socket (heap w c)) = None /\
  sk_close_err (c_socket (heap w c)) = None.

(** The [Server] attributes other than the [Client] objects agree. *)
Definition same_server (w w' : world) : Prop :=
  clients w' = clients w /\ is_running w' = is_running w /\
  listener w' = listener w /\ threads w' = threads w /\
  stdout w' = stdout w.

(** Only the object [c] may differ between [w] and [w']. *)
Definition only_changes (c : nat) (w w' : world) : Prop :=
  same_server w w' /\ forall c', c' <> c -> heap w' c' = heap w c'.

(** The [try] statement of [Client.kill]. *)
Definition guarded_teardown (c : nat) : M unit :=
  try_except (teardown c) (fun e => if swallowed e then ret tt else raise e).

(** The state once [recv] has refreshed the prompt of the chatting session
    [c]. *)
Definition refreshed (c : nat) (w : world) : world :=
  set_heap c (received (frame true []) (heap w c)) w.

(** What [handler_loop] does with a line once [recv] has returned it. *)
Definition dispatch (c : nat) (message : text) (rest : script) (w : world)
  : run :=
  if contains quit_token message then
    match leave c true false w with
    | Ok _ w' => Returned rest w'
    | Err e w' => Raised e rest w'
    end
  else if is_blank message then handler_loop c rest w
  else
    match msg c message w with
    | Ok _ w' => handler_loop c rest w'
    | Err e w' => Raised e rest w'
    end.

(** The chatting session [c] meets a broken pipe at its next read: either
    [socket.recv] raises it, or the prompt refresh that follows does. *)
Definition observes_epipe (w : world) (c : nat) (ev : recv_event) : Prop :=
  ev = RecvErr EPIPE \/
  ((forall n, ev <> RecvErr n) /\
   sk_send_err (c_socket (heap w c)) = Some EPIPE).

(** The objects [Client(...)] creates while [evs] are accepted. *)
Fixpoint accepted (evs : list accept_event) : list nat :=
  match evs with
  | [] => []
  | AcceptTimeout :: evs' => accepted evs'
  | AcceptConn c _ _ :: evs' => c :: accepted evs'
  end.

(** The object [o] once the shutdown sweep has made its session leave. *)
Definition swept (o : client) : client :=
  released (received (frame false farewell) (set_chat false o)).

Definition is_sender (c : nat) (sender : option nat) : bool :=
  match sender with
  | Some s => Nat.eqb c s
  | None => false
  end.

(** [c] is one of the sessions a broadcast over [l] writes to. *)
Definition recipient (l : list nat) (sender : option nat) (c : nat) : bool :=
  existsb (Nat.eqb c) l && negb (is_sender c sender).

(** A computation that leaves [Server.clients] alone, however it ends. *)
Definition keeps_clients {A} (m : M A) : Prop :=
  forall w, clients (world_of (m w)) = clients w.

(** [join] up to its last statement. *)
Definition join_unregistered (c : nat) (ev : recv_event) : M text :=
  join_prompt c ;;
  line <- recv c ev ;;
  assign_name c (strip line) ;;
  send c (welcome (strip line)) ;;
  broadcast (joined_notice (strip line)) None ;;
  ret (strip line).

(** Tearing the socket of [c] down raises [SocketError n]: the socket is
    already closed, or [shutdown] fails, or [shutdown] succeeds and [close]
    fails. *)
Definition teardown_raises (w : world) (c : nat) (n : Z) : Prop :=
  (closed w c = true /\ n = EBADF) \/
  (closed w c = false /\ sk_shutdown_err (c_socket (heap w c)) = Some n) \/
  (closed w c = false /\ sk_shutdown_err (c_socket (heap w c)) = None /\
   sk_close_err (c_socket (heap w c)) = Some n).

(** A computation that keeps the keys of [Server.clients] distinct, however
    it ends. *)
Definition keeps_distinct {A} (m : M A) : Prop :=
  forall w, NoDup (keys w) -> NoDup (keys (world_of (m w))).

(** Between [w] and [w'] the keys of the dict stay distinct and the entries of
    all sessions but [c] are the same. *)
Definition tends_own (c : nat) (w w' : world) : Prop :=
  (NoDup (keys w) -> NoDup (keys w')) /\
  forall c' n, c' <> c -> (In (c', n) (clients w') <-> In (c', n) (clients w)).

(** A computation that, however it ends, touches no entry of the dict but
    that of [c]. *)
Definition minds_own {A} (c : nat) (m : M A) : Prop :=
  forall w, tends_own c w (world_of (m w)).

(** A computation that, however it ends, leaves the Registry, the running
    flag, the listening socket and the list of routines as they are. *)
Definition keeps_server {A} (m : M A) : Prop :=
  forall w,
    clients (world_of (m w)) = clients w /\
    is_running (world_of (m w)) = is_running w /\
    listener (world_of (m w)) = listener w /\
    threads (world_of (m w)) = threads w.

(** The state in which the interrupt finds the server that [start] has
    started on [w]. *)
Definition at_interrupt (others : world -> world) (w : world) : world :=
  others (set_running true
            (world_of (print LogAvailable (set_listener Listening w)))).

(** The lines of a script of received texts that the chat loop broadcasts. *)
Definition spoken (lines : list text) : list text :=
  filter (fun m => negb (is_blank m)) lines.

(** * Properties *)

Unset Implicit Arguments.

(** ** Dict lemmas *)

Section Dict.

Lemma existsb_eqb_In (c : nat) (l : list nat) :
  existsb (Nat.eqb c) l = true <-> In c l.
Proof.
  rewrite existsb_exists. split.
  - intros [x [Hin Heq]]. apply Nat.eqb_eq in Heq. now subst.
  - intros Hin. exists c. split; [assumption | apply Nat.eqb_refl].
Qed.

Lemma existsb_eqb_not_In (c : nat) (l : list nat) :
  existsb (Nat.eqb c) l = false <-> ~ In c l.
Proof.
  rewrite <- existsb_eqb_In. destruct (existsb (Nat.eqb c) l); split;
    intros H; try reflexivity; try discriminate; congruence.
Qed.

Lemma dict_del_absent (k : nat) (d : list (nat * text)) :
  ~ In k (map fst d) -> dict_del k d = None.
Proof.
  induction d as [|[k' v'] d IH]; simpl; intros Hn; [reflexivity|].
  destruct (Nat.eqb_spec k' k) as [->|Hne].
  - exfalso. apply Hn. now left.
  - rewrite IH; [reflexivity|]. intros Hin. apply Hn. now right.
Qed.

Lemma dict_del_present (k : nat) (d : list (nat * text)) :
  In k (map fst d) -> exists d', dict_del k d = Some d'.
Proof.
  induction d as [|[k' v'] d IH]; simpl; intros Hin; [contradiction|].
  destruct (Nat.eqb_spec k' k) as [->|Hne].
  - now exists d.
  - destruct Hin as [Heq|Hin]; [contradiction|].
    destruct (IH Hin) as [d' ->]. now eexists.
Qed.

Lemma dict_del_keys (k : nat) (d d' : list (nat * text)) :
  NoDup (map fst d) -> dict_del k d = Some d' ->
  In k (map fst d) /\ map fst d' = remove Nat.eq_dec k (map fst d).
Proof.
  revert d'. induction d as [|[k' v'] d IH]; simpl; intros d' Hnd Hdel;
    [discriminate|].
  inversion Hnd as [|? ? Hnotin Hnd']; subst.
  destruct (Nat.eqb_spec k' k) as [->|Hne].
  - inversion Hdel; subst. split; [now left|].
    destruct (Nat.eq_dec k k) as [_|Hn]; [|congruence].
    symmetry. now apply notin_remove.
  - destruct (dict_del k d) as [d''|] eqn:E; [|discriminate].
    inversion Hdel; subst. destruct (IH d'' Hnd' eq_refl) as [Hin Hk].
    split; [now right|]. simpl.
    destruct (Nat.eq_dec k k') as [Heq|_]; [congruence|]. now rewrite Hk.
Qed.

Lemma dict_set_keys_new (k : nat) (v : text) (d : list (nat * text)) :
  ~ In k (map fst d) -> map fst (dict_set k v d) = map fst d ++ [k].
Proof.
  induction d as [|[k' v'] d IH]; simpl; intros Hn; [reflexivity|].
  destruct (Nat.eqb_spec k' k) as [->|Hne].
  - exfalso. apply Hn. now left.
  - simpl. rewrite IH; [reflexivity|]. intros Hin. apply Hn. now right.
Qed.

Lemma dict_set_keys_old (k : nat) (v : text) (d : list (nat * text)) :
  In k (map fst d) -> map fst (dict_set k v d) = map fst d.
Proof.
  induction d as [|[k' v'] d IH]; simpl; intros Hin; [contradiction|].
  destruct (Nat.eqb_spec k' k) as [->|Hne]; [reflexivity|].
  simpl. destruct Hin as [Heq|Hin]; [contradiction|]. now rewrite IH.
Qed.

Lemma dict_set_NoDup (k : nat) (v : text) (d : list (nat * text)) :
  NoDup (map fst d) -> NoDup (map fst (dict_set k v d)).
Proof.
  intros Hnd. destruct (in_dec Nat.eq_dec k (map fst d)) as [Hin|Hn].
  - now rewrite dict_set_keys_old.
  - rewrite dict_set_keys_new by assumption.
    apply NoDup_app.
    + assumption.
    + constructor; [intros Hin; inversion Hin | constructor].
    + intros x Hx [Heq|Hin]; [subst; contradiction | inversion Hin].
Qed.

Lemma dict_set_In (k : nat) (v : text) (d : list (nat * text)) :
  In k (map fst (dict_set k v d)).
Proof.
  destruct (in_dec Nat.eq_dec k (map fst d)) as [Hin|Hn].
  - now rewrite dict_set_keys_old.
  - rewrite dict_set_keys_new by assumption. apply in_or_app. right. now left.
Qed.

End Dict.

(** ** Sending and broadcasting *)

Section Sending.

Lemma same_server_refl (w : world) : same_server w w.
Proof. repeat split. Qed.

Lemma same_server_trans (w1 w2 w3 : world) :
  same_server w1 w2 -> same_server w2 w3 -> same_server w1 w3.
Proof.
  unfold same_server. intros (A1 & A2 & A3 & A4 & A5) (B1 & B2 & B3 & B4 & B5).
  repeat split; congruence.
Qed.

Lemma same_server_set_heap (c : nat) (o : client) (w : world) :
  same_server w (set_heap c o w).
Proof. repeat split. Qed.

Lemma same_server_keys (w w' : world) :
  same_server w w' -> keys w' = keys w.
Proof. intros (H & _). unfold keys. now rewrite H. Qed.

Lemma heap_set_heap_same (c : nat) (o : client) (w : world) :
  heap (set_heap c o w) c = o.
Proof. simpl. now rewrite Nat.eqb_refl. Qed.

Lemma heap_set_heap_other (c c' : nat) (o : client) (w : world) :
  c' <> c -> heap (set_heap c o w) c' = heap w c'.
Proof. intros Hne. simpl. now apply Nat.eqb_neq in Hne as ->. Qed.

Lemma send_ok (c : nat) (m : text) (w : world) :
  can_send w c ->
  send c m w = Ok tt (set_heap c (received (frame (chat w c) m) (heap w c)) w).
Proof.
  unfold can_send, closed, send, sock_send, received. intros [Hc He].
  now rewrite He, Hc.
Qed.

Lemma send_err (c : nat) (m : text) (w : world) (n : Z) :
  send_fails w c n -> send c m w = Err (SocketError n) w.
Proof.
  unfold send_fails, closed, send, sock_send.
  intros [[Hc ->]|[Hc He]]; rewrite Hc; [reflexivity | now rewrite He].
Qed.

(** A [send] either writes one frame to its socket or raises and changes
    nothing. *)
Lemma send_cases (c : nat) (m : text) (w : world) :
  send c m w = Ok tt (set_heap c (received (frame (chat w c) m) (heap w c)) w)
  \/ exists e, send c m w = Err e w.
Proof.
  unfold send, sock_send, received.
  destruct (sk_closed (c_socket (heap w c))); [right; now eexists|].
  destruct (sk_send_err (c_socket (heap w c))); [right; now eexists|].
  now left.
Qed.

Lemma broadcast_to_app (l1 l2 : list nat) (m : text) (sender : option nat)
      (w : world) :
  broadcast_to (l1 ++ l2) m sender w =
  (broadcast_to l1 m sender ;; broadcast_to l2 m sender) w.
Proof.
  revert w. induction l1 as [|c l1 IH]; intros w; [reflexivity|].
  simpl. unfold bind in *. destruct sender as [s|].
  - destruct (Nat.eqb c s); [apply IH|].
    destruct (send c m w); [apply IH | reflexivity].
  - destruct (send c m w); [apply IH | reflexivity].
Qed.

Lemma recipient_cons_skip (c : nat) (l : list nat) (sender : option nat)
      (c' : nat) :
  is_sender c sender = true ->
  recipient (c :: l) sender c' = recipient l sender c'.
Proof.
  unfold recipient. simpl. intros Hs.
  destruct (Nat.eqb_spec c' c) as [->|Hne]; [|reflexivity].
  rewrite Hs. simpl. now rewrite !andb_false_r.
Qed.

(** When every send succeeds a broadcast writes one frame to each recipient
    and touches nothing else. *)
Lemma broadcast_to_ok (m : text) (sender : option nat) (l : list nat) :
  forall w,
    NoDup l ->
    (forall c, recipient l sender c = true -> can_send w c) ->
    exists w',
      broadcast_to l m sender w = Ok tt w' /\
      same_server w w' /\
      forall c, heap w' c =
                if recipient l sender c
                then received (frame (chat w c) m) (heap w c)
                else heap w c.
Proof.
  induction l as [|c l IH]; intros w Hnd Hcan.
  - exists w. split; [reflexivity|]. split; [apply same_server_refl|].
    intros c. reflexivity.
  - inversion Hnd as [|? ? Hnotin Hnd']; subst.
    destruct (is_sender c sender) eqn:Hs.
    + destruct (IH w Hnd') as (w' & Hb & Hsame & Hheap).
      { intros c' Hr. apply Hcan. now rewrite recipient_cons_skip. }
      exists w'. split.
      { simpl. destruct sender as [s|]; [|discriminate].
        simpl in Hs. now rewrite Hs. }
      split; [assumption|]. intros c'.
      now rewrite recipient_cons_skip.
    + assert (Hc : can_send w c).
      { apply Hcan. unfold recipient. simpl.
        now rewrite Nat.eqb_refl, Hs. }
      set (w1 := set_heap c (received (frame (chat w c) m) (heap w c)) w).
      destruct (IH w1 Hnd') as (w' & Hb & Hsame & Hheap).
      { intros c' Hr. assert (Hne : c' <> c).
        { intros ->. unfold recipient in Hr.
          apply andb_prop in Hr as [Hr _].
          apply existsb_eqb_In in Hr. contradiction. }
        assert (Hc' : can_send w c').
        { apply Hcan. unfold recipient in *. simpl.
          apply andb_prop in Hr as [Hr1 Hr2].
          now rewrite Hr1, Hr2, orb_true_r. }
        unfold can_send, closed, w1 in *.
        now rewrite heap_set_heap_other. }
      exists w'. split.
      { assert (Hsend : (send c m ;; broadcast_to l m sender) w = Ok tt w').
        { unfold bind. now rewrite send_ok. }
        simpl. destruct sender as [s|]; [|exact Hsend].
        simpl in Hs. now rewrite Hs. }
      split.
      { eapply same_server_trans; [|exact Hsame].
        apply same_server_set_heap. }
      intros c'. rewrite Hheap. unfold recipient. simpl.
      destruct (Nat.eqb_spec c' c) as [->|Hne].
      * rewrite Hs. simpl.
        apply existsb_eqb_not_In in Hnotin. rewrite Hnotin. simpl.
        reflexivity.
      * simpl. unfold chat, w1. now rewrite heap_set_heap_other.
Qed.

(** Whatever happens, a broadcast does not touch the excluded sender. *)
Lemma broadcast_to_skips_sender (m : text) (s : nat) (l : list nat) :
  forall w, heap (world_of (broadcast_to l m (Some s) w)) s = heap w s.
Proof.
  induction l as [|c l IH]; intros w; [reflexivity|].
  simpl. destruct (Nat.eqb_spec c s) as [->|Hne]; [apply IH|].
  unfold bind. destruct (send_cases c m w) as [E|[e E]]; rewrite E.
  - rewrite IH. apply heap_set_heap_other. congruence.
  - reflexivity.
Qed.

(** A broadcast never changes the Registry. *)
Lemma broadcast_to_same_server (m : text) (sender : option nat)
      (l : list nat) :
  forall w, same_server w (world_of (broadcast_to l m sender w)).
Proof.
  induction l as [|c l IH]; intros w; [apply same_server_refl|].
  assert (H : same_server w
                (world_of ((send c m ;; broadcast_to l m sender) w))).
  { unfold bind. destruct (send_cases c m w) as [E|[e E]]; rewrite E.
    - eapply same_server_trans; [apply same_server_set_heap | apply IH].
    - apply same_server_refl. }
  simpl. destruct sender as [s|]; [|exact H].
  destruct (Nat.eqb c s); [apply IH | exact H].
Qed.

End Sending.

Section Broadcast.

Lemma recipient_iff (l : list nat) (sender : option nat) (c : nat) :
  recipient l sender c = true <-> In c l /\ sender <> Some c.
Proof.
  unfold recipient. rewrite andb_true_iff, existsb_eqb_In, negb_true_iff.
  destruct sender as [s|]; simpl.
  - destruct (Nat.eqb_spec c s) as [->|Hne]; split; intros [H1 H2];
      split; try assumption; try discriminate; try congruence.
  - split; intros [H1 H2]; split; try assumption; try discriminate;
      reflexivity.
Qed.

Lemma sent_received (raw : text) (o : client) :
  sk_sent (c_socket (received raw o)) = sk_sent (c_socket o) ++ [raw].
Proof. reflexivity. Qed.

(** The sender of a broadcast gets nothing from it, whether or not the
    broadcast runs to its end. *)
Lemma broadcast_skips_sender (message : text) (sender : nat) (w : world) :
  sent (world_of (broadcast message (Some sender) w)) sender = sent w sender.
Proof.
  unfold sent, broadcast. now rewrite broadcast_to_skips_sender.
Qed.

Lemma startswith_app (p s : text) : startswith p (p ++ s) = true.
Proof.
  induction p as [|x p IH]; [reflexivity|].
  simpl. now rewrite N.eqb_refl, IH.
Qed.

Lemma contains_app (p pre post : text) :
  contains p (pre ++ p ++ post) = true.
Proof.
  induction pre as [|x pre IH].
  - simpl. destruct (p ++ post) eqn:E; simpl;
      rewrite <- E, startswith_app; reflexivity.
  - simpl. rewrite IH. apply orb_true_r.
Qed.

Lemma startswith_iff (p s : text) :
  startswith p s = true <-> exists post, s = p ++ post.
Proof.
  revert s. induction p as [|a p IH]; intros s.
  - simpl. split; [intros _; now exists s | reflexivity].
  - destruct s as [|b s]; simpl.
    + split; [discriminate | intros [post H]; discriminate].
    + rewrite andb_true_iff, N.eqb_eq, IH. split.
      * intros [-> [post ->]]. now exists post.
      * intros [post H]. inversion H; subst. split; [reflexivity|].
        now exists post.
Qed.

Lemma contains_iff (p s : text) :
  contains p s = true <-> exists pre post, s = pre ++ p ++ post.
Proof.
  induction s as [|b s IH].
  - simpl. rewrite orb_false_r, startswith_iff. split.
    + intros [post H]. now exists [], post.
    + intros (pre & post & H). destruct pre as [|x pre]; [|discriminate].
      now exists post.
  - simpl. rewrite orb_true_iff, IH, startswith_iff. split.
    + intros [[post H]|(pre & post & H)].
      * now exists [], post.
      * exists (b :: pre), post. simpl. now rewrite H.
    + intros (pre & post & H). destruct pre as [|x pre].
      * left. now exists post.
      * right. inversion H; subst. now exists pre, post.
Qed.

(** What [send] writes, byte by byte, and that the message is in it. *)
Lemma frame_spelled (b : bool) (m : text) :
  frame b m =
  if b
  then [ESC] ++ str "[1K" ++ [CR] ++ m
       ++ match m with [] => [] | _ => [LF] end
       ++ [ESC] ++ str "[33m>" ++ [ESC] ++ str "[0m "
  else [ESC] ++ str "[1K" ++ [CR] ++ m.
Proof.
  destruct b; unfold frame, clear, prompt; simpl;
    [now rewrite <- app_assoc | reflexivity].
Qed.

Lemma frame_contains (b : bool) (m : text) : contains m (frame b m) = true.
Proof.
  unfold frame. destruct b.
  - rewrite <- app_assoc. apply contains_app.
  - rewrite <- (app_nil_r m) at 2. apply contains_app.
Qed.

Lemma broadcast_excluding (w : world) (message : text)
      (sender : nat) :
  NoDup (keys w) ->
  (forall c, In c (keys w) -> c <> sender -> can_send w c) ->
  exists w',
    broadcast message (Some sender) w = Ok tt w' /\
    clients w' = clients w /\
    (forall c, In c (keys w) -> c <> sender ->
               sent w' c = sent w c ++ [frame (chat w c) message]) /\
    sent w' sender = sent w sender /\
    (forall c, ~ In c (keys w) -> sent w' c = sent w c).
Proof.
  intros Hnd Hcan.
  destruct (broadcast_to_ok message (Some sender) (keys w) w Hnd)
    as (w' & Hb & Hsame & Hheap).
  { intros c Hr. apply recipient_iff in Hr as [Hin Hne].
    apply Hcan; congruence. }
  exists w'. split; [exact Hb|]. split; [apply Hsame|].
  split; [|split].
  - intros c Hin Hne. unfold sent. rewrite Hheap.
    assert (Hr : recipient (keys w) (Some sender) c = true).
    { apply recipient_iff. split; congruence. }
    now rewrite Hr.
  - pose proof (broadcast_skips_sender message sender w) as Hs.
    unfold broadcast in Hs. fold (broadcast message (Some sender) w) in Hb.
    unfold broadcast in Hb. now rewrite Hb in Hs.
  - intros c Hn. unfold sent. rewrite Hheap.
    destruct (recipient (keys w) (Some sender) c) eqn:Hr; [|reflexivity].
    apply recipient_iff in Hr as [Hin _]. contradiction.
Qed.

(** C1. A broadcast with an excluded sender writes the message to every
    session that is in the Registry when the iteration starts, except the
    sender, whose socket gets nothing. What a recipient is written is the
    line-erase sequence, the message itself and, for a recipient in its chat
    state, a newline (unless the message is empty) and the prompt glyph. The
    sends are assumed to succeed; the Registry is a dict, so no session
    occurs in it twice. *)
Theorem broadcast_reaches_all_but_sender :
  forall (w : world) (message : text) (sender : nat),
    NoDup (keys w) ->
    (forall c, In c (keys w) -> c <> sender -> can_send w c) ->
    exists w',
      broadcast message (Some sender) w = Ok tt w' /\
      clients w' = clients w /\
      (forall c, In c (keys w) -> c <> sender ->
                 sent w' c
                 = sent w c
                   ++ [if chat w c
                       then [ESC] ++ str "[1K" ++ [CR] ++ message
                            ++ match message with [] => [] | _ => [LF] end
                            ++ [ESC] ++ str "[33m>" ++ [ESC] ++ str "[0m "
                       else [ESC] ++ str "[1K" ++ [CR] ++ message] /\
                 sent w' c = sent w c ++ [frame (chat w c) message] /\
                 contains message (frame (chat w c) message) = true) /\
      sent w' sender = sent w sender /\
      (forall c, ~ In c (keys w) -> sent w' c = sent w c).
Proof.
  intros w message sender Hnd Hcan.
  destruct (broadcast_excluding w message sender Hnd Hcan)
    as (w' & E & K & Hd & Hs & Hn).
  exists w'. split; [exact E|]. split; [exact K|].
  split; [|split; [exact Hs | exact Hn]].
  intros c Hin Hne. rewrite (Hd c Hin Hne).
  split; [now rewrite frame_spelled|].
  split; [reflexivity | apply frame_contains].
Qed.

(** C7, as the code has it. A broadcast sends in the Registry's iteration
    order and has no handler around a send: when the send to a session [b]
    raises, the error leaves [broadcast]; the recipients before [b] have the
    message and [b] and the sessions after it have not. *)
Theorem broadcast_stops_at_first_failure :
  forall (w : world) (message : text) (sender : option nat)
         (before : list nat) (b : nat) (after : list nat) (n : Z),
    keys w = before ++ b :: after ->
    NoDup (keys w) ->
    sender <> Some b ->
    (forall c, In c before -> sender <> Some c -> can_send w c) ->
    send_fails w b n ->
    exists w',
      broadcast message sender w = Err (SocketError n) w' /\
      (forall c, In c before -> sender <> Some c ->
                 sent w' c = sent w c ++ [frame (chat w c) message]) /\
      (forall c, In c (b :: after) -> sent w' c = sent w c).
Proof.
  intros w message sender before b after n Hkeys Hnd Hsb Hcan Hfail.
  rewrite Hkeys in Hnd.
  pose proof (NoDup_app_remove_r _ _ Hnd) as Hnd1.
  destruct (broadcast_to_ok message sender before w Hnd1)
    as (w1 & Hb & Hsame & Hheap).
  { intros c Hr. apply recipient_iff in Hr as [Hin Hne]. now apply Hcan. }
  assert (Hout : forall c, In c (b :: after) -> heap w1 c = heap w c).
  { intros c Hin. rewrite Hheap.
    destruct (recipient before sender c) eqn:Hr; [|reflexivity].
    apply recipient_iff in Hr as [Hin1 _]. exfalso.
    revert Hin. change (~ In c (b :: after)).
    clear - Hnd Hin1. induction before as [|x l IH]; [contradiction|].
    simpl in Hnd. inversion Hnd as [|? ? Hx Hl]; subst.
    destruct Hin1 as [->|Hin1].
    - intros Hin. apply Hx. apply in_or_app. now right.
    - now apply IH. }
  exists w1. split; [|split].
  - unfold broadcast. rewrite Hkeys, broadcast_to_app. unfold bind.
    rewrite Hb.
    assert (Hs : send b message w1 = Err (SocketError n) w1).
    { apply send_err. unfold send_fails, closed in *.
      rewrite (Hout b) by now left. exact Hfail. }
    cbn [broadcast_to]. destruct sender as [s|].
    + destruct (Nat.eqb_spec b s) as [->|Hne]; [congruence|].
      unfold bind. now rewrite Hs.
    + unfold bind. now rewrite Hs.
  - intros c Hin Hne. unfold sent. rewrite Hheap.
    assert (Hr : recipient before sender c = true).
    { apply recipient_iff. now split. }
    now rewrite Hr.
  - intros c Hin. unfold sent. now rewrite Hout.
Qed.

End Broadcast.

(** ** Leaving *)

Section Leaving.

Lemma bind_Ok {A B} (m : M A) (f : A -> M B) (w w' : world) (a : A) :
  m w = Ok a w' -> bind m f w = f a w'.
Proof. unfold bind. now intros ->. Qed.

Lemma bind_Err {A B} (m : M A) (f : A -> M B) (w w' : world) (e : exn) :
  m w = Err e w' -> bind m f w = Err e w'.
Proof. unfold bind. now intros ->. Qed.

Lemma only_changes_refl (c : nat) (w : world) : only_changes c w w.
Proof. split; [apply same_server_refl | reflexivity]. Qed.

Lemma only_changes_trans (c : nat) (w1 w2 w3 : world) :
  only_changes c w1 w2 -> only_changes c w2 w3 -> only_changes c w1 w3.
Proof.
  intros [S1 H1] [S2 H2]. split; [eapply same_server_trans; eassumption|].
  intros c' Hne. now rewrite H2, H1.
Qed.

Lemma only_changes_set_heap (c : nat) (o : client) (w : world) :
  only_changes c w (set_heap c o w).
Proof.
  split; [apply same_server_set_heap|].
  intros c' Hne. now apply heap_set_heap_other.
Qed.

(** A teardown that raises nothing [kill] lets through leaves the object as
    it was or with its socket closed. *)
Lemma guarded_teardown_quiet (c : nat) (w : world) :
  teardown_quiet w c ->
  exists w1,
    guarded_teardown c w = Ok tt w1 /\
    only_changes c w w1 /\
    (heap w1 c = heap w c \/ heap w1 c = released (heap w c)) /\
    (sk_shutdown_err (c_socket (heap w c)) = None ->
     heap w1 c = released (heap w c)).
Proof.
  unfold teardown_quiet, closed, guarded_teardown, try_except, teardown,
    sock_shutdown, sock_close.
  intros (Hc & Hsh & Hcl). rewrite Hc.
  destruct Hsh as [Hsh|[Hsh|Hsh]]; rewrite Hsh.
  - rewrite Hc.
    assert (Hr : heap (set_heap c (released (heap w c)) w) c
                 = released (heap w c)) by apply heap_set_heap_same.
    destruct Hcl as [Hcl|[Hcl|Hcl]]; rewrite Hcl; simpl;
      exists (set_heap c (released (heap w c)) w);
      (split; [unfold released; rewrite ?Hcl, ?Hsh; reflexivity|]);
      (split; [apply only_changes_set_heap|]);
      split; auto.
  - simpl. exists w. split; [reflexivity|].
    split; [apply only_changes_refl|]. split; [now left | discriminate].
  - simpl. exists w. split; [reflexivity|].
    split; [apply only_changes_refl|]. split; [now left | discriminate].
Qed.

(** [kill] up to the deletion: the teardown and the log line. *)
Lemma kill_quiet (c : nat) (delete : bool) (w : world) :
  teardown_quiet w c ->
  exists w2,
    kill c delete w = (if delete then deregister c else ret tt) w2 /\
    clients w2 = clients w /\
    is_running w2 = is_running w /\
    listener w2 = listener w /\
    (forall c', c' <> c -> heap w2 c' = heap w c') /\
    (heap w2 c = heap w c \/ heap w2 c = released (heap w c)) /\
    (sk_shutdown_err (c_socket (heap w c)) = None ->
     heap w2 c = released (heap w c)).
Proof.
  intros Hq.
  destruct (guarded_teardown_quiet c w Hq)
    as (w1 & Ht & [Hsame Hoth] & Hc & Hs).
  destruct Hsame as (S1 & S2 & S3 & S4 & S5).
  exists (world_of (print (LogLeft (c_address (heap w1 c))) w1)).
  split; [|simpl; auto 7].
  unfold kill. fold (guarded_teardown c).
  erewrite bind_Ok by exact Ht. reflexivity.
Qed.

Lemma deregister_present (c : nat) (w : world) :
  NoDup (keys w) -> In c (keys w) ->
  exists w',
    deregister c w = Ok tt w' /\
    keys w' = remove Nat.eq_dec c (keys w) /\
    ~ In c (keys w') /\
    NoDup (keys w') /\
    heap w' = heap w /\ is_running w' = is_running w /\
    listener w' = listener w.
Proof.
  intros Hnd Hin. unfold deregister.
  destruct (dict_del_present _ _ Hin) as [d Hd]. rewrite Hd.
  exists (set_clients d w). split; [reflexivity|].
  destruct (@dict_del_keys c (clients w) d Hnd Hd) as [_ Hk].
  assert (Hk' : keys (set_clients d w) = remove Nat.eq_dec c (keys w))
    by exact Hk.
  split; [exact Hk'|]. rewrite Hk'. split; [apply remove_In|].
  split; [|auto].
  clear - Hnd. induction (keys w) as [|x l IH]; [constructor|].
  inversion Hnd as [|? ? Hx Hl]; subst. simpl.
  destruct (Nat.eq_dec c x); [now apply IH|].
  constructor; [|now apply IH].
  intros Hin. apply in_remove in Hin as [Hin _]. contradiction.
Qed.

Lemma deregister_absent (c : nat) (w : world) :
  ~ In c (keys w) -> deregister c w = Err KeyError w.
Proof.
  intros Hn. unfold deregister. now rewrite dict_del_absent.
Qed.

(** C6, as the code has it. Deregistration is [del clients[self]] in [kill],
    done only when [delete] is true: it removes exactly the entry of a
    session that is present, and for a session that is not present it raises
    [KeyError], the Registry being left as it was. [kill] without [delete]
    does not touch the Registry. *)
Theorem deregister_absent_raises :
  forall (c : nat) (w : world),
    NoDup (keys w) ->
    (In c (keys w) ->
     exists w', deregister c w = Ok tt w' /\
                keys w' = remove Nat.eq_dec c (keys w) /\
                heap w' = heap w) /\
    (~ In c (keys w) -> deregister c w = Err KeyError w) /\
    (teardown_quiet w c -> ~ In c (keys w) ->
     exists w', kill c true w = Err KeyError w' /\ clients w' = clients w) /\
    (teardown_quiet w c ->
     exists w', kill c false w = Ok tt w' /\ clients w' = clients w).
Proof.
  intros c w Hnd. split; [|split; [|split]].
  - intros Hin.
    destruct (deregister_present c w Hnd Hin)
      as (w' & H1 & H2 & _ & _ & H3 & _).
    now exists w'.
  - apply deregister_absent.
  - intros Hq Hn.
    destruct (kill_quiet c true w Hq) as (w2 & Hk & Hcl & _).
    exists w2. rewrite Hk. split; [|exact Hcl].
    apply deregister_absent. unfold keys. now rewrite Hcl.
  - intros Hq.
    destruct (kill_quiet c false w Hq) as (w2 & Hk & Hcl & _).
    exists w2. now rewrite Hk.
Qed.

Lemma can_send_same (w w' : world) (c : nat) :
  heap w' c = heap w c -> can_send w c -> can_send w' c.
Proof. unfold can_send, closed. now intros ->. Qed.

(** [leave] with [delete]: the farewell unless the peer is gone, the
    teardown, the removal from the Registry and the notice to the others. *)
Lemma leave_deleting (c : nat) (name : text) (gone : bool) (w : world) :
  NoDup (keys w) ->
  In c (keys w) ->
  c_name (heap w c) = Some name ->
  (gone = false -> can_send w c) ->
  teardown_quiet w c ->
  (forall c', In c' (keys w) -> c' <> c -> can_send w c') ->
  exists w',
    leave c true gone w = Ok tt w' /\
    keys w' = remove Nat.eq_dec c (keys w) /\
    ~ In c (keys w') /\
    NoDup (keys w') /\
    chat w' c = false /\
    sent w' c = sent w c ++ (if gone then [] else [frame false farewell]) /\
    (sk_shutdown_err (c_socket (heap w c)) = None -> closed w' c = true) /\
    (forall c', In c' (keys w) -> c' <> c ->
       heap w' c' =
       received (frame (chat w c') (left_notice name)) (heap w c')) /\
    (forall c', ~ In c' (keys w) -> c' <> c -> heap w' c' = heap w c') /\
    is_running w' = is_running w /\ listener w' = listener w.
Proof.
  intros Hnd Hin Hname Hsend Hq Hothers.
  set (w1 := set_heap c (set_chat false (heap w c)) w).
  (* the farewell *)
  assert (H2 : exists w2,
             (if gone then ret tt else send c farewell) w1 = Ok tt w2 /\
             only_changes c w w2 /\
             c_chat (heap w2 c) = false /\
             c_name (heap w2 c) = Some name /\
             sk_sent (c_socket (heap w2 c)) =
               sent w c ++ (if gone then [] else [frame false farewell]) /\
             sk_closed (c_socket (heap w2 c)) = closed w c /\
             sk_shutdown_err (c_socket (heap w2 c)) =
               sk_shutdown_err (c_socket (heap w c)) /\
             sk_close_err (c_socket (heap w2 c)) =
               sk_close_err (c_socket (heap w c))).
  { destruct gone.
    - exists w1. split; [reflexivity|].
      split; [apply only_changes_set_heap|].
      unfold w1. rewrite heap_set_heap_same. simpl.
      unfold sent, closed. rewrite app_nil_r. auto 7.
    - assert (Hc1 : can_send w1 c).
      { specialize (Hsend eq_refl). unfold can_send, closed, w1 in *.
        now rewrite heap_set_heap_same. }
      rewrite (send_ok c farewell w1 Hc1).
      eexists. split; [reflexivity|]. split.
      { eapply only_changes_trans; apply only_changes_set_heap. }
      rewrite heap_set_heap_same. unfold chat, w1.
      rewrite heap_set_heap_same. simpl. unfold sent, closed. auto 7. }
  destruct H2 as (w2 & E2 & [S2 O2] & Hchat2 & Hname2 & Hsent2 & Hcl2
                  & Hsh2 & Hce2).
  (* the teardown and the removal *)
  assert (Hq2 : teardown_quiet w2 c).
  { unfold teardown_quiet, closed in *. now rewrite Hcl2, Hsh2, Hce2. }
  destruct (kill_quiet c true w2 Hq2)
    as (w3 & Ek & Hcl3 & Hrun3 & Hlis3 & O3 & Hc3 & Hs3).
  assert (Hk3 : keys w3 = keys w).
  { unfold keys. rewrite Hcl3. apply (same_server_keys _ _ S2). }
  assert (Hnd3 : NoDup (keys w3)) by now rewrite Hk3.
  assert (Hin3 : In c (keys w3)) by now rewrite Hk3.
  destruct (deregister_present c w3 Hnd3 Hin3)
    as (w4 & E4 & Hk4 & Hnin4 & Hnd4 & Hheap4 & Hrun4 & Hlis4).
  rewrite Hk3 in Hk4.
  assert (Hobj : c_chat (heap w4 c) = false /\
                 c_name (heap w4 c) = Some name /\
                 sk_sent (c_socket (heap w4 c)) =
                   sent w c ++ (if gone then [] else [frame false farewell])
                 /\
                 (sk_shutdown_err (c_socket (heap w c)) = None ->
                  sk_closed (c_socket (heap w4 c)) = true)).
  { rewrite Hheap4.
    destruct Hc3 as [Hc3|Hc3].
    - repeat split; try (rewrite Hc3; assumption).
      intros Hn. rewrite <- Hsh2 in Hn. now rewrite (Hs3 Hn).
    - rewrite Hc3. simpl. auto. }
  destruct Hobj as (Hchat4 & Hname4 & Hsent4 & Hclosed4).
  assert (Hoth4 : forall c', c' <> c -> heap w4 c' = heap w c').
  { intros c' Hne. now rewrite Hheap4, O3, O2. }
  (* the notice to the others *)
  destruct (broadcast_to_ok (left_notice name) None (keys w4) w4 Hnd4)
    as (w' & Eb & Sb & Hb).
  { intros c' Hr. apply recipient_iff in Hr as [Hr _].
    rewrite Hk4 in Hr. apply in_remove in Hr as [Hr Hne].
    apply (can_send_same w); [now apply Hoth4 | now apply Hothers]. }
  assert (Hnot : recipient (keys w4) None c = false).
  { destruct (recipient (keys w4) None c) eqn:Hr; [|reflexivity].
    apply recipient_iff in Hr as [Hr _]. contradiction. }
  exists w'. split.
  { unfold leave, assign_chat.
    erewrite bind_Ok by reflexivity. fold w1.
    erewrite bind_Ok by exact E2.
    erewrite bind_Ok by (rewrite Ek; exact E4).
    unfold get_name. unfold bind at 1. rewrite Hname4.
    exact Eb. }
  rewrite (same_server_keys _ _ Sb).
  split; [exact Hk4|]. split; [exact Hnin4|]. split; [exact Hnd4|].
  unfold chat, sent, closed. rewrite !Hb, Hnot.
  split; [exact Hchat4|]. split; [exact Hsent4|]. split; [exact Hclosed4|].
  split; [|split].
  - intros c' Hin' Hne.
    assert (Hr : recipient (keys w4) None c' = true).
    { apply recipient_iff. split; [|discriminate].
      rewrite Hk4. now apply in_in_remove. }
    rewrite Hb, Hr. unfold chat. now rewrite (Hoth4 c' Hne).
  - intros c' Hnin' Hne.
    assert (Hr : recipient (keys w4) None c' = false).
    { destruct (recipient (keys w4) None c') eqn:Hr; [|reflexivity].
      apply recipient_iff in Hr as [Hr _]. rewrite Hk4 in Hr.
      apply in_remove in Hr as [Hr _]. contradiction. }
    rewrite Hb, Hr. now apply Hoth4.
  - destruct Sb as (_ & B2 & B3 & _). destruct S2 as (_ & A2 & A3 & _).
    split; congruence.
Qed.

End Leaving.

(** ** The chat loop *)

Section ChatLoop.

Lemma handler_loop_step (c : nat) (ev : recv_event) (rest : script)
      (w : world) :
  handler_loop c (ev :: rest) w =
  match recv c ev w with
  | Err e w1 => Raised e rest w1
  | Ok message w1 => dispatch c message rest w1
  end.
Proof. reflexivity. Qed.

Lemma recv_chatting (c : nat) (s : text) (w : world) :
  chat w c = true -> can_send w c ->
  recv c (RecvData s) w = Ok s (refreshed c w).
Proof.
  intros Hchat Hcan. unfold recv. rewrite Hchat.
  erewrite bind_Ok by (apply send_ok; exact Hcan).
  now rewrite Hchat.
Qed.

Lemma refreshed_only_changes (c : nat) (w : world) :
  only_changes c w (refreshed c w).
Proof. apply only_changes_set_heap. Qed.

Lemma refreshed_heap (c : nat) (w : world) :
  heap (refreshed c w) c = received (frame true []) (heap w c).
Proof. apply heap_set_heap_same. Qed.

Lemma refreshed_keys (c : nat) (w : world) : keys (refreshed c w) = keys w.
Proof. reflexivity. Qed.

Lemma refreshed_can_send (c c' : nat) (w : world) :
  can_send w c' -> can_send (refreshed c w) c'.
Proof.
  unfold can_send, closed. intros H.
  destruct (Nat.eq_dec c' c) as [->|Hne].
  - now rewrite refreshed_heap.
  - unfold refreshed. now rewrite heap_set_heap_other.
Qed.

Lemma chat_recv_then_dispatch (c : nat) (s : text) (rest : script)
      (w : world) :
  chat w c = true ->
  can_send w c ->
  handler_loop c (RecvData s :: rest) w = dispatch c s rest (refreshed c w) /\
  sent (refreshed c w) c = sent w c ++ [clear ++ prompt] /\
  chat (refreshed c w) c = true /\
  only_changes c w (refreshed c w).
Proof.
  intros Hchat Hcan.
  split; [now rewrite handler_loop_step, recv_chatting|].
  split; [unfold sent; now rewrite refreshed_heap|].
  split; [unfold chat in *; now rewrite refreshed_heap|].
  apply refreshed_only_changes.
Qed.

(** C10. When [socket.recv] hands a chatting session's routine a line, [recv]
    writes that client the line-erase sequence, a carriage return and the
    coloured prompt glyph, with nothing between them and no newline, and the
    line is processed from the state this leaves. The send is assumed to
    succeed. *)
Theorem recv_refreshes_prompt :
  forall (c : nat) (s : text) (rest : script) (w : world),
    chat w c = true ->
    can_send w c ->
    recv c (RecvData s) w = Ok s (refreshed c w) /\
    sent (refreshed c w) c = sent w c ++ [clear ++ prompt] /\
    clear ++ prompt =
      [ESC] ++ str "[1K" ++ [CR] ++ [ESC] ++ str "[33m>" ++ [ESC]
      ++ str "[0m " /\
    existsb (N.eqb LF) (clear ++ prompt) = false /\
    only_changes c w (refreshed c w) /\
    chat (refreshed c w) c = true /\
    handler_loop c (RecvData s :: rest) w = dispatch c s rest (refreshed c w).
Proof.
  intros c s rest w Hchat Hcan.
  destruct (chat_recv_then_dispatch c s rest w Hchat Hcan)
    as (Hloop & Hsent & Hch & Honly).
  split; [now apply recv_chatting|]. split; [exact Hsent|].
  split; [reflexivity|]. split; [reflexivity|]. auto.
Qed.

(** C4, as the code has it. A line that is exactly the empty string or
    exactly one newline is dropped: after the prompt refresh the loop reads
    the next line, nothing has been written to any other session and the
    session is still chatting and registered as before. *)
Theorem blank_line_ignored :
  forall (c : nat) (m : text) (rest : script) (w : world),
    chat w c = true ->
    can_send w c ->
    m = [] \/ m = [LF] ->
    handler_loop c (RecvData m :: rest) w
      = handler_loop c rest (refreshed c w) /\
    clients (refreshed c w) = clients w /\
    chat (refreshed c w) c = true /\
    (forall c', c' <> c -> heap (refreshed c w) c' = heap w c') /\
    sent (refreshed c w) c = sent w c ++ [clear ++ prompt].
Proof.
  intros c m rest w Hchat Hcan Hm.
  destruct (chat_recv_then_dispatch c m rest w Hchat Hcan)
    as (Hloop & Hsent & Hch & Honly).
  split.
  - rewrite Hloop. unfold dispatch.
    destruct Hm as [->| ->]; reflexivity.
  - split; [reflexivity|]. split; [exact Hch|].
    split; [apply Honly | exact Hsent].
Qed.

(** *** What [strip] removes *)

Lemma lstrip_spec (s : text) :
  exists pre, s = pre ++ lstrip s /\ all_space pre = true.
Proof.
  induction s as [|x s IH]; [now exists []|].
  simpl. destruct (is_space x) eqn:Hx.
  - destruct IH as (pre & Heq & Hpre). exists (x :: pre). split.
    + simpl. now rewrite <- Heq.
    + simpl. now rewrite Hx.
  - now exists [].
Qed.

Lemma lstrip_head (s : text) (x : N) (t : text) :
  lstrip s = x :: t -> is_space x = false.
Proof.
  induction s as [|y s IH]; simpl; [discriminate|].
  destruct (is_space y) eqn:Hy; [exact IH|].
  intros H. inversion H; subst. exact Hy.
Qed.

Lemma all_space_rev (s : text) : all_space (rev s) = all_space s.
Proof.
  unfold all_space. induction s as [|x s IH]; [reflexivity|].
  simpl. rewrite forallb_app, IH. simpl.
  rewrite andb_true_r. apply andb_comm.
Qed.

Lemma rstrip_spec (s : text) :
  exists post, s = rstrip s ++ post /\ all_space post = true.
Proof.
  destruct (lstrip_spec (rev s)) as (pre & Heq & Hpre).
  exists (rev pre). split.
  - unfold rstrip. rewrite <- rev_app_distr, <- Heq. now rewrite rev_involutive.
  - now rewrite all_space_rev.
Qed.

Lemma rstrip_last (s t : text) (x : N) :
  rstrip s = t ++ [x] -> is_space x = false.
Proof.
  unfold rstrip. intros H.
  apply (f_equal (@rev N)) in H. rewrite rev_involutive, rev_app_distr in H.
  simpl in H. now apply lstrip_head in H.
Qed.

(** [strip] cuts a run of whitespace from each end and leaves a text that
    neither starts nor ends with whitespace. *)
Lemma strip_spec (m : text) :
  (exists pre post,
      m = pre ++ strip m ++ post /\
      all_space pre = true /\ all_space post = true) /\
  (forall x t, strip m = x :: t -> is_space x = false) /\
  (forall t x, strip m = t ++ [x] -> is_space x = false).
Proof.
  destruct (lstrip_spec m) as (pre & Hpre & Hsp).
  destruct (rstrip_spec (lstrip m)) as (post & Hpost & Hsq).
  split; [|split].
  - exists pre, post. unfold strip. now rewrite <- Hpost.
  - intros x t Hs. unfold strip in Hs. rewrite Hs in Hpost.
    simpl in Hpost. now apply lstrip_head in Hpost.
  - intros t x Hs. unfold strip in Hs. now apply rstrip_last in Hs.
Qed.

(** C5, as the code has it. A line that is neither a quit line nor blank is
    broadcast as the name in cyan, [": "] and the message stripped of
    whitespace at both ends; every other registered session gets it in its
    output framing, and the sender gets only its prompt refresh. The sends are
    assumed to succeed. *)
Theorem chat_line_broadcast :
  forall (c : nat) (name m : text) (rest : script) (w : world),
    NoDup (keys w) ->
    chat w c = true ->
    c_name (heap w c) = Some name ->
    can_send w c ->
    contains quit_token m = false ->
    is_blank m = false ->
    (forall c', In c' (keys w) -> c' <> c -> can_send w c') ->
    exists w',
      handler_loop c (RecvData m :: rest) w = handler_loop c rest w' /\
      (forall c', In c' (keys w) -> c' <> c ->
         sent w' c' = sent w c' ++ [frame (chat w c') (chat_line name m)]) /\
      sent w' c = sent w c ++ [clear ++ prompt] /\
      clients w' = clients w /\
      chat_line name m =
        [ESC] ++ str "[36m" ++ name ++ [ESC] ++ str "[0m: " ++ strip m /\
      (exists pre post,
          m = pre ++ strip m ++ post /\
          all_space pre = true /\ all_space post = true) /\
      (forall x t, strip m = x :: t -> is_space x = false) /\
      (forall t x, strip m = t ++ [x] -> is_space x = false).
Proof.
  intros c name m rest w Hnd Hchat Hname Hcan Hq Hb Hothers.
  destruct (chat_recv_then_dispatch c m rest w Hchat Hcan)
    as (Hloop & Hsent & Hch & [Hsame Hoth]).
  set (w1 := refreshed c w) in *.
  destruct (broadcast_excluding w1 (chat_line name m) c)
    as (w' & Eb & Hcl & Hdel & Hself & _).
  { exact Hnd. }
  { intros c' Hin Hne. apply refreshed_can_send. now apply Hothers. }
  exists w'. split.
  { rewrite Hloop. unfold dispatch. rewrite Hq, Hb. unfold msg, get_name.
    unfold bind at 1. unfold w1 at 1. rewrite refreshed_heap. simpl.
    rewrite Hname. fold w1. now rewrite Eb. }
  split.
  { intros c' Hin Hne. rewrite (Hdel c' Hin Hne).
    unfold sent, chat. now rewrite (Hoth c' Hne). }
  split; [now rewrite Hself|].
  split; [rewrite Hcl; apply Hsame|].
  split; [reflexivity|]. apply strip_spec.
Qed.

End ChatLoop.

(** ** Quitting and disconnecting *)

Section Departure.

Lemma refreshed_teardown_quiet (c : nat) (w : world) :
  teardown_quiet w c -> teardown_quiet (refreshed c w) c.
Proof.
  unfold teardown_quiet, closed. now rewrite refreshed_heap.
Qed.

Lemma left_notice_names (name : text) :
  left_notice name =
  ([ESC] ++ str "[32m") ++ (name ++ str " has left the chat")
  ++ ([ESC] ++ str "[0m").
Proof. unfold left_notice. now rewrite <- !app_assoc. Qed.

(** Once [join] has returned and the first prompt is out, [handle] goes on
    as [handle_chatting]. *)
Lemma handle_enters_chat (c : nat) (ev : recv_event) (s : script)
      (w w1 w2 : world) :
  join_prompt c w = Ok tt w1 ->
  (join_named c ev ;; assign_chat c true ;; send c []) w1 = Ok tt w2 ->
  handle c (ev :: s) w = handle_chatting c s w2.
Proof.
  intros E1 E2. unfold handle, handle_chatting, handler.
  now rewrite E1, E2.
Qed.

(** What occurs in a message occurs in what a recipient is written. *)
Lemma contains_frame (b : bool) (p m : text) :
  contains p m = true -> contains p (frame b m) = true.
Proof.
  intros H. apply contains_iff in H as (pre & post & H).
  apply contains_iff. unfold frame.
  remember (match m with [] => [] | _ => [LF] end) as tail.
  rewrite H. destruct b.
  - exists (clear ++ pre), (post ++ tail ++ prompt).
    now rewrite <- !app_assoc.
  - exists (clear ++ pre), post. now rewrite <- !app_assoc.
Qed.

(** The departure notice, as a recipient is written it, names who left. *)
Lemma notice_in_frame (b : bool) (name : text) :
  contains (name ++ str " has left the chat") (frame b (left_notice name))
  = true.
Proof.
  apply contains_frame. rewrite left_notice_names. apply contains_app.
Qed.

(** C3. A line that contains [":quit"] anywhere ends the chat loop: after the
    prompt refresh the session is sent the farewell line ["You will be
    disconnected. Bye!"], its socket is torn down, its entry is deleted from
    the Registry, every remaining session is sent the notice that contains
    ["<name> has left the chat"], and the routine returns with the rest of
    the input unread. The sends are assumed to succeed and the teardown to
    raise nothing [kill] lets through; the socket is closed when [shutdown]
    succeeds. *)
Theorem quit_line_leaves :
  forall (c : nat) (name m : text) (rest : script) (w : world),
    NoDup (keys w) ->
    In c (keys w) ->
    chat w c = true ->
    c_name (heap w c) = Some name ->
    contains quit_token m = true ->
    can_send w c ->
    teardown_quiet w c ->
    (forall c', In c' (keys w) -> c' <> c -> can_send w c') ->
    exists w',
      handler_loop c (RecvData m :: rest) w = Returned rest w' /\
      handle_chatting c (RecvData m :: rest) w = Returned rest w' /\
      sent w' c
      = sent w c
        ++ [[ESC] ++ str "[1K" ++ [CR] ++ [ESC] ++ str "[33m>" ++ [ESC]
            ++ str "[0m ";
            [ESC] ++ str "[1K" ++ [CR]
            ++ str "You will be disconnected. Bye!"] /\
      keys w' = remove Nat.eq_dec c (keys w) /\
      registered c w' = false /\
      chat w' c = false /\
      (sk_shutdown_err (c_socket (heap w c)) = None -> closed w' c = true) /\
      (forall c', In c' (keys w) -> c' <> c ->
         sent w' c' = sent w c' ++ [frame (chat w c') (left_notice name)] /\
         contains (name ++ str " has left the chat")
                  (frame (chat w c') (left_notice name)) = true) /\
      contains (name ++ str " has left the chat") (left_notice name) = true.
Proof.
  intros c name m rest w Hnd Hin Hchat Hname Hq Hcan Htq Hothers.
  destruct (chat_recv_then_dispatch c m rest w Hchat Hcan)
    as (Hloop & Hsent & Hch & [Hsame Hoth]).
  set (w1 := refreshed c w) in *.
  destruct (leave_deleting c name false w1) as
      (w' & El & Hk & Hnin & _ & Hchat' & Hsent' & Hclosed & Hrecv & _).
  { exact Hnd. }
  { exact Hin. }
  { unfold w1. rewrite refreshed_heap. exact Hname. }
  { intros _. now apply refreshed_can_send. }
  { now apply refreshed_teardown_quiet. }
  { intros c' Hin' Hne. apply refreshed_can_send. now apply Hothers. }
  assert (E : handler_loop c (RecvData m :: rest) w = Returned rest w').
  { rewrite Hloop. unfold dispatch. now rewrite Hq, El. }
  exists w'. split; [exact E|].
  split; [unfold handle_chatting; now rewrite E|].
  split.
  { rewrite Hsent', Hsent, <- app_assoc. reflexivity. }
  split; [exact Hk|].
  split; [now apply existsb_eqb_not_In|].
  split; [exact Hchat'|].
  split.
  { intros Hn. apply Hclosed. unfold w1. now rewrite refreshed_heap. }
  split.
  - intros c' Hin' Hne. split.
    + unfold sent. rewrite (Hrecv c' Hin' Hne).
      unfold chat. now rewrite (Hoth c' Hne).
    + apply notice_in_frame.
  - rewrite left_notice_names. apply contains_app.
Qed.

(** C8, as the code has it. The only disconnect [handle] recovers from is
    errno 32. When a chatting session meets it at its next read, raised by
    [socket.recv] or by the prompt refresh that follows, [handle] runs
    [leave(gone=True)] and returns without raising: no farewell is sent, the
    chat flag is cleared, the Registry entry is deleted and the others are
    told; the socket is closed when [shutdown] succeeds. This needs the
    teardown to raise nothing [kill] lets through and the sends to the others
    to succeed. A read that fails with any errno other than 32 and 9, a
    connection reset for one, is re-raised by [handle] with the state, the
    Registry included, untouched. *)
Theorem peer_close_recovered :
  forall (c : nat) (name : text) (ev : recv_event) (rest : script)
         (w : world),
    NoDup (keys w) ->
    In c (keys w) ->
    chat w c = true ->
    c_name (heap w c) = Some name ->
    observes_epipe w c ev ->
    teardown_quiet w c ->
    (forall c', In c' (keys w) -> c' <> c -> can_send w c') ->
    (exists w',
        handler_loop c (ev :: rest) w = Raised (SocketError EPIPE) rest w /\
        handle_chatting c (ev :: rest) w = Returned rest w' /\
        chat w' c = false /\
        registered c w' = false /\
        keys w' = remove Nat.eq_dec c (keys w) /\
        sent w' c = sent w c /\
        (sk_shutdown_err (c_socket (heap w c)) = None -> closed w' c = true)
        /\
        (forall c', In c' (keys w) -> c' <> c ->
           sent w' c' = sent w c' ++ [frame (chat w c') (left_notice name)]
           /\
           contains (name ++ str " has left the chat")
                    (frame (chat w c') (left_notice name)) = true)) /\
    (forall n rest',
        n <> EPIPE -> n <> EBADF ->
        handle_chatting c (RecvErr n :: rest') w
        = Raised (SocketError n) rest' w).
Proof.
  intros c name ev rest w Hnd Hin Hchat Hname Hobs Htq Hothers.
  split.
  - assert (E : handler_loop c (ev :: rest) w
                = Raised (SocketError EPIPE) rest w).
    { rewrite handler_loop_step.
      destruct Hobs as [->|[Hev Herr]]; [reflexivity|].
      assert (Hs : send c [] w = Err (SocketError EPIPE) w).
      { apply send_err. right. split; [apply Htq | exact Herr]. }
      unfold recv. rewrite Hchat.
      destruct ev as [s| |n]; [| |now destruct (Hev n)];
        now erewrite bind_Err by exact Hs. }
    destruct (leave_deleting c name true w Hnd Hin Hname) as
        (w' & El & Hk & Hnin & _ & Hchat' & Hsent' & Hclosed & Hrecv & _).
    { discriminate. }
    { exact Htq. }
    { exact Hothers. }
    exists w'. split; [exact E|].
    split.
    { unfold handle_chatting. rewrite E. simpl. now rewrite El. }
    split; [exact Hchat'|].
    split; [now apply existsb_eqb_not_In|].
    split; [exact Hk|].
    split; [now rewrite Hsent', app_nil_r|].
    split; [exact Hclosed|].
    intros c' Hin' Hne. split.
    + unfold sent. now rewrite (Hrecv c' Hin' Hne).
    + apply notice_in_frame.
  - intros n rest' H1 H2. unfold handle_chatting.
    rewrite handler_loop_step. simpl.
    apply Z.eqb_neq in H1. rewrite H1.
    unfold EBADF in H2. apply Z.eqb_neq in H2. now rewrite H2.
Qed.

End Departure.

(** ** The Registry over a session's life *)

Section Lifecycle.

Lemma keeps_bind {A B} (m : M A) (f : A -> M B) :
  keeps_clients m -> (forall a, keeps_clients (f a)) ->
  keeps_clients (bind m f).
Proof.
  intros Hm Hf w. unfold bind. specialize (Hm w).
  destruct (m w) as [a w1|e w1]; simpl in *; [|exact Hm].
  now rewrite Hf.
Qed.

Lemma keeps_ret {A} (a : A) : keeps_clients (ret a).
Proof. intros w. reflexivity. Qed.

Lemma keeps_raise {A} (e : exn) : keeps_clients (@raise A e).
Proof. intros w. reflexivity. Qed.

Lemma keeps_send (c : nat) (m : text) : keeps_clients (send c m).
Proof.
  intros w. destruct (send_cases c m w) as [E|[e E]]; now rewrite E.
Qed.

Lemma keeps_recv (c : nat) (ev : recv_event) : keeps_clients (recv c ev).
Proof.
  intros w. unfold recv. destruct ev as [s| |n]; [| |reflexivity].
  - apply keeps_bind; [|intros; apply keeps_ret].
    destruct (chat w c); [apply keeps_send | apply keeps_ret].
  - apply keeps_bind; [|intros; apply keeps_raise].
    destruct (chat w c); [apply keeps_send | apply keeps_ret].
Qed.

Lemma keeps_broadcast (m : text) (sender : option nat) :
  keeps_clients (broadcast m sender).
Proof. intros w. apply broadcast_to_same_server. Qed.

Lemma keeps_get_name (c : nat) : keeps_clients (get_name c).
Proof. intros w. unfold get_name. now destruct (c_name (heap w c)). Qed.

Lemma keeps_msg (c : nat) (m : text) : keeps_clients (msg c m).
Proof.
  apply keeps_bind; [apply keeps_get_name | intros; apply keeps_broadcast].
Qed.

Lemma keeps_assign_chat (c : nat) (b : bool) :
  keeps_clients (assign_chat c b).
Proof. intros w. reflexivity. Qed.

Lemma keeps_assign_name (c : nat) (n : text) :
  keeps_clients (assign_name c n).
Proof. intros w. reflexivity. Qed.

Lemma keeps_print (l : log_line) : keeps_clients (print l).
Proof. intros w. reflexivity. Qed.

Lemma keeps_guarded_teardown (c : nat) : keeps_clients (guarded_teardown c).
Proof.
  intros w. unfold guarded_teardown, try_except, teardown.
  destruct (sock_shutdown (c_socket (heap w c))) as [e|s].
  - now destruct (swallowed e).
  - destruct (sock_close s) as [[e|] s']; [|reflexivity].
    now destruct (swallowed e).
Qed.

Lemma keeps_kill_undeleted (c : nat) : keeps_clients (kill c false).
Proof.
  apply keeps_bind; [apply keeps_guarded_teardown|]. intros _.
  apply keeps_bind; [intros w; reflexivity | intros; apply keeps_ret].
Qed.

Lemma keeps_farewell (c : nat) (gone : bool) :
  keeps_clients (if gone then ret tt else send c farewell).
Proof. destruct gone; [apply keeps_ret | apply keeps_send]. Qed.

(** [leave] without [delete], the call of the shutdown sweep. *)
Lemma keeps_leave_undeleted (c : nat) (gone : bool) :
  keeps_clients (leave c false gone).
Proof.
  apply keeps_bind; [intros w; reflexivity|]. intros _.
  apply keeps_bind; [apply keeps_farewell|]. intros _.
  apply keeps_bind; [apply keeps_kill_undeleted | intros; apply keeps_ret].
Qed.

Lemma kept {A} (m : M A) (w : world) (r : result A) :
  keeps_clients m -> m w = r -> clients (world_of r) = clients w.
Proof. intros H <-. apply H. Qed.

Lemma join_split (c : nat) (ev : recv_event) (w : world) :
  join c ev w = (name <- join_unregistered c ev ;; register c name) w.
Proof.
  unfold join, join_named, join_unregistered, join_prompt, bind.
  destruct (send c name_prompt w); [|reflexivity].
  destruct (recv c ev w0); [|reflexivity].
  destruct (assign_name c (strip a0) w1); [|reflexivity].
  destruct (send c (welcome (strip a0)) w2); [|reflexivity].
  destruct (broadcast (joined_notice (strip a0)) None w3); reflexivity.
Qed.

Lemma keeps_join_unregistered (c : nat) (ev : recv_event) :
  keeps_clients (join_unregistered c ev).
Proof.
  apply keeps_bind; [apply keeps_send|]. intros _.
  apply keeps_bind; [apply keeps_recv|]. intros line.
  apply keeps_bind; [intros w; reflexivity|]. intros _.
  apply keeps_bind; [apply keeps_send|]. intros _.
  apply keeps_bind; [apply keeps_broadcast | intros; apply keeps_ret].
Qed.

Lemma join_cases (c : nat) (ev : recv_event) (w : world) :
  (exists e w', join c ev w = Err e w' /\ clients w' = clients w) \/
  (exists name w1,
      join c ev w = Ok tt (set_clients (dict_set c name (clients w1)) w1) /\
      clients w1 = clients w).
Proof.
  rewrite join_split. unfold bind.
  pose proof (keeps_join_unregistered c ev w) as Hk.
  destruct (join_unregistered c ev w) as [name w1|e w1]; simpl in Hk.
  - right. exists name, w1. split; [reflexivity | exact Hk].
  - left. exists e, w1. split; [reflexivity | exact Hk].
Qed.

(** A [leave] with [delete] that returns has deleted the entry. *)
Lemma leave_returns_deleted (c : nat) (gone : bool) (w w' : world) :
  NoDup (keys w) ->
  leave c true gone w = Ok tt w' ->
  keys w' = remove Nat.eq_dec c (keys w) /\ ~ In c (keys w').
Proof.
  intros Hnd. unfold leave, kill. fold (guarded_teardown c). unfold bind.
  destruct (assign_chat c false w) as [[] w1|] eqn:E1; [|discriminate].
  pose proof (kept _ w _ (keeps_assign_chat c false) E1) as K1.
  destruct ((if gone then ret tt else send c farewell) w1) as [[] w2|]
    eqn:E2; [|discriminate].
  pose proof (kept _ w1 _ (keeps_farewell c gone) E2) as K2.
  destruct (guarded_teardown c w2) as [[] w3|] eqn:E3; [|discriminate].
  pose proof (kept _ w2 _ (keeps_guarded_teardown c) E3) as K3.
  destruct (print (LogLeft (c_address (heap w3 c))) w3) as [[] w4|] eqn:E4;
    [|discriminate].
  pose proof (kept _ w3 _ (keeps_print _) E4) as K4.
  simpl in K1, K2, K3, K4.
  assert (K : clients w4 = clients w) by congruence.
  unfold deregister.
  destruct (dict_del c (clients w4)) as [d|] eqn:Ed; [|discriminate].
  rewrite K in Ed.
  destruct (@dict_del_keys c (clients w) d Hnd Ed) as [_ Hk].
  destruct (get_name c (set_clients d w4)) as [name w5|] eqn:E5;
    [|discriminate].
  pose proof (kept _ _ _ (keeps_get_name c) E5) as K5. simpl in K5.
  intros Eb.
  pose proof (kept _ w5 _ (keeps_broadcast (left_notice name) None) Eb) as K6.
  simpl in K6.
  assert (Hkeys : keys w' = remove Nat.eq_dec c (keys w)).
  { unfold keys. rewrite K6, K5. exact Hk. }
  split; [exact Hkeys|]. rewrite Hkeys. apply remove_In.
Qed.

Lemma handler_loop_waiting (c : nat) (s : script) :
  forall w w', handler_loop c s w = Waiting w' -> clients w' = clients w.
Proof.
  induction s as [|ev s IH]; intros w w' H.
  - inversion H. reflexivity.
  - rewrite handler_loop_step in H.
    destruct (recv c ev w) as [m w1|e w1] eqn:Er; [|discriminate].
    pose proof (kept _ w _ (keeps_recv c ev) Er) as K1. simpl in K1.
    unfold dispatch in H.
    destruct (contains quit_token m).
    + destruct (leave c true false w1); discriminate.
    + destruct (is_blank m).
      * rewrite (IH _ _ H). exact K1.
      * destruct (msg c m w1) as [[] w2|e w2] eqn:Em; [|discriminate].
        pose proof (kept _ w1 _ (keeps_msg c m) Em) as K2. simpl in K2.
        rewrite (IH _ _ H). congruence.
Qed.

Lemma handler_loop_returned (c : nat) (s : script) :
  forall w rest w',
    NoDup (keys w) ->
    handler_loop c s w = Returned rest w' -> ~ In c (keys w').
Proof.
  induction s as [|ev s IH]; intros w rest w' Hnd H; [discriminate|].
  rewrite handler_loop_step in H.
  destruct (recv c ev w) as [m w1|e w1] eqn:Er; [|discriminate].
  pose proof (kept _ w _ (keeps_recv c ev) Er) as K1. simpl in K1.
  assert (Hnd1 : NoDup (keys w1)) by (unfold keys; now rewrite K1).
  unfold dispatch in H.
  destruct (contains quit_token m).
  - destruct (leave c true false w1) as [[] w2|e w2] eqn:El; [|discriminate].
    inversion H; subst. now apply (leave_returns_deleted c false w1 w').
  - destruct (is_blank m); [now apply (IH w1 rest w')|].
    destruct (msg c m w1) as [[] w2|e w2] eqn:Em; [|discriminate].
    pose proof (kept _ w1 _ (keeps_msg c m) Em) as K2. simpl in K2.
    apply (IH w2 rest w'); [|exact H]. unfold keys. now rewrite K2.
Qed.

(** C2, as the code has it. The Registry follows [join] and [leave]: a
    [join] that fails leaves it as it was and a [join] that returns has
    entered the session; the chat loop keeps it while it goes on reading; a
    [leave] with [delete] that returns (the voluntary quit, or the broken
    pipe caught in [handle]) has removed the entry, and the [leave] of the
    shutdown sweep keeps it. [handle] has no clean-up of its own: a socket
    error other than 32 and 9 leaves it with the state of the moment it was
    raised, so a chatting session whose read fails that way stays in the
    Registry. *)
Theorem registry_follows_join_and_leave :
  forall (c : nat) (w : world),
    NoDup (keys w) ->
    (forall ev e w', join c ev w = Err e w' -> clients w' = clients w) /\
    (forall ev w',
        join c ev w = Ok tt w' ->
        In c (keys w') /\ NoDup (keys w') /\
        (~ In c (keys w) -> keys w' = keys w ++ [c])) /\
    (forall s w', handler_loop c s w = Waiting w' -> clients w' = clients w)
    /\
    (forall s rest w',
        handler_loop c s w = Returned rest w' -> ~ In c (keys w')) /\
    (forall gone w',
        leave c true gone w = Ok tt w' ->
        keys w' = remove Nat.eq_dec c (keys w)) /\
    (forall gone, clients (world_of (leave c false gone w)) = clients w) /\
    (forall s n rest w',
        handler_loop c s w = Raised (SocketError n) rest w' ->
        n <> EPIPE -> n <> EBADF ->
        handle_chatting c s w = Raised (SocketError n) rest w') /\
    (forall n rest,
        n <> EPIPE -> n <> EBADF ->
        handle_chatting c (RecvErr n :: rest) w
        = Raised (SocketError n) rest w).
Proof.
  intros c w Hnd.
  assert (Hpass : forall n rest w',
             n <> EPIPE -> n <> EBADF ->
             on_error c (SocketError n) rest w'
             = Raised (SocketError n) rest w').
  { intros n rest w' H1 H2. unfold on_error.
    apply Z.eqb_neq in H1. rewrite H1.
    unfold EBADF in H2. apply Z.eqb_neq in H2. now rewrite H2. }
  split.
  { intros ev e w' H.
    destruct (join_cases c ev w) as [(e' & w1 & E & K)|(name & w1 & E & K)];
      rewrite E in H; inversion H; subst; exact K. }
  split.
  { intros ev w' H.
    destruct (join_cases c ev w) as [(e' & w1 & E & K)|(name & w1 & E & K)];
      rewrite E in H; inversion H; subst.
    unfold keys. simpl. rewrite K.
    split; [apply dict_set_In|].
    split; [now apply dict_set_NoDup | apply dict_set_keys_new]. }
  split; [intros s w' H; now apply (handler_loop_waiting c s)|].
  split; [intros s rest w' H; now apply (handler_loop_returned c s w rest w')|].
  split; [intros gone w' H; now apply (leave_returns_deleted c gone w w')|].
  split; [intros gone; apply keeps_leave_undeleted|].
  split.
  - intros s n rest w' H H1 H2. unfold handle_chatting. rewrite H.
    now apply Hpass.
  - intros n rest H1 H2. unfold handle_chatting.
    rewrite handler_loop_step. simpl. now apply Hpass.
Qed.

End Lifecycle.

(** ** Shutdown *)

Section Shutdown.

Lemma healthy_same (w w' : world) (c : nat) :
  heap w' c = heap w c -> healthy w c -> healthy w' c.
Proof. unfold healthy, closed. now intros ->. Qed.

Lemma healthy_can_send (w : world) (c : nat) : healthy w c -> can_send w c.
Proof. intros (H1 & H2 & _). now split. Qed.

(** [leave(delete=False)] on a session whose socket works. *)
Lemma leave_undeleted_healthy (c : nat) (w : world) :
  healthy w c ->
  exists w',
    leave c false false w = Ok tt w' /\
    clients w' = clients w /\
    is_running w' = is_running w /\
    listener w' = listener w /\
    heap w' c = swept (heap w c) /\
    (forall c', c' <> c -> heap w' c' = heap w c').
Proof.
  unfold healthy, closed. intros (Hc & Hs & Hsh & Hcl).
  set (w1 := set_heap c (set_chat false (heap w c)) w).
  assert (Hc1 : can_send w1 c).
  { unfold can_send, closed, w1. now rewrite heap_set_heap_same. }
  set (w2 := set_heap c (received (frame (chat w1 c) farewell) (heap w1 c))
                      w1).
  assert (Ht : guarded_teardown c w2
               = Ok tt (set_heap c (released (heap w2 c)) w2)).
  { unfold guarded_teardown, try_except, teardown, sock_shutdown, sock_close,
      released.
    assert (Hh : heap w2 c = received (frame false farewell)
                                      (set_chat false (heap w c))).
    { unfold w2. rewrite heap_set_heap_same. unfold chat, w1.
      now rewrite heap_set_heap_same. }
    rewrite Hh. simpl. now rewrite Hc, Hsh, Hcl. }
  eexists. split.
  { unfold leave, assign_chat.
    erewrite bind_Ok by reflexivity. fold w1.
    erewrite bind_Ok by (apply send_ok; exact Hc1). fold w2.
    unfold kill. fold (guarded_teardown c).
    erewrite bind_Ok by (erewrite bind_Ok by exact Ht; reflexivity).
    reflexivity. }
  simpl. rewrite !Nat.eqb_refl.
  split; [reflexivity|]. split; [reflexivity|]. split; [reflexivity|].
  split.
  { unfold swept, chat, w1. simpl. now rewrite Nat.eqb_refl. }
  intros c' Hne. apply Nat.eqb_neq in Hne. now rewrite Hne.
Qed.

Lemma leave_all_healthy (l : list nat) :
  forall w,
    NoDup l ->
    (forall c, In c l -> healthy w c) ->
    exists w',
      leave_all l w = Ok tt w' /\
      clients w' = clients w /\
      is_running w' = is_running w /\
      listener w' = listener w /\
      forall c, heap w' c =
                if existsb (Nat.eqb c) l then swept (heap w c) else heap w c.
Proof.
  induction l as [|c l IH]; intros w Hnd Hh.
  - exists w. repeat split; reflexivity.
  - inversion Hnd as [|? ? Hnotin Hnd']; subst.
    destruct (leave_undeleted_healthy c w (Hh c (or_introl eq_refl)))
      as (w1 & E1 & K1 & R1 & L1 & Hc1 & Ho1).
    destruct (IH w1 Hnd') as (w' & E & K & R & L & Hheap).
    { intros c' Hin. apply (healthy_same w).
      - apply Ho1. intros ->. contradiction.
      - apply Hh. now right. }
    exists w'. split.
    { simpl. now erewrite bind_Ok by exact E1. }
    split; [congruence|]. split; [congruence|]. split; [congruence|].
    intros c'. rewrite Hheap. simpl.
    destruct (Nat.eqb_spec c' c) as [->|Hne]; simpl.
    + apply existsb_eqb_not_In in Hnotin. now rewrite Hnotin.
    + now rewrite (Ho1 c' Hne).
Qed.

(** [close_connections] on Registry sessions whose sockets work: each gets
    the closing notice and the farewell and is closed; the Registry stays. *)
Lemma close_connections_healthy (w : world) :
  NoDup (keys w) ->
  (forall c, In c (keys w) -> healthy w c) ->
  exists w',
    close_connections w = Ok tt w' /\
    clients w' = clients w /\
    is_running w' = is_running w /\
    listener w' = listener w /\
    forall c, In c (keys w) ->
              heap w' c
              = swept (received (frame (chat w c) closing_notice) (heap w c)).
Proof.
  intros Hnd Hh.
  destruct (broadcast_to_ok closing_notice None (keys w) w Hnd)
    as (w1 & Eb & Sb & Hb).
  { intros c Hr. apply recipient_iff in Hr as [Hin _].
    apply healthy_can_send. now apply Hh. }
  assert (Hk1 : keys w1 = keys w) by apply (same_server_keys _ _ Sb).
  assert (Hin1 : forall c, In c (keys w) ->
                 heap w1 c
                 = received (frame (chat w c) closing_notice) (heap w c)).
  { intros c Hin. rewrite Hb.
    assert (Hr : recipient (keys w) None c = true).
    { apply recipient_iff. split; [exact Hin | discriminate]. }
    now rewrite Hr. }
  destruct (leave_all_healthy (keys w1) w1) as (w' & E & K & R & L & Hheap).
  { now rewrite Hk1. }
  { intros c Hin. rewrite Hk1 in Hin. specialize (Hh c Hin).
    unfold healthy, closed in *. now rewrite (Hin1 c Hin). }
  exists w'. split.
  { unfold close_connections. fold (broadcast closing_notice None w) in Eb.
    now erewrite bind_Ok by exact Eb. }
  destruct Sb as (B1 & B2 & B3 & _).
  split; [congruence|]. split; [congruence|]. split; [congruence|].
  intros c Hin. rewrite Hheap, Hk1.
  apply existsb_eqb_In in Hin as Hex. rewrite Hex. now rewrite Hin1.
Qed.

Lemma accept_connections_eq (evs : list accept_event) (w : world) :
  accept_connections evs w =
  if is_running w then
    match evs with
    | [] => w
    | AcceptTimeout :: evs' => accept_connections evs' w
    | AcceptConn c s a :: evs' =>
        accept_connections evs'
          (spawn c (set_heap c (new_client s a)
                             (world_of (print (LogJoined a) w))))
    end
  else close w.
Proof. destruct evs; reflexivity. Qed.

(** With the flag off the accepting thread accepts nothing more: it leaves
    its loop, closes the listening socket and logs it. *)
Lemma accept_connections_stopped (evs : list accept_event) (w : world) :
  is_running w = false -> accept_connections evs w = close w.
Proof. intros H. now rewrite accept_connections_eq, H. Qed.

(** C9. On shutdown every session that is in the Registry when the interrupt
    arrives is sent the closing notice ["Closing server..."] and then made to
    leave without being deleted: it is sent the farewell, its chat flag is
    cleared and its socket is shut down and closed; the Registry keeps its
    entries and the running flag is off. [start] itself leaves the listening
    socket as it is: the accepting thread, whatever it has pending when it
    next looks at the flag, accepts nothing more and releases the listening
    socket, touching no session. The sessions' sockets are assumed to
    work. *)
Theorem shutdown_sweeps_every_session :
  forall (others : world -> world) (evs : list accept_event) (w : world),
    NoDup (keys (at_interrupt others w)) ->
    (forall c, In c (keys (at_interrupt others w)) ->
               healthy (at_interrupt others w) c) ->
    exists w',
      start others w = Ok tt w' /\
      clients w' = clients (at_interrupt others w) /\
      is_running w' = false /\
      listener w' = listener (at_interrupt others w) /\
      (forall c, In c (keys (at_interrupt others w)) ->
                 sent w' c
                 = sent (at_interrupt others w) c
                   ++ [frame (chat (at_interrupt others w) c)
                             (str "Closing server...");
                       [ESC] ++ str "[1K" ++ [CR]
                       ++ str "You will be disconnected. Bye!"] /\
                 contains (str "Closing server...")
                          (frame (chat (at_interrupt others w) c)
                                 (str "Closing server...")) = true /\
                 closed w' c = true /\
                 chat w' c = false) /\
      listener (accept_connections evs w') = Released /\
      clients (accept_connections evs w') = clients w' /\
      heap (accept_connections evs w') = heap w' /\
      threads (accept_connections evs w') = threads w' /\
      stdout (accept_connections evs w') = stdout w' ++ [LogClosedServer].
Proof.
  intros others evs w Hnd Hh. unfold start. fold (at_interrupt others w).
  set (w0 := at_interrupt others w) in *.
  set (w6 := set_running false (world_of (print LogShuttingDown w0))).
  destruct (close_connections_healthy w6) as (w' & E & K & R & L & Hheap).
  { exact Hnd. }
  { intros c Hin. apply (healthy_same w0); [reflexivity | now apply Hh]. }
  exists w'. split; [exact E|].
  split; [exact K|]. split; [exact R|]. split; [exact L|].
  split.
  { intros c Hin. unfold sent, closed, chat. rewrite (Hheap c Hin). simpl.
    split; [now rewrite <- app_assoc|].
    split; [apply frame_contains | auto]. }
  assert (Hstop : accept_connections evs w' = close w').
  { apply accept_connections_stopped. exact R. }
  rewrite Hstop. repeat split.
Qed.

End Shutdown.

(** ** The room at work *)

Section Runs.

Import Room.

Ltac in_room H :=
  vm_compute in H;
  repeat (destruct H as [H|H]; [subst|]); try contradiction.

Lemma three_keys : keys three = [alice; bob; carol].
Proof. vm_compute. reflexivity. Qed.

Lemma three_NoDup : NoDup (keys three).
Proof.
  rewrite three_keys. unfold alice, bob, carol.
  repeat constructor; simpl; intuition discriminate.
Defined.

Lemma three_can_send (c : nat) : In c (keys three) -> can_send three c.
Proof. intros H. in_room H; split; vm_compute; reflexivity. Defined.

Lemma three_healthy (c : nat) : In c (keys three) -> healthy three c.
Proof.
  intros H.
  in_room H; (split; [|split; [|split]]); vm_compute; reflexivity.
Defined.

Lemma three_teardown_quiet (c : nat) :
  In c (keys three) -> teardown_quiet three c.
Proof.
  intros H.
  in_room H; (split; [vm_compute; reflexivity|]); split; left; vm_compute;
    reflexivity.
Defined.

(** C2 fails on the code. Carol joins a room of two and her next read raises
    a time-out, a socket error [handle] does not recover from: [handle]
    re-raises it and Carol is still in the Registry. *)
Lemma unexpected_error_keeps_entry :
  registered carol two = false /\
  error_of (handle carol [line "Carol"; RecvErr ETIMEDOUT] two)
  = Some (SocketError ETIMEDOUT) /\
  registered carol
    (after (handle carol [line "Carol"; RecvErr ETIMEDOUT] two)) = true.
Proof. split; [|split]; vm_compute; reflexivity. Qed.

(** A connection reset is not among the errors [handle] recovers from: it is
    re-raised and the session stays in the Registry. *)
Lemma connection_reset_is_reraised :
  error_of (handle_chatting alice [RecvErr ECONNRESET] three)
  = Some (SocketError ECONNRESET) /\
  registered alice (after (handle_chatting alice [RecvErr ECONNRESET] three))
  = true.
Proof. split; vm_compute; reflexivity. Qed.

(** C8 fails on the code. A peer's close that Alice's read meets as a
    connection reset is not recovered from: [handle] re-raises it and Alice
    stays in the Registry, chatting. And in the recovered case, a clean close
    where the prompt refresh raises errno 32 and [shutdown] then raises errno
    107, the routine returns with Alice deregistered but her socket not
    closed. *)
Lemma peer_close_not_always_recovered :
  error_of (handle_chatting alice [RecvErr ECONNRESET] three)
  = Some (SocketError ECONNRESET) /\
  registered alice (after (handle_chatting alice [RecvErr ECONNRESET] three))
  = true /\
  chat (after (handle_chatting alice [RecvErr ECONNRESET] three)) alice
  = true /\
  error_of (handle_chatting alice [RecvData []]
              (break_shutdown alice ENOTCONN (break_send alice EPIPE three)))
  = None /\
  registered alice
    (after (handle_chatting alice [RecvData []]
              (break_shutdown alice ENOTCONN (break_send alice EPIPE three))))
  = false /\
  closed
    (after (handle_chatting alice [RecvData []]
              (break_shutdown alice ENOTCONN (break_send alice EPIPE three))))
    alice
  = false.
Proof.
  split; [|split; [|split; [|split; [|split]]]]; vm_compute; reflexivity.
Qed.

(** C4 fails on the code. Alice sends three spaces: Bob is sent a chat line
    with an empty message. *)
Lemma whitespace_line_is_broadcast :
  all_space (str "   ") = true /\
  sent (after (handler_loop alice [RecvData (str "   ")] three)) bob
  = sent three bob
    ++ [frame true ([ESC] ++ str "[36mAlice" ++ [ESC] ++ str "[0m: ")].
Proof. split; vm_compute; reflexivity. Qed.

(** C5 fails on the code. Alice sends ["  hello  "]: what Bob is sent is the
    framed line with the name in colour codes, and nothing Bob has been sent
    contains ["Alice: hello"]. The message has lost its leading spaces too,
    which trimming at the end alone would keep. *)
Lemma alice_hello_is_coloured :
  sent (after (handler_loop alice [RecvData (str "  hello  ")] three)) bob
  = sent three bob
    ++ [clear ++ ([ESC] ++ str "[36mAlice" ++ [ESC] ++ str "[0m: hello")
        ++ [LF] ++ prompt] /\
  forallb (fun raw => negb (contains (str "Alice: hello") raw))
          (sent (after (handler_loop alice [RecvData (str "  hello  ")]
                                     three)) bob)
  = true /\
  rstrip (str "  hello  ") = str "  hello" /\
  strip (str "  hello  ") = str "hello".
Proof. split; [|split; [|split]]; vm_compute; reflexivity. Qed.

(** C6 fails on the code. Session 4 is not in the Registry: deleting it
    raises [KeyError], as when its peer is gone before it has given a name. *)
Lemma deregister_absent_is_keyerror :
  registered 4 three = false /\
  deregister 4 three = Err KeyError three /\
  raised (kill 4 true three) = Some KeyError /\
  error_of (handle 4 [RecvErr EPIPE] three) = Some KeyError.
Proof. split; [|split; [|split]]; vm_compute; reflexivity. Qed.

(** C7 fails on the code. Sends to Bob raise a broken pipe: a broadcast to
    all reaches Alice, raises at Bob and never writes to Carol, whose socket
    works. *)
Lemma failed_send_stops_broadcast :
  keys (break_send bob EPIPE three) = [alice; bob; carol] /\
  can_send (break_send bob EPIPE three) carol /\
  raised (broadcast (str "hi") None (break_send bob EPIPE three))
  = Some (SocketError EPIPE) /\
  sent (world_of (broadcast (str "hi") None (break_send bob EPIPE three)))
       alice
  = sent three alice ++ [frame true (str "hi")] /\
  sent (world_of (broadcast (str "hi") None (break_send bob EPIPE three)))
       carol
  = sent three carol.
Proof.
  split; [|split; [split|split; [|split]]]; vm_compute; reflexivity.
Qed.

Lemma broadcast_reaches_all_but_sender_witness :
  NoDup (keys three) /\
  (forall c, In c (keys three) -> c <> alice -> can_send three c) /\
  exists w',
    broadcast (str "hi") (Some alice) three = Ok tt w' /\
    clients w' = clients three /\
    (forall c, In c (keys three) -> c <> alice ->
               sent w' c
               = sent three c
                 ++ [if chat three c
                     then [ESC] ++ str "[1K" ++ [CR] ++ str "hi"
                          ++ match str "hi" with [] => [] | _ => [LF] end
                          ++ [ESC] ++ str "[33m>" ++ [ESC] ++ str "[0m "
                     else [ESC] ++ str "[1K" ++ [CR] ++ str "hi"] /\
               sent w' c = sent three c ++ [frame (chat three c) (str "hi")]
               /\
               contains (str "hi") (frame (chat three c) (str "hi")) = true)
    /\
    sent w' alice = sent three alice /\
    (forall c, ~ In c (keys three) -> sent w' c = sent three c).
Proof.
  split; [exact three_NoDup|].
  split; [intros c H _; exact (three_can_send c H)|].
  apply (broadcast_reaches_all_but_sender three (str "hi") alice).
  - exact three_NoDup.
  - intros c H _. exact (three_can_send c H).
Defined.

Lemma broadcast_stops_at_first_failure_witness :
  keys (break_send bob EPIPE three) = [alice] ++ bob :: [carol] /\
  NoDup (keys (break_send bob EPIPE three)) /\
  None <> Some bob /\
  (forall c, In c [alice] -> None <> Some c ->
             can_send (break_send bob EPIPE three) c) /\
  send_fails (break_send bob EPIPE three) bob EPIPE /\
  exists w',
    broadcast (str "hi") None (break_send bob EPIPE three)
    = Err (SocketError EPIPE) w' /\
    (forall c, In c [alice] -> None <> Some c ->
               sent w' c
               = sent (break_send bob EPIPE three) c
                 ++ [frame (chat (break_send bob EPIPE three) c) (str "hi")])
    /\
    (forall c, In c (bob :: [carol]) ->
               sent w' c = sent (break_send bob EPIPE three) c).
Proof.
  assert (Hk : keys (break_send bob EPIPE three) = [alice] ++ bob :: [carol])
    by (vm_compute; reflexivity).
  assert (Hn : NoDup (keys (break_send bob EPIPE three))).
  { rewrite Hk. unfold alice, bob, carol.
    repeat constructor; simpl; intuition discriminate. }
  assert (Hs : @None nat <> Some bob) by discriminate.
  assert (Hc : forall c, In c [alice] -> None <> Some c ->
                         can_send (break_send bob EPIPE three) c).
  { intros c [<-|[]] _. split; vm_compute; reflexivity. }
  assert (Hf : send_fails (break_send bob EPIPE three) bob EPIPE).
  { right. split; vm_compute; reflexivity. }
  split; [exact Hk|]. split; [exact Hn|].
  split; [exact Hs|]. split; [exact Hc|]. split; [exact Hf|].
  exact (broadcast_stops_at_first_failure
           (break_send bob EPIPE three) (str "hi") None [alice] bob [carol]
           EPIPE Hk Hn Hs Hc Hf).
Defined.

Lemma deregister_absent_raises_witness :
  NoDup (keys three) /\
  ~ In dave (keys three) /\
  teardown_quiet three dave /\
  In bob (keys three) /\
  deregister dave three = Err KeyError three /\
  (exists w', kill dave true three = Err KeyError w' /\
              clients w' = clients three) /\
  (exists w', kill dave false three = Ok tt w' /\
              clients w' = clients three) /\
  (exists w', deregister bob three = Ok tt w' /\
              keys w' = remove Nat.eq_dec bob (keys three) /\
              heap w' = heap three).
Proof.
  assert (Hn : ~ In dave (keys three)).
  { intros H. in_room H; discriminate. }
  assert (Hq : teardown_quiet three dave).
  { split; [vm_compute; reflexivity|]. split; left; vm_compute; reflexivity. }
  assert (Hb : In bob (keys three)) by (vm_compute; auto).
  split; [exact three_NoDup|]. split; [exact Hn|]. split; [exact Hq|].
  split; [exact Hb|].
  split;
    [exact (proj1 (proj2 (deregister_absent_raises dave three three_NoDup))
              Hn)|].
  split;
    [exact (proj1 (proj2 (proj2 (deregister_absent_raises dave three
                                   three_NoDup))) Hq Hn)|].
  split;
    [exact (proj2 (proj2 (proj2 (deregister_absent_raises dave three
                                   three_NoDup))) Hq)|].
  exact (proj1 (deregister_absent_raises bob three three_NoDup) Hb).
Defined.

Lemma three_alice_name : c_name (heap three alice) = Some (str "Alice").
Proof. vm_compute. reflexivity. Defined.

Lemma three_alice_chat : chat three alice = true.
Proof. vm_compute. reflexivity. Defined.

Lemma three_others_can_send (c : nat) :
  In c (keys three) -> c <> alice -> can_send three c.
Proof. intros H _. exact (three_can_send c H). Defined.

Lemma registry_follows_join_and_leave_witness :
  NoDup (keys three) /\
  ((forall ev e w', join alice ev three = Err e w' ->
                    clients w' = clients three) /\
   (forall ev w',
       join alice ev three = Ok tt w' ->
       In alice (keys w') /\ NoDup (keys w') /\
       (~ In alice (keys three) -> keys w' = keys three ++ [alice])) /\
   (forall s w', handler_loop alice s three = Waiting w' ->
                 clients w' = clients three) /\
   (forall s rest w',
       handler_loop alice s three = Returned rest w' ->
       ~ In alice (keys w')) /\
   (forall gone w',
       leave alice true gone three = Ok tt w' ->
       keys w' = remove Nat.eq_dec alice (keys three)) /\
   (forall gone,
       clients (world_of (leave alice false gone three)) = clients three) /\
   (forall s n rest w',
       handler_loop alice s three = Raised (SocketError n) rest w' ->
       n <> EPIPE -> n <> EBADF ->
       handle_chatting alice s three = Raised (SocketError n) rest w') /\
   (forall n rest,
       n <> EPIPE -> n <> EBADF ->
       handle_chatting alice (RecvErr n :: rest) three
       = Raised (SocketError n) rest three)).
Proof.
  split; [exact three_NoDup|].
  exact (registry_follows_join_and_leave alice three three_NoDup).
Defined.

Lemma quit_line_leaves_witness :
  NoDup (keys three) /\
  In alice (keys three) /\
  chat three alice = true /\
  c_name (heap three alice) = Some (str "Alice") /\
  contains quit_token (str "bye :quit") = true /\
  can_send three alice /\
  teardown_quiet three alice /\
  (forall c', In c' (keys three) -> c' <> alice -> can_send three c') /\
  exists w',
    handler_loop alice (RecvData (str "bye :quit") :: [line "x"]) three
    = Returned [line "x"] w' /\
    handle_chatting alice (RecvData (str "bye :quit") :: [line "x"]) three
    = Returned [line "x"] w' /\
    sent w' alice
    = sent three alice
      ++ [[ESC] ++ str "[1K" ++ [CR] ++ [ESC] ++ str "[33m>" ++ [ESC]
          ++ str "[0m ";
          [ESC] ++ str "[1K" ++ [CR]
          ++ str "You will be disconnected. Bye!"] /\
    keys w' = remove Nat.eq_dec alice (keys three) /\
    registered alice w' = false /\
    chat w' alice = false /\
    (sk_shutdown_err (c_socket (heap three alice)) = None ->
     closed w' alice = true) /\
    (forall c', In c' (keys three) -> c' <> alice ->
       sent w' c'
       = sent three c' ++ [frame (chat three c') (left_notice (str "Alice"))]
       /\
       contains (str "Alice" ++ str " has left the chat")
                (frame (chat three c') (left_notice (str "Alice"))) = true)
    /\
    contains (str "Alice" ++ str " has left the chat")
             (left_notice (str "Alice")) = true.
Proof.
  assert (Hin : In alice (keys three)) by (vm_compute; auto).
  assert (Hq : contains quit_token (str "bye :quit") = true)
    by (vm_compute; reflexivity).
  split; [exact three_NoDup|]. split; [exact Hin|].
  split; [exact three_alice_chat|]. split; [exact three_alice_name|].
  split; [exact Hq|]. split; [exact (three_can_send alice Hin)|].
  split; [exact (three_teardown_quiet alice Hin)|].
  split; [exact three_others_can_send|].
  exact (quit_line_leaves alice (str "Alice") (str "bye :quit") [line "x"]
           three three_NoDup Hin three_alice_chat three_alice_name Hq
           (three_can_send alice Hin) (three_teardown_quiet alice Hin)
           three_others_can_send).
Defined.

Lemma blank_line_ignored_witness :
  chat three alice = true /\
  can_send three alice /\
  (@nil N = [] \/ @nil N = [LF]) /\
  handler_loop alice (RecvData [] :: []) three
  = handler_loop alice [] (refreshed alice three) /\
  clients (refreshed alice three) = clients three /\
  chat (refreshed alice three) alice = true /\
  (forall c', c' <> alice -> heap (refreshed alice three) c' = heap three c')
  /\
  sent (refreshed alice three) alice = sent three alice ++ [clear ++ prompt].
Proof.
  assert (Hin : In alice (keys three)) by (vm_compute; auto).
  assert (Hm : @nil N = [] \/ @nil N = [LF]) by (left; exact eq_refl).
  split; [exact three_alice_chat|].
  split; [exact (three_can_send alice Hin)|]. split; [exact Hm|].
  exact (blank_line_ignored alice [] [] three three_alice_chat
           (three_can_send alice Hin) Hm).
Defined.

Lemma chat_line_broadcast_witness :
  NoDup (keys three) /\
  chat three alice = true /\
  c_name (heap three alice) = Some (str "Alice") /\
  can_send three alice /\
  contains quit_token (str "  hello  ") = false /\
  is_blank (str "  hello  ") = false /\
  (forall c', In c' (keys three) -> c' <> alice -> can_send three c') /\
  exists w',
    handler_loop alice (RecvData (str "  hello  ") :: []) three
    = handler_loop alice [] w' /\
    (forall c', In c' (keys three) -> c' <> alice ->
       sent w' c'
       = sent three c'
         ++ [frame (chat three c')
                   (chat_line (str "Alice") (str "  hello  "))]) /\
    sent w' alice = sent three alice ++ [clear ++ prompt] /\
    clients w' = clients three /\
    chat_line (str "Alice") (str "  hello  ") =
      [ESC] ++ str "[36m" ++ str "Alice" ++ [ESC] ++ str "[0m: "
      ++ strip (str "  hello  ") /\
    (exists pre post,
        str "  hello  " = pre ++ strip (str "  hello  ") ++ post /\
        all_space pre = true /\ all_space post = true) /\
    (forall x t, strip (str "  hello  ") = x :: t -> is_space x = false) /\
    (forall t x, strip (str "  hello  ") = t ++ [x] -> is_space x = false).
Proof.
  assert (Hin : In alice (keys three)) by (vm_compute; auto).
  assert (Hq : contains quit_token (str "  hello  ") = false)
    by (vm_compute; reflexivity).
  assert (Hb : is_blank (str "  hello  ") = false)
    by (vm_compute; reflexivity).
  split; [exact three_NoDup|]. split; [exact three_alice_chat|].
  split; [exact three_alice_name|].
  split; [exact (three_can_send alice Hin)|].
  split; [exact Hq|]. split; [exact Hb|].
  split; [exact three_others_can_send|].
  exact (chat_line_broadcast alice (str "Alice") (str "  hello  ") [] three
           three_NoDup three_alice_chat three_alice_name
           (three_can_send alice Hin) Hq Hb three_others_can_send).
Defined.

Lemma peer_close_recovered_witness :
  NoDup (keys three) /\
  In alice (keys three) /\
  chat three alice = true /\
  c_name (heap three alice) = Some (str "Alice") /\
  observes_epipe three alice (RecvErr EPIPE) /\
  teardown_quiet three alice /\
  (forall c', In c' (keys three) -> c' <> alice -> can_send three c') /\
  (exists w',
      handler_loop alice (RecvErr EPIPE :: []) three
      = Raised (SocketError EPIPE) [] three /\
      handle_chatting alice (RecvErr EPIPE :: []) three = Returned [] w' /\
      chat w' alice = false /\
      registered alice w' = false /\
      keys w' = remove Nat.eq_dec alice (keys three) /\
      sent w' alice = sent three alice /\
      (sk_shutdown_err (c_socket (heap three alice)) = None ->
       closed w' alice = true) /\
      (forall c', In c' (keys three) -> c' <> alice ->
         sent w' c'
         = sent three c'
           ++ [frame (chat three c') (left_notice (str "Alice"))] /\
         contains (str "Alice" ++ str " has left the chat")
                  (frame (chat three c') (left_notice (str "Alice"))) = true))
  /\
  (forall n rest',
      n <> EPIPE -> n <> EBADF ->
      handle_chatting alice (RecvErr n :: rest') three
      = Raised (SocketError n) rest' three).
Proof.
  assert (Hin : In alice (keys three)) by (vm_compute; auto).
  assert (Ho : observes_epipe three alice (RecvErr EPIPE))
    by (left; exact eq_refl).
  split; [exact three_NoDup|]. split; [exact Hin|].
  split; [exact three_alice_chat|]. split; [exact three_alice_name|].
  split; [exact Ho|]. split; [exact (three_teardown_quiet alice Hin)|].
  split; [exact three_others_can_send|].
  exact (peer_close_recovered alice (str "Alice") (RecvErr EPIPE) [] three
           three_NoDup Hin three_alice_chat three_alice_name Ho
           (three_teardown_quiet alice Hin) three_others_can_send).
Defined.

Lemma shutdown_sweeps_every_session_witness :
  NoDup (keys (at_interrupt (accept_connections [AcceptTimeout]) three)) /\
  (forall c,
      In c (keys (at_interrupt (accept_connections [AcceptTimeout]) three)) ->
      healthy (at_interrupt (accept_connections [AcceptTimeout]) three) c) /\
  exists w',
    start (accept_connections [AcceptTimeout]) three = Ok tt w' /\
    clients w'
    = clients (at_interrupt (accept_connections [AcceptTimeout]) three) /\
    is_running w' = false /\
    listener w'
    = listener (at_interrupt (accept_connections [AcceptTimeout]) three) /\
    (forall c,
        In c (keys (at_interrupt (accept_connections [AcceptTimeout]) three))
        ->
        sent w' c
        = sent (at_interrupt (accept_connections [AcceptTimeout]) three) c
          ++ [frame (chat (at_interrupt (accept_connections [AcceptTimeout])
                                        three) c)
                    (str "Closing server...");
              [ESC] ++ str "[1K" ++ [CR]
              ++ str "You will be disconnected. Bye!"] /\
        contains (str "Closing server...")
                 (frame (chat (at_interrupt
                                 (accept_connections [AcceptTimeout]) three)
                              c)
                        (str "Closing server...")) = true /\
        closed w' c = true /\
        chat w' c = false) /\
    listener (accept_connections [AcceptTimeout] w') = Released /\
    clients (accept_connections [AcceptTimeout] w') = clients w' /\
    heap (accept_connections [AcceptTimeout] w') = heap w' /\
    threads (accept_connections [AcceptTimeout] w') = threads w' /\
    stdout (accept_connections [AcceptTimeout] w')
    = stdout w' ++ [LogClosedServer].
Proof.
  assert (Hk : keys (at_interrupt (accept_connections [AcceptTimeout]) three)
               = [alice; bob; carol]) by (vm_compute; reflexivity).
  assert (Hn : NoDup (keys (at_interrupt (accept_connections [AcceptTimeout])
                                         three))).
  { rewrite Hk. unfold alice, bob, carol.
    repeat constructor; simpl; intuition discriminate. }
  assert (Hh : forall c,
             In c (keys (at_interrupt (accept_connections [AcceptTimeout])
                                      three)) ->
             healthy (at_interrupt (accept_connections [AcceptTimeout]) three)
                     c).
  { intros c H. rewrite Hk in H. simpl in H.
    destruct H as [H|[H|[H|[]]]]; subst;
      (split; [|split; [|split]]); vm_compute; reflexivity. }
  split; [exact Hn|]. split; [exact Hh|].
  exact (shutdown_sweeps_every_session (accept_connections [AcceptTimeout])
           [AcceptTimeout] three Hn Hh).
Defined.

Lemma recv_refreshes_prompt_witness :
  chat three alice = true /\
  can_send three alice /\
  recv alice (RecvData (str "hi")) three
  = Ok (str "hi") (refreshed alice three) /\
  sent (refreshed alice three) alice = sent three alice ++ [clear ++ prompt]
  /\
  clear ++ prompt =
    [ESC] ++ str "[1K" ++ [CR] ++ [ESC] ++ str "[33m>" ++ [ESC] ++ str "[0m "
  /\
  existsb (N.eqb LF) (clear ++ prompt) = false /\
  only_changes alice three (refreshed alice three) /\
  chat (refreshed alice three) alice = true /\
  handler_loop alice (RecvData (str "hi") :: []) three
  = dispatch alice (str "hi") [] (refreshed alice three).
Proof.
  assert (Hin : In alice (keys three)) by (vm_compute; auto).
  split; [exact three_alice_chat|].
  split; [exact (three_can_send alice Hin)|].
  exact (recv_refreshes_prompt alice (str "hi") [] three three_alice_chat
           (three_can_send alice Hin)).
Defined.

End Runs.

(** * More of the code *)

(** ** Lines *)

Section Lines.

Lemma text_eqb_eq (a b : text) : Text.eqb a b = true <-> a = b.
Proof.
  unfold Text.eqb. destruct (list_eq_dec N.eq_dec a b); split;
    intros H; try reflexivity; try assumption; try discriminate.
  contradiction.
Qed.

Lemma is_blank_iff (m : text) : is_blank m = true <-> m = [] \/ m = [LF].
Proof. unfold is_blank. now rewrite orb_true_iff, !text_eqb_eq. Qed.

(** X1. The chat loop sorts a line it has received by two tests, in this
    order: it is a quit line, on which the session leaves and the loop ends,
    exactly when [":quit"] occurs in it as a contiguous substring, whatever
    surrounds it; failing that it is dropped, and the next line read, exactly
    when it is the empty string or a single newline; every other line, also
    one of whitespace only, is handed to [msg], and the loop goes on if that
    returns and ends with its error if not. All three start from the state
    the prompt refresh leaves. *)
Theorem dispatch_sorts_lines :
  forall (c : nat) (m : text) (rest : script) (w : world),
    chat w c = true ->
    can_send w c ->
    ((exists pre post, m = pre ++ str ":quit" ++ post) ->
     handler_loop c (RecvData m :: rest) w =
     match leave c true false (refreshed c w) with
     | Ok _ w' => Returned rest w'
     | Err e w' => Raised e rest w'
     end) /\
    (~ (exists pre post, m = pre ++ str ":quit" ++ post) ->
     (m = [] \/ m = [LF]) ->
     handler_loop c (RecvData m :: rest) w
     = handler_loop c rest (refreshed c w)) /\
    (~ (exists pre post, m = pre ++ str ":quit" ++ post) ->
     m <> [] -> m <> [LF] ->
     handler_loop c (RecvData m :: rest) w =
     match msg c m (refreshed c w) with
     | Ok _ w' => handler_loop c rest w'
     | Err e w' => Raised e rest w'
     end).
Proof.
  intros c m rest w Hchat Hcan.
  rewrite handler_loop_step, (recv_chatting c m w Hchat Hcan).
  unfold dispatch.
  destruct (contains quit_token m) eqn:Hq.
  - apply contains_iff in Hq. split; [reflexivity|].
    split; intros Hn; contradiction.
  - assert (Hn : ~ exists pre post, m = pre ++ str ":quit" ++ post).
    { intros H. apply contains_iff in H. fold quit_token in H. congruence. }
    split; [intros H; contradiction|].
    destruct (is_blank m) eqn:Hb.
    + apply is_blank_iff in Hb. split; [reflexivity|].
      intros _ H1 H2. destruct Hb; contradiction.
    + split; [|reflexivity].
      intros _ Hb'. apply is_blank_iff in Hb'. congruence.
Qed.

Lemma lstrip_all_space (s : text) : all_space s = true -> lstrip s = [].
Proof.
  induction s as [|x s IH]; [reflexivity|].
  simpl. intros H. apply andb_prop in H as [Hx Hs]. rewrite Hx. now apply IH.
Qed.

Lemma strip_all_space (s : text) : all_space s = true -> strip s = [].
Proof. intros H. unfold strip. now rewrite lstrip_all_space. Qed.

Lemma lstrip_fixed (s : text) :
  (forall x t, s = x :: t -> is_space x = false) -> lstrip s = s.
Proof.
  destruct s as [|x s]; [reflexivity|].
  intros H. simpl. now rewrite (H x s eq_refl).
Qed.

Lemma rstrip_fixed (s : text) :
  (forall t x, s = t ++ [x] -> is_space x = false) -> rstrip s = s.
Proof.
  intros H. unfold rstrip. rewrite lstrip_fixed.
  - apply rev_involutive.
  - intros x t E. apply (H (rev t) x).
    rewrite <- (rev_involutive s), E. reflexivity.
Qed.

(** Stripping twice is stripping once. *)
Lemma strip_idempotent (m : text) : strip (strip m) = strip m.
Proof.
  destruct (strip_spec m) as (_ & Hhead & Hlast).
  unfold strip at 1. rewrite (lstrip_fixed (strip m) Hhead).
  now apply rstrip_fixed.
Qed.

End Lines.

(** ** Joining *)

Section Joining.

Lemma dict_set_absent (k : nat) (v : text) (d : list (nat * text)) :
  ~ In k (map fst d) -> dict_set k v d = d ++ [(k, v)].
Proof.
  induction d as [|[k' v'] d IH]; simpl; intros Hn; [reflexivity|].
  destruct (Nat.eqb_spec k' k) as [->|Hne].
  - exfalso. apply Hn. now left.
  - rewrite IH; [reflexivity|]. intros Hin. apply Hn. now right.
Qed.

Lemma dict_del_appended (k : nat) (v : text) (d : list (nat * text)) :
  ~ In k (map fst d) -> dict_del k (d ++ [(k, v)]) = Some d.
Proof.
  induction d as [|[k' v'] d IH]; simpl; intros Hn.
  - now rewrite Nat.eqb_refl.
  - destruct (Nat.eqb_spec k' k) as [->|Hne].
    + exfalso. apply Hn. now left.
    + rewrite IH; [reflexivity|]. intros Hin. apply Hn. now right.
Qed.

(** A [join] whose sends all succeed. *)
Lemma join_ok (c : nat) (line : text) (w : world) :
  NoDup (keys w) ->
  ~ In c (keys w) ->
  chat w c = false ->
  can_send w c ->
  (forall c', In c' (keys w) -> can_send w c') ->
  exists w',
    join c (RecvData line) w = Ok tt w' /\
    clients w' = clients w ++ [(c, strip line)] /\
    is_running w' = is_running w /\
    listener w' = listener w /\
    heap w' c =
      received (clear ++ welcome (strip line))
        (set_name (strip line) (received (clear ++ name_prompt) (heap w c)))
    /\
    (forall c', In c' (keys w) ->
       heap w' c' =
       received (frame (chat w c') (joined_notice (strip line))) (heap w c'))
    /\
    (forall c', ~ In c' (keys w) -> c' <> c -> heap w' c' = heap w c').
Proof.
  intros Hnd Hnin Hchat Hcan Hothers.
  set (name := strip line).
  set (w1 := set_heap c (received (frame (chat w c) name_prompt) (heap w c))
                      w).
  assert (E1 : join_prompt c w = Ok tt w1) by now apply send_ok.
  assert (Hh1 : heap w1 c = received (clear ++ name_prompt) (heap w c)).
  { unfold w1. rewrite heap_set_heap_same. now rewrite Hchat. }
  assert (Hc1 : chat w1 c = false).
  { unfold chat in *. rewrite Hh1. exact Hchat. }
  assert (E2 : recv c (RecvData line) w1 = Ok line w1).
  { unfold recv. now rewrite Hc1. }
  set (w2 := set_heap c (set_name name (heap w1 c)) w1).
  assert (Hcan2 : can_send w2 c).
  { unfold can_send, closed, w2 in *. rewrite heap_set_heap_same, Hh1.
    exact Hcan. }
  set (w3 := set_heap c (received (frame (chat w2 c) (welcome name))
                                  (heap w2 c)) w2).
  assert (E3 : send c (welcome name) w2 = Ok tt w3) by now apply send_ok.
  assert (Hh3 : heap w3 c =
                received (clear ++ welcome name)
                  (set_name name (received (clear ++ name_prompt)
                                           (heap w c)))).
  { unfold w3. rewrite heap_set_heap_same. unfold chat, w2.
    rewrite heap_set_heap_same, Hh1. simpl. unfold chat in Hchat.
    now rewrite Hchat. }
  assert (Ho3 : forall c', c' <> c -> heap w3 c' = heap w c').
  { intros c' Hne. unfold w3, w2, w1.
    now rewrite !heap_set_heap_other. }
  assert (Hk3 : keys w3 = keys w) by reflexivity.
  destruct (broadcast_to_ok (joined_notice name) None (keys w3) w3)
    as (w4 & E4 & S4 & Hh4).
  { now rewrite Hk3. }
  { intros c' Hr. apply recipient_iff in Hr as [Hin _]. rewrite Hk3 in Hin.
    apply (can_send_same w); [|now apply Hothers].
    apply Ho3. intros ->. contradiction. }
  exists (set_clients (dict_set c name (clients w4)) w4). split.
  { unfold join. erewrite bind_Ok by exact E1.
    unfold join_named. erewrite bind_Ok by exact E2.
    fold name. unfold assign_name. erewrite bind_Ok by reflexivity.
    fold w2. erewrite bind_Ok by exact E3.
    fold (broadcast (joined_notice name) None w3) in E4.
    erewrite bind_Ok by exact E4. reflexivity. }
  destruct S4 as (K4 & R4 & L4 & _).
  assert (Hnr : recipient (keys w3) None c = false).
  { destruct (recipient (keys w3) None c) eqn:Hr; [|reflexivity].
    apply recipient_iff in Hr as [Hin _]. rewrite Hk3 in Hin.
    contradiction. }
  split.
  { simpl. rewrite K4. apply dict_set_absent. exact Hnin. }
  split; [exact R4|]. split; [exact L4|].
  split.
  { simpl. now rewrite Hh4, Hnr. }
  split.
  - intros c' Hin. simpl. rewrite Hh4.
    assert (Hr : recipient (keys w3) None c' = true).
    { apply recipient_iff. split; [now rewrite Hk3 | discriminate]. }
    assert (Hne : c' <> c) by (intros ->; contradiction).
    rewrite Hr. unfold chat. now rewrite (Ho3 c' Hne).
  - intros c' Hnin' Hne. simpl. rewrite Hh4.
    assert (Hr : recipient (keys w3) None c' = false).
    { destruct (recipient (keys w3) None c') eqn:Hr; [|reflexivity].
      apply recipient_iff in Hr as [Hin _]. rewrite Hk3 in Hin.
      contradiction. }
    rewrite Hr. now apply Ho3.
Qed.

(** X2. A [join] whose sends succeed asks the new client for its name, takes
    the line it reads, stripped at both ends, as the name (a line of
    whitespace only gives the empty name, and no name is refused), welcomes
    the new client alone, announces it to every session already registered
    and then appends it to the Registry; the session is not yet in its chat
    state. *)
Theorem join_registers_stripped_name :
  forall (c : nat) (line : text) (w : world),
    NoDup (keys w) ->
    ~ In c (keys w) ->
    chat w c = false ->
    can_send w c ->
    (forall c', In c' (keys w) -> can_send w c') ->
    exists w',
      join c (RecvData line) w = Ok tt w' /\
      clients w' = clients w ++ [(c, strip line)] /\
      c_name (heap w' c) = Some (strip line) /\
      chat w' c = false /\
      sent w' c
      = sent w c ++ [clear ++ name_prompt; clear ++ welcome (strip line)] /\
      (forall c', In c' (keys w) ->
         sent w' c'
         = sent w c' ++ [frame (chat w c') (joined_notice (strip line))]) /\
      (forall c', ~ In c' (keys w) -> c' <> c -> sent w' c' = sent w c') /\
      (all_space line = true -> strip line = []) /\
      strip (strip line) = strip line.
Proof.
  intros c line w Hnd Hnin Hchat Hcan Hothers.
  destruct (join_ok c line w Hnd Hnin Hchat Hcan Hothers)
    as (w' & E & K & _ & _ & Hc & Ho & Hn).
  exists w'. split; [exact E|]. split; [exact K|].
  unfold chat, sent in *. rewrite Hc. simpl.
  split; [reflexivity|]. split; [exact Hchat|].
  split; [now rewrite <- app_assoc|].
  split; [intros c' Hin; now rewrite (Ho c' Hin)|].
  split; [intros c' H1 H2; now rewrite (Hn c' H1 H2)|].
  split; [apply strip_all_space | apply strip_idempotent].
Qed.

(** X3. The handling routine of a new connection: with nothing to read it
    has sent the name prompt and waits, unregistered; with a name line (and
    sends that succeed) it has joined, is in its chat state and in the
    Registry, has been sent the name prompt, the welcome and a first prompt
    glyph, and waits for the next line. *)
Theorem handle_starts_session :
  forall (c : nat) (line : text) (w : world),
    NoDup (keys w) ->
    ~ In c (keys w) ->
    chat w c = false ->
    can_send w c ->
    (forall c', In c' (keys w) -> can_send w c') ->
    (exists w0,
        handle c [] w = Waiting w0 /\
        clients w0 = clients w /\
        chat w0 c = false /\
        sent w0 c = sent w c ++ [clear ++ name_prompt]) /\
    (exists w',
        handle c [RecvData line] w = Waiting w' /\
        clients w' = clients w ++ [(c, strip line)] /\
        chat w' c = true /\
        c_name (heap w' c) = Some (strip line) /\
        sent w' c
        = sent w c ++ [clear ++ name_prompt; clear ++ welcome (strip line);
                       clear ++ prompt] /\
        (forall c', In c' (keys w) ->
           sent w' c'
           = sent w c' ++ [frame (chat w c') (joined_notice (strip line))])).
Proof.
  intros c line w Hnd Hnin Hchat Hcan Hothers.
  assert (E1 : join_prompt c w
               = Ok tt (set_heap c (received (frame (chat w c) name_prompt)
                                             (heap w c)) w))
    by now apply send_ok.
  split.
  { eexists. split.
    { unfold handle, handler. rewrite E1. reflexivity. }
    split; [reflexivity|].
    unfold chat, sent in *. rewrite heap_set_heap_same. simpl.
    split; [exact Hchat|]. now rewrite Hchat. }
  destruct (join_ok c line w Hnd Hnin Hchat Hcan Hothers)
    as (wj & E & K & _ & _ & Hc & Ho & Hn).
  set (w2 := set_heap c (set_chat true (heap wj c)) wj).
  assert (Hcan2 : can_send w2 c).
  { unfold can_send, closed, w2 in *. rewrite heap_set_heap_same, Hc.
    exact Hcan. }
  eexists. split.
  { unfold handle, handler. rewrite E1.
    unfold join in E. erewrite bind_Ok in E by exact E1.
    erewrite bind_Ok by exact E.
    unfold assign_chat. erewrite bind_Ok by reflexivity. fold w2.
    rewrite (send_ok c [] w2 Hcan2). reflexivity. }
  split; [exact K|].
  unfold chat, sent in *. rewrite heap_set_heap_same.
  unfold w2. rewrite !heap_set_heap_same, Hc. simpl.
  split; [reflexivity|]. split; [reflexivity|].
  split; [now rewrite <- !app_assoc|].
  intros c' Hin. assert (Hne : c' <> c) by (intros ->; contradiction).
  apply Nat.eqb_neq in Hne. rewrite Hne. now rewrite (Ho c' Hin).
Qed.

End Joining.

(** ** Errors while leaving *)

Section LeavingErrors.

Lemma teardown_raises_err (c : nat) (w : world) (n : Z) :
  teardown_raises w c n ->
  exists w',
    teardown c w = Err (SocketError n) w' /\
    only_changes c w w' /\
    (heap w' c = heap w c \/ heap w' c = released (heap w c)) /\
    (sk_shutdown_err (c_socket (heap w c)) = Some n -> heap w' c = heap w c).
Proof.
  unfold teardown_raises, closed, teardown, sock_shutdown, sock_close.
  intros [[Hc ->]|[[Hc Hsh]|(Hc & Hsh & Hcl)]].
  - rewrite Hc. exists w. split; [reflexivity|].
    split; [apply only_changes_refl|]. split; [now left | reflexivity].
  - rewrite Hc, Hsh. exists w. split; [reflexivity|].
    split; [apply only_changes_refl|]. split; [now left | reflexivity].
  - exists (set_heap c (released (heap w c)) w). split.
    { unfold released. rewrite Hc, Hsh. simpl.
      rewrite Hc, Hcl, ?Hsh. reflexivity. }
    split; [apply only_changes_set_heap|].
    split; [right; apply heap_set_heap_same|].
    rewrite Hsh. discriminate.
Qed.

(** X4. [kill] lets every socket error of the teardown other than 32 and 107
    through, one on an already closed socket (errno 9) included: the error
    leaves [kill] before the log line is printed and before the entry is
    deleted, whatever [delete] says. *)
Theorem kill_reraises_other_errors :
  forall (c : nat) (delete : bool) (w : world) (n : Z),
    teardown_raises w c n ->
    n <> 32%Z ->
    n <> 107%Z ->
    exists w',
      kill c delete w = Err (SocketError n) w' /\
      clients w' = clients w /\
      stdout w' = stdout w /\
      sent w' c = sent w c /\
      chat w' c = chat w c /\
      (forall c', c' <> c -> heap w' c' = heap w c').
Proof.
  intros c delete w n Hr H32 H107.
  destruct (teardown_raises_err c w n Hr) as (w' & E & [S O] & Hc & _).
  exists w'. split.
  { unfold kill, try_except, bind. rewrite E. simpl.
    apply Z.eqb_neq in H32, H107. now rewrite H32, H107. }
  destruct S as (S1 & _ & _ & _ & S5).
  split; [exact S1|]. split; [exact S5|].
  unfold sent, chat. destruct Hc as [-> | ->]; auto.
Qed.

(** X5. When the teardown fails with errno 32 or 107, [kill] goes on as if it
    had succeeded: the log line is printed and, with [delete], the entry is
    removed. When it was [shutdown] that failed, [close] has been skipped and
    the socket is still open. *)
Theorem kill_swallows_broken_connection :
  forall (c : nat) (delete : bool) (w : world) (n : Z),
    teardown_raises w c n ->
    n = 32%Z \/ n = 107%Z ->
    NoDup (keys w) ->
    In c (keys w) ->
    exists w',
      kill c delete w = Ok tt w' /\
      stdout w' = stdout w ++ [LogLeft (c_address (heap w c))] /\
      keys w' = (if delete then remove Nat.eq_dec c (keys w) else keys w) /\
      sent w' c = sent w c /\
      (sk_shutdown_err (c_socket (heap w c)) = Some n -> closed w' c = false)
      /\
      (sk_shutdown_err (c_socket (heap w c)) = None -> closed w' c = true).
Proof.
  intros c delete w n Hr Hn Hnd Hin.
  assert (Hopen : closed w c = false).
  { destruct Hr as [[_ ->]|[[H _]|[H _]]]; try exact H.
    unfold EBADF in Hn. destruct Hn; discriminate. }
  destruct (teardown_raises_err c w n Hr) as (w1 & E & [S O] & Hc & Hsh).
  destruct S as (S1 & S2 & S3 & S4 & S5).
  assert (Hsw : swallowed (SocketError n) = true).
  { simpl. destruct Hn as [-> | ->]; reflexivity. }
  set (w2 := world_of (print (LogLeft (c_address (heap w1 c))) w1)).
  assert (Ek : kill c delete w = (if delete then deregister c else ret tt) w2).
  { unfold kill, try_except, bind. rewrite E, Hsw. reflexivity. }
  assert (Haddr : c_address (heap w1 c) = c_address (heap w c)).
  { destruct Hc as [-> | ->]; reflexivity. }
  assert (Hsent : sk_sent (c_socket (heap w1 c)) = sent w c).
  { unfold sent. destruct Hc as [-> | ->]; reflexivity. }
  assert (Hcl1 : sk_shutdown_err (c_socket (heap w c)) = Some n ->
                 sk_closed (c_socket (heap w1 c)) = false).
  { intros H. rewrite (Hsh H). exact Hopen. }
  assert (Hcl2 : sk_shutdown_err (c_socket (heap w c)) = None ->
                 sk_closed (c_socket (heap w1 c)) = true).
  { intros H. destruct Hr as [[Hx _]|[[_ Hx]|(_ & _ & Hx)]].
    - unfold closed in *. congruence.
    - congruence.
    - destruct Hc as [Hc|Hc]; [|now rewrite Hc].
      exfalso. clear - E Hopen H Hx Hc.
      unfold teardown, sock_shutdown, sock_close, closed in *.
      rewrite Hopen, H, Hopen, Hx in E. inversion E as [Hw].
      rewrite <- Hw in Hc. rewrite heap_set_heap_same in Hc.
      apply (f_equal (fun o => sk_closed (c_socket o))) in Hc.
      simpl in Hc. congruence. }
  destruct delete.
  - assert (Hnd2 : NoDup (keys w2)) by (unfold keys; simpl; now rewrite S1).
    assert (Hin2 : In c (keys w2)) by (unfold keys; simpl; now rewrite S1).
    destruct (deregister_present c w2 Hnd2 Hin2)
      as (w' & E' & K & _ & _ & Hh & _).
    exists w'. split; [now rewrite Ek|].
    assert (Hst : stdout w' = stdout w2).
    { unfold deregister in E'. destruct (dict_del c (clients w2));
        inversion E'; reflexivity. }
    split; [rewrite Hst; simpl; now rewrite S5, Haddr|].
    split; [rewrite K; unfold keys; simpl; now rewrite S1|].
    unfold sent, closed. rewrite Hh. simpl. auto.
  - exists w2. split; [exact Ek|].
    split; [simpl; now rewrite S5, Haddr|].
    split; [unfold keys; simpl; now rewrite S1|].
    unfold sent, closed. simpl. auto.
Qed.

(** X6. When the farewell cannot be sent, [leave] stops there: the chat flag
    is already cleared, but the socket is not torn down, nothing is logged
    and the Registry keeps the entry, whatever [delete] says. *)
Theorem leave_stops_at_failed_farewell :
  forall (c : nat) (delete : bool) (w : world) (n : Z),
    send_fails w c n ->
    exists w',
      leave c delete false w = Err (SocketError n) w' /\
      chat w' c = false /\
      clients w' = clients w /\
      stdout w' = stdout w /\
      closed w' c = closed w c /\
      sent w' c = sent w c /\
      (forall c', c' <> c -> heap w' c' = heap w c').
Proof.
  intros c delete w n Hf.
  set (w1 := set_heap c (set_chat false (heap w c)) w).
  assert (Hf1 : send_fails w1 c n).
  { unfold send_fails, closed, w1 in *. now rewrite heap_set_heap_same. }
  exists w1. split.
  { unfold leave, assign_chat. erewrite bind_Ok by reflexivity. fold w1.
    erewrite bind_Err by (apply send_err; exact Hf1). reflexivity. }
  unfold chat, closed, sent, w1. rewrite heap_set_heap_same. simpl.
  repeat (split; [reflexivity|]).
  intros c' Hne. apply Nat.eqb_neq in Hne. now rewrite Hne.
Qed.

(** X7. A peer that is gone before it has given a name is not recovered
    from: the read in [join] raises the broken pipe, [handle] calls
    [leave(gone=True)], whose deletion of an entry that was never made raises
    [KeyError], and that leaves [handle]. The socket has been torn down and
    the Registry is as it was. *)
Theorem early_disconnect_raises_keyerror :
  forall (c : nat) (rest : script) (w : world),
    ~ In c (keys w) ->
    chat w c = false ->
    can_send w c ->
    teardown_quiet w c ->
    exists w',
      handle c (RecvErr EPIPE :: rest) w = Raised KeyError rest w' /\
      clients w' = clients w /\
      chat w' c = false /\
      sent w' c = sent w c ++ [clear ++ name_prompt] /\
      (sk_shutdown_err (c_socket (heap w c)) = None -> closed w' c = true).
Proof.
  intros c rest w Hnin Hchat Hcan Hq.
  set (w1 := set_heap c (received (frame (chat w c) name_prompt) (heap w c))
                      w).
  assert (E1 : join_prompt c w = Ok tt w1) by now apply send_ok.
  set (w2 := set_heap c (set_chat false (heap w1 c)) w1).
  assert (Hh2 : heap w2 c
                = set_chat false (received (clear ++ name_prompt)
                                           (heap w c))).
  { unfold w2, w1. rewrite !heap_set_heap_same. now rewrite Hchat. }
  assert (Hq2 : teardown_quiet w2 c).
  { unfold teardown_quiet, closed in *. rewrite Hh2. exact Hq. }
  destruct (kill_quiet c true w2 Hq2)
    as (w3 & Ek & K3 & _ & _ & O3 & Hc3 & Hs3).
  exists w3. split.
  { unfold handle, handler. rewrite E1. simpl.
    unfold leave, assign_chat. erewrite bind_Ok by reflexivity. fold w2.
    erewrite bind_Ok by reflexivity.
    erewrite bind_Err; [reflexivity|]. rewrite Ek.
    apply deregister_absent. unfold keys. now rewrite K3. }
  split; [exact K3|].
  assert (Hs : sk_shutdown_err (c_socket (heap w2 c))
               = sk_shutdown_err (c_socket (heap w c)))
    by now rewrite Hh2.
  assert (Hclosed : sk_shutdown_err (c_socket (heap w c)) = None ->
                    sk_closed (c_socket (heap w3 c)) = true).
  { intros Hn. rewrite <- Hs in Hn. now rewrite (Hs3 Hn). }
  unfold chat, sent, closed.
  split; [destruct Hc3 as [Hc3|Hc3]; now rewrite Hc3, Hh2|].
  split; [destruct Hc3 as [Hc3|Hc3]; now rewrite Hc3, Hh2|].
  exact Hclosed.
Qed.

End LeavingErrors.

(** ** A broken socket among the recipients *)

Section BrokenRecipient.

Lemma NoDup_app_disjoint (l1 l2 : list nat) (c : nat) :
  NoDup (l1 ++ l2) -> In c l1 -> ~ In c l2.
Proof.
  induction l1 as [|x l1 IH]; simpl; intros Hnd Hin; [contradiction|].
  inversion Hnd as [|? ? Hx Hl]; subst.
  destruct Hin as [->|Hin].
  - intros H. apply Hx. apply in_or_app. now right.
  - now apply IH.
Qed.

(** A broadcast whose send to [b] raises: the recipients before [b] are
    written to, nothing else changes, and the error leaves the broadcast. *)
Lemma broadcast_to_fails (m : text) (sender : option nat)
      (before : list nat) (b : nat) (after : list nat) (n : Z) (w : world) :
  NoDup (before ++ b :: after) ->
  sender <> Some b ->
  (forall c, In c before -> sender <> Some c -> can_send w c) ->
  send_fails w b n ->
  exists w',
    broadcast_to (before ++ b :: after) m sender w = Err (SocketError n) w' /\
    same_server w w' /\
    forall c, heap w' c =
              if recipient before sender c
              then received (frame (chat w c) m) (heap w c)
              else heap w c.
Proof.
  intros Hnd Hsb Hcan Hfail.
  pose proof (NoDup_app_remove_r _ _ Hnd) as Hnd1.
  destruct (broadcast_to_ok m sender before w Hnd1)
    as (w1 & Hb & Hsame & Hheap).
  { intros c Hr. apply recipient_iff in Hr as [Hin Hne]. now apply Hcan. }
  assert (Hb1 : heap w1 b = heap w b).
  { rewrite Hheap.
    destruct (recipient before sender b) eqn:Hr; [|reflexivity].
    apply recipient_iff in Hr as [Hin _]. exfalso.
    apply (NoDup_app_disjoint before (b :: after) b Hnd Hin). now left. }
  exists w1. split; [|split; [exact Hsame | exact Hheap]].
  rewrite broadcast_to_app. unfold bind. rewrite Hb.
  assert (Hs : send b m w1 = Err (SocketError n) w1).
  { apply send_err. unfold send_fails, closed in *. now rewrite Hb1. }
  cbn [broadcast_to]. destruct sender as [s|].
  - destruct (Nat.eqb_spec b s) as [->|Hne]; [congruence|].
    unfold bind. now rewrite Hs.
  - unfold bind. now rewrite Hs.
Qed.

(** X8. One broken socket stops the whole shutdown sweep: when the send of
    the closing notice to a registered session raises, the error leaves
    [close_connections] at once. The sessions before it in the Registry have
    the notice; no session is sent the farewell, no socket is closed, no chat
    flag is cleared and nothing is logged. *)
Theorem sweep_stops_at_broken_socket :
  forall (w : world) (before : list nat) (b : nat) (after : list nat)
         (n : Z),
    keys w = before ++ b :: after ->
    NoDup (keys w) ->
    (forall c, In c before -> can_send w c) ->
    send_fails w b n ->
    exists w',
      close_connections w = Err (SocketError n) w' /\
      clients w' = clients w /\
      stdout w' = stdout w /\
      (forall c, closed w' c = closed w c /\ chat w' c = chat w c) /\
      (forall c, In c before ->
                 sent w' c = sent w c ++ [frame (chat w c) closing_notice]) /\
      (forall c, In c (b :: after) -> sent w' c = sent w c).
Proof.
  intros w before b after n Hk Hnd Hcan Hfail. rewrite Hk in Hnd.
  destruct (broadcast_to_fails closing_notice None before b after n w Hnd)
    as (w' & E & S & Hheap); try assumption; try discriminate.
  { intros c Hin _. now apply Hcan. }
  exists w'. split.
  { unfold close_connections. erewrite bind_Err; [reflexivity|].
    unfold broadcast. now rewrite Hk. }
  destruct S as (S1 & _ & _ & _ & S5).
  split; [exact S1|]. split; [exact S5|].
  split; [|split].
  - intros c. unfold closed, chat. rewrite Hheap.
    now destruct (recipient before None c).
  - intros c Hin. unfold sent. rewrite Hheap.
    assert (Hr : recipient before None c = true).
    { apply recipient_iff. split; [exact Hin | discriminate]. }
    now rewrite Hr.
  - intros c Hin. unfold sent. rewrite Hheap.
    destruct (recipient before None c) eqn:Hr; [|reflexivity].
    apply recipient_iff in Hr as [Hin1 _]. exfalso.
    exact (NoDup_app_disjoint before (b :: after) c Hnd Hin1 Hin).
Qed.

(** The chat broadcast of a line from [c] when the send to [b] raises. *)
Lemma chat_line_hits_broken_socket (c b : nat) (name m : text)
      (rest : script) (w : world) (n : Z) :
  NoDup (keys w) ->
  chat w c = true ->
  c_name (heap w c) = Some name ->
  can_send w c ->
  contains quit_token m = false ->
  is_blank m = false ->
  In b (keys w) ->
  b <> c ->
  send_fails w b n ->
  (forall c', In c' (keys w) -> c' <> c -> c' <> b -> can_send w c') ->
  exists w',
    handler_loop c (RecvData m :: rest) w = Raised (SocketError n) rest w' /\
    same_server w w' /\
    heap w' c = received (clear ++ prompt) (heap w c) /\
    heap w' b = heap w b /\
    (forall c', c' <> c ->
       heap w' c' = heap w c' \/
       heap w' c' = received (frame (chat w c') (chat_line name m))
                             (heap w c')).
Proof.
  intros Hnd Hchat Hname Hcan Hq Hb Hin Hne Hfail Hothers.
  destruct (chat_recv_then_dispatch c m rest w Hchat Hcan)
    as (Hloop & _ & _ & [Hsame Hoth]).
  set (w1 := refreshed c w) in *.
  destruct (in_split b (keys w) Hin) as (before & after & Hk).
  assert (Hnd' : NoDup (before ++ b :: after)) by now rewrite <- Hk.
  destruct (broadcast_to_fails (chat_line name m) (Some c) before b after n
                               w1 Hnd')
    as (w2 & E & S2 & Hheap).
  { congruence. }
  { intros c' Hin' Hs. apply refreshed_can_send. apply Hothers.
    - rewrite Hk. apply in_or_app. now left.
    - congruence.
    - intros ->. apply (NoDup_app_disjoint before (b :: after) b Hnd' Hin').
      now left. }
  { unfold send_fails, closed in *. unfold w1.
    rewrite (proj2 (refreshed_only_changes c w) b Hne). exact Hfail. }
  exists w2. split.
  { rewrite Hloop. unfold dispatch. rewrite Hq, Hb. unfold msg, get_name.
    unfold bind at 1. unfold w1 at 1. rewrite refreshed_heap. simpl.
    rewrite Hname. fold w1. unfold broadcast.
    change (keys w1) with (keys w). now rewrite Hk, E. }
  split; [exact (same_server_trans _ _ _ Hsame S2)|].
  assert (Hrc : recipient before (Some c) c = false).
  { unfold recipient. simpl. rewrite Nat.eqb_refl. apply andb_false_r. }
  assert (Hrb : recipient before (Some c) b = false).
  { destruct (recipient before (Some c) b) eqn:Hr; [|reflexivity].
    apply recipient_iff in Hr as [Hr _]. exfalso.
    apply (NoDup_app_disjoint before (b :: after) b Hnd' Hr). now left. }
  split; [rewrite Hheap, Hrc; apply refreshed_heap|].
  split; [rewrite Hheap, Hrb; now apply Hoth|].
  intros c' Hne'. rewrite Hheap. unfold chat. rewrite (Hoth c' Hne').
  destruct (recipient before (Some c) c'); [now right | now left].
Qed.

(** X9. A chat line can end its sender's routine through somebody else's
    socket: when the send to another registered session raises an error
    other than a broken pipe, the error leaves the chat loop of the sender,
    and [handle] returns quietly on errno 9 and re-raises anything else.
    Either way no [leave] is run: the sender stays in the Registry in its
    chat state with its socket open, and the rest of its input is never
    read. *)
Theorem chat_line_dies_on_other_socket :
  forall (c b : nat) (name m : text) (rest : script) (w : world) (n : Z),
    NoDup (keys w) ->
    chat w c = true ->
    c_name (heap w c) = Some name ->
    can_send w c ->
    contains quit_token m = false ->
    is_blank m = false ->
    In b (keys w) ->
    b <> c ->
    send_fails w b n ->
    n <> EPIPE ->
    (forall c', In c' (keys w) -> c' <> c -> c' <> b -> can_send w c') ->
    exists w',
      handle_chatting c (RecvData m :: rest) w
      = (if (n =? 9)%Z then Returned rest w'
         else Raised (SocketError n) rest w') /\
      clients w' = clients w /\
      chat w' c = true /\
      closed w' c = false /\
      sent w' c = sent w c ++ [clear ++ prompt] /\
      sent w' b = sent w b.
Proof.
  intros c b name m rest w n Hnd Hchat Hname Hcan Hq Hb Hin Hne Hfail Hn
         Hothers.
  destruct (chat_line_hits_broken_socket c b name m rest w n Hnd Hchat Hname
              Hcan Hq Hb Hin Hne Hfail Hothers)
    as (w' & E & S & Hc & Hbh & _).
  exists w'. split.
  { unfold handle_chatting. rewrite E. simpl.
    apply Z.eqb_neq in Hn. now rewrite Hn. }
  split; [apply S|].
  unfold chat, closed, sent in *. rewrite Hc, Hbh. simpl.
  destruct Hcan as [Hcl _]. unfold closed in Hcl. auto.
Qed.

End BrokenRecipient.

(** ** A broken pipe among the recipients *)

Section BrokenPipeRecipient.

(** [leave] with [delete] up to its last statement. *)
Lemma leave_until_notice (c : nat) (name : text) (gone : bool) (w : world) :
  NoDup (keys w) ->
  In c (keys w) ->
  c_name (heap w c) = Some name ->
  (gone = false -> can_send w c) ->
  teardown_quiet w c ->
  exists w4,
    leave c true gone w = broadcast (left_notice name) None w4 /\
    keys w4 = remove Nat.eq_dec c (keys w) /\
    NoDup (keys w4) /\
    chat w4 c = false /\
    sent w4 c = sent w c ++ (if gone then [] else [frame false farewell]) /\
    (sk_shutdown_err (c_socket (heap w c)) = None -> closed w4 c = true) /\
    (forall c', c' <> c -> heap w4 c' = heap w c').
Proof.
  intros Hnd Hin Hname Hsend Hq.
  set (w1 := set_heap c (set_chat false (heap w c)) w).
  assert (H2 : exists w2,
             (if gone then ret tt else send c farewell) w1 = Ok tt w2 /\
             clients w2 = clients w /\
             (forall c', c' <> c -> heap w2 c' = heap w c') /\
             set_socket (c_socket (heap w c)) (heap w2 c)
             = set_chat false (heap w c) /\
             sk_sent (c_socket (heap w2 c)) =
               sent w c ++ (if gone then [] else [frame false farewell]) /\
             sk_closed (c_socket (heap w2 c)) = closed w c /\
             sk_shutdown_err (c_socket (heap w2 c)) =
               sk_shutdown_err (c_socket (heap w c)) /\
             sk_close_err (c_socket (heap w2 c)) =
               sk_close_err (c_socket (heap w c))).
  { destruct gone.
    - exists w1. split; [reflexivity|]. split; [reflexivity|].
      split; [intros c' Hne; now apply heap_set_heap_other|].
      unfold w1. rewrite heap_set_heap_same. simpl.
      unfold sent, closed. rewrite app_nil_r. auto 7.
    - assert (Hc1 : can_send w1 c).
      { specialize (Hsend eq_refl). unfold can_send, closed, w1 in *.
        now rewrite heap_set_heap_same. }
      rewrite (send_ok c farewell w1 Hc1).
      eexists. split; [reflexivity|]. split; [reflexivity|].
      split.
      { intros c' Hne. unfold w1. now rewrite !heap_set_heap_other. }
      rewrite heap_set_heap_same. unfold chat, w1.
      rewrite heap_set_heap_same. simpl. unfold sent, closed. auto 7. }
  destruct H2 as (w2 & E2 & K2 & O2 & Hobj2 & Hsent2 & Hcl2 & Hsh2 & Hce2).
  assert (Hq2 : teardown_quiet w2 c).
  { unfold teardown_quiet, closed in *. now rewrite Hcl2, Hsh2, Hce2. }
  destruct (kill_quiet c true w2 Hq2)
    as (w3 & Ek & Hcl3 & _ & _ & O3 & Hc3 & Hs3).
  assert (Hk3 : keys w3 = keys w) by (unfold keys; now rewrite Hcl3, K2).
  assert (Hnd3 : NoDup (keys w3)) by now rewrite Hk3.
  assert (Hin3 : In c (keys w3)) by now rewrite Hk3.
  destruct (deregister_present c w3 Hnd3 Hin3)
    as (w4 & E4 & Hk4 & _ & Hnd4 & Hheap4 & _).
  rewrite Hk3 in Hk4.
  assert (Hfields : c_chat (heap w2 c) = false /\
                    c_name (heap w2 c) = Some name).
  { apply (f_equal c_chat) in Hobj2 as Hx.
    apply (f_equal c_name) in Hobj2 as Hy. simpl in Hx, Hy.
    split; congruence. }
  destruct Hfields as [Hchat2 Hname2].
  assert (Hobj : c_chat (heap w4 c) = false /\
                 c_name (heap w4 c) = Some name /\
                 sk_sent (c_socket (heap w4 c)) =
                   sent w c ++ (if gone then [] else [frame false farewell])
                 /\
                 (sk_shutdown_err (c_socket (heap w c)) = None ->
                  sk_closed (c_socket (heap w4 c)) = true)).
  { rewrite Hheap4.
    destruct Hc3 as [Hc3|Hc3].
    - repeat split; try (rewrite Hc3; assumption).
      intros Hn. rewrite <- Hsh2 in Hn. now rewrite (Hs3 Hn).
    - rewrite Hc3. simpl. auto. }
  destruct Hobj as (Hchat4 & Hname4 & Hsent4 & Hclosed4).
  exists w4. split.
  { unfold leave, assign_chat.
    erewrite bind_Ok by reflexivity. fold w1.
    erewrite bind_Ok by exact E2.
    erewrite bind_Ok by (rewrite Ek; exact E4).
    unfold get_name. unfold bind at 1. now rewrite Hname4. }
  split; [exact Hk4|]. split; [exact Hnd4|].
  unfold chat, sent, closed.
  split; [exact Hchat4|]. split; [exact Hsent4|]. split; [exact Hclosed4|].
  intros c' Hne. now rewrite Hheap4, O3, O2.
Qed.

Lemma can_send_received (w w' : world) (c : nat) (raw : text) :
  heap w' c = heap w c \/ heap w' c = received raw (heap w c) ->
  can_send w c -> can_send w' c.
Proof. unfold can_send, closed. now intros [-> | ->]. Qed.

(** X10. A broken pipe on somebody else's socket disconnects the sender of a
    chat line: the broadcast raises errno 32 in the sender's routine,
    [handle] takes it for the sender's own peer and runs [leave(gone=True)],
    which tears the sender's socket down and deletes its entry, and whose
    notice to the others raises again at the same broken socket, so that
    [handle] ends with the error. The session with the broken socket is
    still in the Registry. *)
Theorem chat_line_kicks_sender :
  forall (c b : nat) (name m : text) (rest : script) (w : world),
    NoDup (keys w) ->
    In c (keys w) ->
    chat w c = true ->
    c_name (heap w c) = Some name ->
    can_send w c ->
    teardown_quiet w c ->
    contains quit_token m = false ->
    is_blank m = false ->
    In b (keys w) ->
    b <> c ->
    send_fails w b EPIPE ->
    (forall c', In c' (keys w) -> c' <> c -> c' <> b -> can_send w c') ->
    exists w',
      handle_chatting c (RecvData m :: rest) w
      = Raised (SocketError EPIPE) rest w' /\
      keys w' = remove Nat.eq_dec c (keys w) /\
      In b (keys w') /\
      chat w' c = false /\
      sent w' c = sent w c ++ [clear ++ prompt] /\
      sent w' b = sent w b /\
      (sk_shutdown_err (c_socket (heap w c)) = None -> closed w' c = true).
Proof.
  intros c b name m rest w Hnd Hinc Hchat Hname Hcan Hq Hquit Hblank Hin Hne
         Hfail Hothers.
  destruct (chat_line_hits_broken_socket c b name m rest w EPIPE Hnd Hchat
              Hname Hcan Hquit Hblank Hin Hne Hfail Hothers)
    as (w2 & E & S & Hc & Hbh & Hoth).
  assert (Hk2 : keys w2 = keys w) by apply (same_server_keys _ _ S).
  destruct (leave_until_notice c name true w2)
    as (w4 & El & Hk4 & Hnd4 & Hchat4 & Hsent4 & Hclosed4 & Ho4).
  { now rewrite Hk2. }
  { now rewrite Hk2. }
  { now rewrite Hc. }
  { discriminate. }
  { unfold teardown_quiet, closed in *. now rewrite Hc. }
  rewrite Hk2 in Hk4.
  assert (Hinb : In b (keys w4)).
  { rewrite Hk4. now apply in_in_remove. }
  destruct (in_split b (keys w4) Hinb) as (before & after & Hk).
  assert (Hnd' : NoDup (before ++ b :: after)) by now rewrite <- Hk.
  destruct (broadcast_to_fails (left_notice name) None before b after EPIPE
                               w4 Hnd')
    as (w5 & Eb & S5 & Hheap).
  { discriminate. }
  { intros c' Hin' _.
    assert (Hin4 : In c' (keys w4)).
    { rewrite Hk. apply in_or_app. now left. }
    rewrite Hk4 in Hin4. apply in_remove in Hin4 as [Hin4 Hne'].
    assert (Hnb : c' <> b).
    { intros ->. apply (NoDup_app_disjoint before (b :: after) b Hnd' Hin').
      now left. }
    apply (can_send_received w w4 c' (frame (chat w c') (chat_line name m))).
    - rewrite (Ho4 c' Hne'). now apply Hoth.
    - now apply Hothers. }
  { unfold send_fails, closed in *. now rewrite (Ho4 b Hne), Hbh. }
  assert (Hk5 : keys w5 = keys w4) by apply (same_server_keys _ _ S5).
  assert (Hrc : recipient before None c = false).
  { destruct (recipient before None c) eqn:Hr; [|reflexivity].
    apply recipient_iff in Hr as [Hr _].
    assert (Hin4 : In c (keys w4)).
    { rewrite Hk. apply in_or_app. now left. }
    rewrite Hk4 in Hin4. now apply remove_In in Hin4. }
  assert (Hrb : recipient before None b = false).
  { destruct (recipient before None b) eqn:Hr; [|reflexivity].
    apply recipient_iff in Hr as [Hr _]. exfalso.
    apply (NoDup_app_disjoint before (b :: after) b Hnd' Hr). now left. }
  exists w5. split.
  { unfold handle_chatting. rewrite E. simpl. rewrite El.
    unfold broadcast. now rewrite Hk, Eb. }
  rewrite Hk5. split; [exact Hk4|]. split; [exact Hinb|].
  unfold chat, sent, closed in *. rewrite !Hheap, Hrc, Hrb.
  split; [exact Hchat4|].
  split; [now rewrite Hsent4, Hc, app_nil_r|].
  split; [now rewrite (Ho4 b Hne), Hbh|].
  intros Hn. apply Hclosed4. now rewrite Hc.
Qed.

End BrokenPipeRecipient.

(** ** A run of lines *)

Section Lines_in_order.

(** One turn of the chat loop on a line that is not a quit line. *)
Lemma chat_step (c : nat) (name m : text) (rest : script) (w : world) :
  NoDup (keys w) ->
  chat w c = true ->
  c_name (heap w c) = Some name ->
  can_send w c ->
  (forall c', In c' (keys w) -> c' <> c -> can_send w c') ->
  contains quit_token m = false ->
  exists w',
    handler_loop c (RecvData m :: rest) w = handler_loop c rest w' /\
    clients w' = clients w /\
    (forall c', chat w' c' = chat w c') /\
    c_name (heap w' c) = Some name /\
    (forall c', can_send w c' -> can_send w' c') /\
    sent w' c = sent w c ++ [clear ++ prompt] /\
    (forall c', In c' (keys w) -> c' <> c ->
       sent w' c'
       = sent w c' ++ (if is_blank m then []
                       else [frame (chat w c') (chat_line name m)])) /\
    (forall c', ~ In c' (keys w) -> c' <> c -> sent w' c' = sent w c').
Proof.
  intros Hnd Hchat Hname Hcan Hothers Hq.
  destruct (chat_recv_then_dispatch c m rest w Hchat Hcan)
    as (Hloop & Hsent & Hch & [Hsame Hoth]).
  set (w1 := refreshed c w) in *.
  assert (Hchat1 : forall c', chat w1 c' = chat w c').
  { intros c'. destruct (Nat.eq_dec c' c) as [->|Hne].
    - now rewrite Hch.
    - unfold chat. now rewrite (Hoth c' Hne). }
  assert (Hname1 : c_name (heap w1 c) = Some name).
  { unfold w1. now rewrite refreshed_heap. }
  destruct (is_blank m) eqn:Hb.
  - exists w1. split.
    { rewrite Hloop. unfold dispatch. now rewrite Hq, Hb. }
    split; [apply Hsame|]. split; [exact Hchat1|]. split; [exact Hname1|].
    split; [intros c'; apply refreshed_can_send|].
    split; [exact Hsent|]. split.
    + intros c' _ Hne. unfold sent. rewrite (Hoth c' Hne).
      now rewrite app_nil_r.
    + intros c' _ Hne. unfold sent. now rewrite (Hoth c' Hne).
  - destruct (broadcast_to_ok (chat_line name m) (Some c) (keys w1) w1)
      as (w2 & E & S2 & Hheap).
    { exact Hnd. }
    { intros c' Hr. apply recipient_iff in Hr as [Hin Hne].
      apply refreshed_can_send. apply Hothers; [exact Hin | congruence]. }
    assert (Hrc : recipient (keys w1) (Some c) c = false).
    { unfold recipient. simpl. rewrite Nat.eqb_refl. apply andb_false_r. }
    exists w2. split.
    { rewrite Hloop. unfold dispatch. rewrite Hq, Hb. unfold msg, get_name.
      unfold bind at 1. rewrite Hname1. unfold broadcast. now rewrite E. }
    split; [exact (proj1 (same_server_trans _ _ _ Hsame S2))|].
    split.
    { intros c'. rewrite <- Hchat1. unfold chat. rewrite Hheap.
      now destruct (recipient (keys w1) (Some c) c'). }
    split; [now rewrite Hheap, Hrc|].
    split.
    { intros c' Hc'. apply (refreshed_can_send c) in Hc'. fold w1 in Hc'.
      unfold can_send, closed in *. rewrite Hheap.
      now destruct (recipient (keys w1) (Some c) c'). }
    split; [unfold sent in *; now rewrite Hheap, Hrc|].
    split.
    + intros c' Hin Hne. unfold sent. rewrite Hheap.
      assert (Hr : recipient (keys w1) (Some c) c' = true).
      { apply recipient_iff. split; [exact Hin | congruence]. }
      rewrite Hr, Hchat1, (Hoth c' Hne). reflexivity.
    + intros c' Hnin Hne. unfold sent. rewrite Hheap.
      assert (Hr : recipient (keys w1) (Some c) c' = false).
      { destruct (recipient (keys w1) (Some c) c') eqn:Hr; [|reflexivity].
        apply recipient_iff in Hr as [Hin _]. contradiction. }
      now rewrite Hr, (Hoth c' Hne).
Qed.

(** X11. The chat loop keeps the order of what it reads: after a run of
    lines none of which is a quit line, with sends that succeed, the session
    waits for more, every other registered session has been sent the chat
    lines of the lines that are not blank, one frame each and in the order
    in which they were read, and the sender has been sent one prompt refresh
    per line read. The Registry and the chat flags are as before. *)
Theorem chat_lines_arrive_in_order :
  forall (c : nat) (name : text) (lines : list text) (w : world),
    NoDup (keys w) ->
    chat w c = true ->
    c_name (heap w c) = Some name ->
    can_send w c ->
    (forall c', In c' (keys w) -> c' <> c -> can_send w c') ->
    (forall m, In m lines -> contains quit_token m = false) ->
    exists w',
      handler_loop c (map RecvData lines) w = Waiting w' /\
      clients w' = clients w /\
      (forall c', chat w' c' = chat w c') /\
      c_name (heap w' c) = Some name /\
      (forall c', can_send w c' -> can_send w' c') /\
      sent w' c = sent w c ++ repeat (clear ++ prompt) (List.length lines) /\
      (forall c', In c' (keys w) -> c' <> c ->
         sent w' c'
         = sent w c'
           ++ map (fun m => frame (chat w c') (chat_line name m))
                  (spoken lines)) /\
      (forall c', ~ In c' (keys w) -> c' <> c -> sent w' c' = sent w c').
Proof.
  intros c name lines. induction lines as [|m lines IH];
    intros w Hnd Hchat Hname Hcan Hothers Hq.
  - exists w. simpl. rewrite app_nil_r.
    split; [reflexivity|]. split; [reflexivity|]. split; [reflexivity|].
    split; [exact Hname|]. split; [auto|]. split; [reflexivity|].
    split; [intros; now rewrite app_nil_r | reflexivity].
  - destruct (chat_step c name m (map RecvData lines) w Hnd Hchat Hname Hcan
                        Hothers (Hq m (or_introl eq_refl)))
      as (w1 & E1 & K1 & C1 & N1 & S1 & Hs1 & Ho1 & Hn1).
    assert (Hk1 : keys w1 = keys w) by (unfold keys; now rewrite K1).
    destruct (IH w1) as (w' & E & K & C & N & S & Hs & Ho & Hn).
    { now rewrite Hk1. }
    { now rewrite C1. }
    { exact N1. }
    { now apply S1. }
    { intros c' Hin Hne. rewrite Hk1 in Hin. apply S1. now apply Hothers. }
    { intros m' Hin. apply Hq. now right. }
    exists w'. split; [simpl map; now rewrite E1|].
    split; [congruence|].
    split; [intros c'; now rewrite C, C1|].
    split; [exact N|].
    split; [intros c' H; now apply S, S1|].
    split.
    { rewrite Hs, Hs1, <- app_assoc. reflexivity. }
    split.
    + intros c' Hin Hne. rewrite Hk1 in Ho.
      rewrite (Ho c' Hin Hne), (Ho1 c' Hin Hne), C1, <- app_assoc.
      unfold spoken. simpl. now destruct (is_blank m).
    + intros c' Hnin Hne. rewrite Hk1 in Hn.
      now rewrite (Hn c' Hnin Hne), (Hn1 c' Hnin Hne).
Qed.

End Lines_in_order.

(** ** A whole visit *)

Section Visit.

(** What a returning [leave] with [delete] makes of the dict. *)
Lemma leave_clients (c : nat) (gone : bool) (w w' : world) :
  leave c true gone w = Ok tt w' ->
  dict_del c (clients w) = Some (clients w').
Proof.
  unfold leave, kill. fold (guarded_teardown c). unfold bind.
  destruct (assign_chat c false w) as [[] w1|] eqn:E1; [|discriminate].
  pose proof (kept _ w _ (keeps_assign_chat c false) E1) as K1.
  destruct ((if gone then ret tt else send c farewell) w1) as [[] w2|]
    eqn:E2; [|discriminate].
  pose proof (kept _ w1 _ (keeps_farewell c gone) E2) as K2.
  destruct (guarded_teardown c w2) as [[] w3|] eqn:E3; [|discriminate].
  pose proof (kept _ w2 _ (keeps_guarded_teardown c) E3) as K3.
  destruct (print (LogLeft (c_address (heap w3 c))) w3) as [[] w4|] eqn:E4;
    [|discriminate].
  pose proof (kept _ w3 _ (keeps_print _) E4) as K4.
  simpl in K1, K2, K3, K4.
  assert (K : clients w4 = clients w) by congruence.
  unfold deregister.
  destruct (dict_del c (clients w4)) as [d|] eqn:Ed; [|discriminate].
  rewrite K in Ed.
  destruct (get_name c (set_clients d w4)) as [name w5|] eqn:E5;
    [|discriminate].
  pose proof (kept _ _ _ (keeps_get_name c) E5) as K5. simpl in K5.
  intros Eb.
  pose proof (kept _ w5 _ (keeps_broadcast (left_notice name) None) Eb) as K6.
  simpl in K6. rewrite Ed. congruence.
Qed.

(** The turn of the chat loop on a quit line. *)
Lemma quit_step (c : nat) (name m : text) (rest : script) (w : world) :
  NoDup (keys w) ->
  In c (keys w) ->
  chat w c = true ->
  c_name (heap w c) = Some name ->
  contains quit_token m = true ->
  can_send w c ->
  teardown_quiet w c ->
  (forall c', In c' (keys w) -> c' <> c -> can_send w c') ->
  exists w',
    handler_loop c (RecvData m :: rest) w = Returned rest w' /\
    leave c true false (refreshed c w) = Ok tt w' /\
    chat w' c = false /\
    sent w' c = sent w c ++ [clear ++ prompt; clear ++ farewell] /\
    (sk_shutdown_err (c_socket (heap w c)) = None -> closed w' c = true) /\
    (forall c', In c' (keys w) -> c' <> c ->
       heap w' c' =
       received (frame (chat w c') (left_notice name)) (heap w c')).
Proof.
  intros Hnd Hin Hchat Hname Hq Hcan Htq Hothers.
  destruct (chat_recv_then_dispatch c m rest w Hchat Hcan)
    as (Hloop & Hsent & Hch & [Hsame Hoth]).
  set (w1 := refreshed c w) in *.
  destruct (leave_deleting c name false w1) as
      (w' & El & _ & _ & _ & Hchat' & Hsent' & Hclosed & Hrecv & _).
  { exact Hnd. }
  { exact Hin. }
  { unfold w1. rewrite refreshed_heap. exact Hname. }
  { intros _. now apply refreshed_can_send. }
  { now apply refreshed_teardown_quiet. }
  { intros c' Hin' Hne. apply refreshed_can_send. now apply Hothers. }
  exists w'. split.
  { rewrite Hloop. unfold dispatch. now rewrite Hq, El. }
  split; [exact El|]. split; [exact Hchat'|].
  split; [rewrite Hsent', Hsent, <- app_assoc; reflexivity|].
  split.
  { intros Hn. apply Hclosed. unfold w1. now rewrite refreshed_heap. }
  intros c' Hin' Hne. rewrite (Hrecv c' Hin' Hne).
  unfold chat. now rewrite (Hoth c' Hne).
Qed.

(** X12. A visit leaves no trace in the Registry: a new session that gives
    its name and then sends a quit line ends with [handle] returning and the
    dict, names included, exactly as it was before the session joined. The
    sessions that were there have been told of the arrival and then of the
    departure, in this order; the visitor has been sent the name prompt, the
    welcome, two prompt glyphs and the farewell. The sends are assumed to
    succeed and the teardown to raise nothing [kill] lets through. *)
Theorem join_then_quit_restores_registry :
  forall (c : nat) (line q : text) (w : world),
    NoDup (keys w) ->
    ~ In c (keys w) ->
    chat w c = false ->
    can_send w c ->
    teardown_quiet w c ->
    (forall c', In c' (keys w) -> can_send w c') ->
    contains quit_token q = true ->
    exists w',
      handle c [RecvData line; RecvData q] w = Returned [] w' /\
      clients w' = clients w /\
      chat w' c = false /\
      sent w' c
      = sent w c ++ [clear ++ name_prompt; clear ++ welcome (strip line);
                     clear ++ prompt; clear ++ prompt; clear ++ farewell] /\
      (forall c', In c' (keys w) ->
         sent w' c'
         = sent w c' ++ [frame (chat w c') (joined_notice (strip line));
                         frame (chat w c') (left_notice (strip line))]) /\
      (sk_shutdown_err (c_socket (heap w c)) = None -> closed w' c = true).
Proof.
  intros c line q w Hnd Hnin Hchat Hcan Htq Hothers Hq.
  assert (E1 : join_prompt c w
               = Ok tt (set_heap c (received (frame (chat w c) name_prompt)
                                             (heap w c)) w))
    by now apply send_ok.
  destruct (join_ok c line w Hnd Hnin Hchat Hcan Hothers)
    as (wj & E & K & _ & _ & Hc & Ho & Hn).
  set (name := strip line) in *.
  set (w2 := set_heap c (set_chat true (heap wj c)) wj).
  assert (Hcan2 : can_send w2 c).
  { unfold can_send, closed, w2 in *. rewrite heap_set_heap_same, Hc.
    exact Hcan. }
  set (w3 := set_heap c (received (frame (chat w2 c) []) (heap w2 c)) w2).
  assert (Hh3 : heap w3 c
                = received (clear ++ prompt) (set_chat true (heap wj c))).
  { unfold w3. rewrite heap_set_heap_same. unfold chat, w2.
    now rewrite heap_set_heap_same. }
  assert (Ho3 : forall c', c' <> c -> heap w3 c' = heap wj c').
  { intros c' Hne. unfold w3, w2. now rewrite !heap_set_heap_other. }
  assert (K3 : clients w3 = clients w ++ [(c, name)]) by exact K.
  assert (Hk3 : keys w3 = keys w ++ [c]).
  { unfold keys. rewrite K3, map_app. reflexivity. }
  assert (Hold : forall c', In c' (keys w) -> c' <> c).
  { intros c' Hin ->. contradiction. }
  destruct (quit_step c name q [] w3) as
      (w' & El & Elv & Hchat' & Hsent' & Hclosed & Hrecv).
  { rewrite Hk3. apply NoDup_app; [exact Hnd | |].
    - constructor; [intros H; inversion H | constructor].
    - intros x Hx [Heq|H]; [subst; contradiction | inversion H]. }
  { rewrite Hk3. apply in_or_app. right. now left. }
  { unfold chat. now rewrite Hh3. }
  { rewrite Hh3, Hc. reflexivity. }
  { exact Hq. }
  { unfold can_send, closed in *. rewrite Hh3, Hc. exact Hcan. }
  { unfold teardown_quiet, closed in *. rewrite Hh3, Hc. exact Htq. }
  { intros c' Hin Hne. rewrite Hk3 in Hin.
    apply in_app_or in Hin as [Hin|[Heq|[]]]; [|congruence].
    apply (can_send_received w w3 c'
             (frame (chat w c') (joined_notice name))).
    - right. now rewrite (Ho3 c' Hne), (Ho c' Hin).
    - now apply Hothers. }
  exists w'. split.
  { unfold handle, handler. rewrite E1.
    unfold join in E. erewrite bind_Ok in E by exact E1.
    erewrite bind_Ok by exact E.
    unfold assign_chat. erewrite bind_Ok by reflexivity. fold w2.
    rewrite (send_ok c [] w2 Hcan2). fold w3. now rewrite El. }
  split.
  { apply leave_clients in Elv.
    change (clients (refreshed c w3)) with (clients w3) in Elv.
    rewrite K3, dict_del_appended in Elv by exact Hnin. congruence. }
  split; [exact Hchat'|].
  split.
  { rewrite Hsent'. unfold sent. rewrite Hh3, Hc. simpl.
    now rewrite <- !app_assoc. }
  split.
  - intros c' Hin. pose proof (Hold c' Hin) as Hne.
    unfold sent. rewrite Hrecv.
    + unfold chat. rewrite (Ho3 c' Hne), (Ho c' Hin). simpl.
      now rewrite <- app_assoc.
    + rewrite Hk3. apply in_or_app. now left.
    + exact Hne.
  - intros Hs. apply Hclosed. now rewrite Hh3, Hc.
Qed.

End Visit.

(** ** Whose entry a routine touches *)

Section OwnEntry.

Lemma tends_own_refl (c : nat) (w : world) : tends_own c w w.
Proof. split; [auto | intros; reflexivity]. Qed.

Lemma tends_own_trans (c : nat) (w1 w2 w3 : world) :
  tends_own c w1 w2 -> tends_own c w2 w3 -> tends_own c w1 w3.
Proof.
  intros [N1 H1] [N2 H2]. split; [auto|].
  intros c' n Hne. now rewrite (H2 c' n Hne), (H1 c' n Hne).
Qed.

Lemma tends_own_clients (c : nat) (w w' : world) :
  clients w' = clients w -> tends_own c w w'.
Proof.
  intros H. unfold tends_own, keys. rewrite H.
  split; [auto | intros; reflexivity].
Qed.

Lemma minds_own_keeps {A} (c : nat) (m : M A) :
  keeps_clients m -> minds_own c m.
Proof. intros H w. apply tends_own_clients, H. Qed.

Lemma minds_own_bind {A B} (c : nat) (m : M A) (f : A -> M B) :
  minds_own c m -> (forall a, minds_own c (f a)) -> minds_own c (bind m f).
Proof.
  intros Hm Hf w. unfold bind. specialize (Hm w).
  destruct (m w) as [a w1|e w1]; simpl in *; [|exact Hm].
  eapply tends_own_trans; [exact Hm | apply Hf].
Qed.

Lemma dict_set_others (k : nat) (v : text) (d : list (nat * text))
      (k' : nat) (n : text) :
  k' <> k -> (In (k', n) (dict_set k v d) <-> In (k', n) d).
Proof.
  intros Hne. induction d as [|[x y] d IH]; simpl.
  - split; [intros [H|[]]; inversion H; congruence | intros []].
  - destruct (Nat.eqb_spec x k) as [->|Hx]; simpl.
    + split; intros [H|H]; try (inversion H; congruence); now right.
    + now rewrite IH.
Qed.

Lemma dict_del_others (k : nat) (d d' : list (nat * text))
      (k' : nat) (n : text) :
  dict_del k d = Some d' -> k' <> k -> (In (k', n) d' <-> In (k', n) d).
Proof.
  intros Hdel Hne. revert d' Hdel.
  induction d as [|[x y] d IH]; simpl; intros d' Hdel; [discriminate|].
  destruct (Nat.eqb_spec x k) as [->|Hx].
  - inversion Hdel; subst. split; [now right|].
    intros [H|H]; [inversion H; congruence | exact H].
  - destruct (dict_del k d) as [d''|]; [|discriminate].
    inversion Hdel; subst. simpl. now rewrite (IH d'' eq_refl).
Qed.

Lemma dict_del_NoDup (k : nat) (d d' : list (nat * text)) :
  NoDup (map fst d) -> dict_del k d = Some d' -> NoDup (map fst d').
Proof.
  intros Hnd Hdel.
  destruct (dict_del_keys k d d' Hnd Hdel) as [_ ->].
  clear - Hnd. induction (map fst d) as [|x l IH]; [constructor|].
  inversion Hnd as [|? ? Hx Hl]; subst. simpl.
  destruct (Nat.eq_dec k x); [now apply IH|].
  constructor; [|now apply IH].
  intros Hin. apply in_remove in Hin as [Hin _]. contradiction.
Qed.

Lemma minds_own_register (c : nat) (n : text) : minds_own c (register c n).
Proof.
  intros w. split.
  - intros Hnd. unfold keys. simpl. now apply dict_set_NoDup.
  - intros c' n' Hne. simpl. now apply dict_set_others.
Qed.

Lemma minds_own_deregister (c : nat) : minds_own c (deregister c).
Proof.
  intros w. unfold deregister.
  destruct (dict_del c (clients w)) as [d|] eqn:E; [|apply tends_own_refl].
  split.
  - intros Hnd. unfold keys. simpl. now apply (dict_del_NoDup c (clients w)).
  - intros c' n' Hne. simpl. now apply (dict_del_others c (clients w)).
Qed.

Lemma minds_own_kill (c : nat) (delete : bool) : minds_own c (kill c delete).
Proof.
  apply minds_own_bind.
  { apply minds_own_keeps, keeps_guarded_teardown. }
  intros _. apply minds_own_bind.
  { apply minds_own_keeps. intros w. reflexivity. }
  intros _. destruct delete;
    [apply minds_own_deregister | apply minds_own_keeps, keeps_ret].
Qed.

Lemma minds_own_leave (c : nat) (delete gone : bool) :
  minds_own c (leave c delete gone).
Proof.
  apply minds_own_bind; [apply minds_own_keeps, keeps_assign_chat|].
  intros _. apply minds_own_bind; [apply minds_own_keeps, keeps_farewell|].
  intros _. apply minds_own_bind; [apply minds_own_kill|].
  intros _. destruct delete; [|apply minds_own_keeps, keeps_ret].
  apply minds_own_keeps, keeps_bind;
    [apply keeps_get_name | intros; apply keeps_broadcast].
Qed.

Lemma minds_own_join (c : nat) (ev : recv_event) : minds_own c (join c ev).
Proof.
  intros w. rewrite join_split. revert w.
  change (minds_own c (name <- join_unregistered c ev ;; register c name)).
  apply minds_own_bind.
  - apply minds_own_keeps, keeps_join_unregistered.
  - intros name. apply minds_own_register.
Qed.

Lemma handler_loop_minds_own (c : nat) (s : script) :
  forall w, tends_own c w (Room.after (handler_loop c s w)).
Proof.
  induction s as [|ev s IH]; intros w; [apply tends_own_refl|].
  rewrite handler_loop_step.
  pose proof (keeps_recv c ev w) as K1.
  destruct (recv c ev w) as [m w1|e w1]; simpl in K1;
    [|now apply tends_own_clients].
  apply (tends_own_trans c w w1); [now apply tends_own_clients|].
  unfold dispatch. destruct (contains quit_token m).
  - pose proof (minds_own_leave c true false w1) as H.
    now destruct (leave c true false w1).
  - destruct (is_blank m); [apply IH|].
    pose proof (keeps_msg c m w1) as K2.
    destruct (msg c m w1) as [[] w2|e w2]; simpl in K2.
    + apply (tends_own_trans c w1 w2); [now apply tends_own_clients|].
      apply IH.
    + now apply tends_own_clients.
Qed.

Lemma handler_minds_own (c : nat) (s : script) (w : world) :
  tends_own c w (Room.after (handler c s w)).
Proof.
  unfold handler.
  pose proof (keeps_send c name_prompt w) as K1. unfold join_prompt.
  destruct (send c name_prompt w) as [[] w1|e w1]; simpl in K1;
    [|now apply tends_own_clients].
  apply (tends_own_trans c w w1); [now apply tends_own_clients|].
  destruct s as [|ev s]; [apply tends_own_refl|].
  assert (Hj : minds_own c (join_named c ev ;; assign_chat c true ;;
                            send c [])).
  { apply minds_own_bind.
    - intros w0. unfold join_named.
      change (tends_own c w0
                (world_of ((line <- recv c ev ;;
                            assign_name c (strip line) ;;
                            send c (welcome (strip line)) ;;
                            broadcast (joined_notice (strip line)) None ;;
                            register c (strip line)) w0))).
      revert w0.
      change (minds_own c (line <- recv c ev ;;
                           assign_name c (strip line) ;;
                           send c (welcome (strip line)) ;;
                           broadcast (joined_notice (strip line)) None ;;
                           register c (strip line))).
      apply minds_own_bind; [apply minds_own_keeps, keeps_recv|].
      intros line.
      apply minds_own_bind; [apply minds_own_keeps, keeps_assign_name|].
      intros _. apply minds_own_bind; [apply minds_own_keeps, keeps_send|].
      intros _.
      apply minds_own_bind; [apply minds_own_keeps, keeps_broadcast|].
      intros _. apply minds_own_register.
    - intros _. apply minds_own_bind;
        [apply minds_own_keeps, keeps_assign_chat|].
      intros _. apply minds_own_keeps, keeps_send. }
  specialize (Hj w1).
  destruct ((join_named c ev ;; assign_chat c true ;; send c []) w1)
    as [[] w2|e w2]; simpl in Hj; [|exact Hj].
  apply (tends_own_trans c w1 w2); [exact Hj|].
  apply handler_loop_minds_own.
Qed.

(** X13. However the handling routine of a session ends, and whatever it
    reads, it touches no entry of the Registry but its own: the entries of
    the other sessions, names included, are the same after as before, and no
    session comes to appear twice. *)
Theorem handle_minds_own_entry :
  forall (c : nat) (s : script) (w : world),
    NoDup (keys w) ->
    NoDup (keys (Room.after (handle c s w))) /\
    forall c' n,
      c' <> c ->
      (In (c', n) (clients (Room.after (handle c s w)))
       <-> In (c', n) (clients w)).
Proof.
  intros c s w Hnd.
  assert (H : tends_own c w (Room.after (handle c s w))).
  { unfold handle, contain. pose proof (handler_minds_own c s w) as Hh.
    destruct (handler c s w) as [rest w1|e rest w1|w1];
      cbn [Room.after] in Hh; try exact Hh.
    apply (tends_own_trans c w w1); [exact Hh|].
    unfold on_error.
    destruct e as [n| | |]; try apply tends_own_refl.
    destruct (n =? EPIPE)%Z.
    - pose proof (minds_own_leave c true true w1) as Hl.
      destruct (leave c true true w1); exact Hl.
    - destruct (n =? 9)%Z; apply tends_own_refl. }
  destruct H as [H1 H2]. split; [now apply H1 | exact H2].
Qed.

End OwnEntry.

(** ** Accepting and shutting down *)

Section Accepting.

Lemma keeps_server_bind {A B} (m : M A) (f : A -> M B) :
  keeps_server m -> (forall a, keeps_server (f a)) -> keeps_server (bind m f).
Proof.
  intros Hm Hf w. unfold bind. specialize (Hm w).
  destruct (m w) as [a w1|e w1]; simpl in *; [|exact Hm].
  destruct Hm as (H1 & H2 & H3 & H4).
  destruct (Hf a w1) as (G1 & G2 & G3 & G4).
  repeat split; congruence.
Qed.

Lemma keeps_server_ret {A} (a : A) : keeps_server (ret a).
Proof. intros w. repeat split. Qed.

Lemma keeps_server_send (c : nat) (m : text) : keeps_server (send c m).
Proof.
  intros w. destruct (send_cases c m w) as [E|[e E]]; rewrite E;
    repeat split.
Qed.

Lemma keeps_server_broadcast_to (m : text) (sender : option nat)
      (l : list nat) :
  keeps_server (broadcast_to l m sender).
Proof.
  intros w. destruct (broadcast_to_same_server m sender l w)
    as (H1 & H2 & H3 & H4 & _). auto.
Qed.

Lemma keeps_server_guarded_teardown (c : nat) :
  keeps_server (guarded_teardown c).
Proof.
  intros w. unfold guarded_teardown, try_except, teardown.
  destruct (sock_shutdown (c_socket (heap w c))) as [e|s].
  - destruct (swallowed e); repeat split.
  - destruct (sock_close s) as [[e|] s']; [|repeat split].
    destruct (swallowed e); repeat split.
Qed.

Lemma keeps_server_leave_undeleted (c : nat) (gone : bool) :
  keeps_server (leave c false gone).
Proof.
  apply keeps_server_bind; [intros w; repeat split|]. intros _.
  apply keeps_server_bind.
  { destruct gone; [apply keeps_server_ret | apply keeps_server_send]. }
  intros _. apply keeps_server_bind; [|intros; apply keeps_server_ret].
  apply keeps_server_bind; [apply keeps_server_guarded_teardown|].
  intros _. apply keeps_server_bind; [intros w; repeat split|].
  intros; apply keeps_server_ret.
Qed.

Lemma keeps_server_leave_all (l : list nat) : keeps_server (leave_all l).
Proof.
  induction l as [|c l IH]; [apply keeps_server_ret|].
  apply keeps_server_bind; [apply keeps_server_leave_undeleted|].
  intros _. exact IH.
Qed.

Lemma keeps_server_close_connections : keeps_server close_connections.
Proof.
  apply keeps_server_bind.
  - intros w. apply keeps_server_broadcast_to.
  - intros _ w. apply keeps_server_leave_all.
Qed.

(** What the accepting thread does while the flag is on. *)
Lemma accept_connections_spawns (evs : list accept_event) :
  forall w,
    is_running w = true ->
    clients (accept_connections evs w) = clients w /\
    is_running (accept_connections evs w) = true /\
    listener (accept_connections evs w) = listener w /\
    threads (accept_connections evs w) = threads w ++ accepted evs /\
    stdout (accept_connections evs w) = stdout w ++ accept_log evs /\
    (forall c, ~ In c (accepted evs) ->
               heap (accept_connections evs w) c = heap w c) /\
    (NoDup (accepted evs) ->
     forall c s a, In (AcceptConn c s a) evs ->
                   heap (accept_connections evs w) c = new_client s a).
Proof.
  induction evs as [|ev evs IH]; intros w Hrun;
    rewrite accept_connections_eq, Hrun.
  - simpl. rewrite !app_nil_r. repeat (split; [auto|]).
    intros _ c s a [].
  - destruct ev as [|c s a].
    + destruct (IH w Hrun) as (K & R & L & T & O & Hh & Hn).
      repeat (split; [assumption|]).
      intros Hnd c s a [H|H]; [discriminate | now apply Hn].
    + set (w1 := spawn c (set_heap c (new_client s a)
                                   (world_of (print (LogJoined a) w)))).
      destruct (IH w1 Hrun) as (K & R & L & T & O & Hh & Hn).
      split; [exact K|]. split; [exact R|]. split; [exact L|].
      split; [rewrite T; simpl; now rewrite <- app_assoc|].
      split; [rewrite O; simpl; now rewrite <- app_assoc|].
      split.
      * intros c' Hnin. rewrite Hh by (intros Hin; apply Hnin; now right).
        simpl. destruct (Nat.eqb_spec c' c) as [->|Hne]; [|reflexivity].
        exfalso. apply Hnin. now left.
      * intros Hnd c' s' a' [H|H].
        -- inversion H; subst. inversion Hnd as [|? ? Hx Hl]; subst.
           rewrite (Hh c' Hx). simpl. now rewrite Nat.eqb_refl.
        -- inversion Hnd as [|? ? Hx Hl]; subst. now apply (Hn Hl).
Qed.

(** X14. While the flag is on, the accepting loop makes one [Client] object
    per connection, not yet chatting and without a name, starts one handling
    routine per connection, in the order of arrival, and prints one line per
    connection; time-outs do nothing. It never touches the Registry, the
    listening socket or an object it did not create. *)
Theorem accept_starts_one_routine_each :
  forall (evs : list accept_event) (w : world),
    is_running w = true ->
    NoDup (accepted evs) ->
    clients (accept_connections evs w) = clients w /\
    listener (accept_connections evs w) = listener w /\
    is_running (accept_connections evs w) = true /\
    threads (accept_connections evs w) = threads w ++ accepted evs /\
    stdout (accept_connections evs w) = stdout w ++ accept_log evs /\
    (forall c s a,
        In (AcceptConn c s a) evs ->
        heap (accept_connections evs w) c = mkClient s a false None) /\
    (forall c, ~ In c (accepted evs) ->
               heap (accept_connections evs w) c = heap w c).
Proof.
  intros evs w Hrun Hnd.
  destruct (accept_connections_spawns evs w Hrun)
    as (K & R & L & T & O & Hh & Hn).
  repeat (split; [assumption|]).
  split; [exact (Hn Hnd) | exact Hh].
Qed.

(** X15. [start] never releases the listening socket and its sweep never
    deletes a Registry entry: however the sweep ends, also when a send or a
    teardown raises in it, [start] leaves the flag off and the Registry, the
    listening socket and the list of routines as the interrupt found them.
    It is the accepting loop that, once it sees the flag off, accepts nothing
    more, releases the listening socket and logs it, touching no session. *)
Theorem start_leaves_listener_to_accepting_loop :
  forall (others : world -> world) (evs : list accept_event) (w : world),
    clients (world_of (start others w)) = clients (at_interrupt others w) /\
    is_running (world_of (start others w)) = false /\
    listener (world_of (start others w)) = listener (at_interrupt others w)
    /\
    threads (world_of (start others w)) = threads (at_interrupt others w) /\
    listener (accept_connections evs (world_of (start others w))) = Released
    /\
    clients (accept_connections evs (world_of (start others w)))
    = clients (at_interrupt others w) /\
    heap (accept_connections evs (world_of (start others w)))
    = heap (world_of (start others w)) /\
    threads (accept_connections evs (world_of (start others w)))
    = threads (at_interrupt others w) /\
    stdout (accept_connections evs (world_of (start others w)))
    = stdout (world_of (start others w)) ++ [LogClosedServer].
Proof.
  intros others evs w. unfold start. fold (at_interrupt others w).
  set (w0 := at_interrupt others w).
  set (w6 := set_running false (world_of (print LogShuttingDown w0))).
  destruct (keeps_server_close_connections w6) as (C1 & C2 & C3 & C4).
  set (w' := world_of (close_connections w6)) in *.
  assert (Hstop : accept_connections evs w' = close w').
  { apply accept_connections_stopped. exact C2. }
  rewrite Hstop, C1, C2, C3, C4. simpl. rewrite C1, C4.
  repeat split.
Qed.

End Accepting.

(** ** Bytes that are not text *)

Section Undecodable.

(** X17. Bytes that are not valid UTF-8 end the routine of a chatting
    session: the prompt refresh is sent first, then the decoding error, which
    is no socket error, passes through [handle]. No [leave] is run: the
    session stays in the Registry in its chat state with its socket open. *)
Theorem undecodable_line_ends_routine :
  forall (c : nat) (rest : script) (w : world),
    chat w c = true ->
    can_send w c ->
    handle_chatting c (RecvUndecodable :: rest) w
    = Raised UnicodeDecodeError rest (refreshed c w) /\
    clients (refreshed c w) = clients w /\
    chat (refreshed c w) c = true /\
    closed (refreshed c w) c = false /\
    sent (refreshed c w) c = sent w c ++ [clear ++ prompt] /\
    (forall c', c' <> c -> heap (refreshed c w) c' = heap w c').
Proof.
  intros c rest w Hchat Hcan. split.
  { unfold handle_chatting. rewrite handler_loop_step. unfold recv.
    rewrite Hchat. erewrite bind_Ok by (apply send_ok; exact Hcan).
    rewrite Hchat. reflexivity. }
  split; [reflexivity|].
  unfold chat, closed, sent in *. rewrite refreshed_heap. simpl.
  split; [exact Hchat|]. split; [apply Hcan|]. split; [reflexivity|].
  apply refreshed_only_changes.
Qed.

End Undecodable.

(** ** The room at work, continued *)

Section MoreRuns.

Import Room.

Ltac by_run := vm_compute; reflexivity.

Ltac among H :=
  vm_compute in H;
  repeat (destruct H as [H|H]; [subst|]); try contradiction.

Lemma dave_is_new : ~ In dave (keys three).
Proof. intros H. among H; discriminate. Defined.

Lemma dave_not_chatting : chat three dave = false.
Proof. by_run. Defined.

Lemma dave_can_send : can_send three dave.
Proof. split; by_run. Defined.

Lemma dave_teardown_quiet : teardown_quiet three dave.
Proof. split; [by_run|]. split; left; by_run. Defined.

Lemma dispatch_sorts_lines_witness :
  chat three alice = true /\
  can_send three alice /\
  (exists pre post, str "foo:quit" = pre ++ str ":quit" ++ post) /\
  handler_loop alice (RecvData (str "foo:quit") :: []) three =
  match leave alice true false (refreshed alice three) with
  | Ok _ w' => Returned [] w'
  | Err e w' => Raised e [] w'
  end.
Proof.
  assert (Hin : In alice (keys three)) by (vm_compute; auto).
  assert (H : exists pre post, str "foo:quit" = pre ++ str ":quit" ++ post).
  { exists (str "foo"), []. by_run. }
  split; [exact three_alice_chat|].
  split; [exact (three_can_send alice Hin)|]. split; [exact H|].
  exact (proj1 (dispatch_sorts_lines alice (str "foo:quit") [] three
                  three_alice_chat (three_can_send alice Hin)) H).
Defined.

Lemma join_registers_stripped_name_witness :
  NoDup (keys three) /\
  ~ In dave (keys three) /\
  chat three dave = false /\
  can_send three dave /\
  (forall c', In c' (keys three) -> can_send three c') /\
  exists w',
    join dave (RecvData (str " Dave ")) three = Ok tt w' /\
    clients w' = clients three ++ [(dave, strip (str " Dave "))] /\
    c_name (heap w' dave) = Some (strip (str " Dave ")) /\
    chat w' dave = false /\
    sent w' dave
    = sent three dave ++ [clear ++ name_prompt;
                          clear ++ welcome (strip (str " Dave "))] /\
    (forall c', In c' (keys three) ->
       sent w' c'
       = sent three c'
         ++ [frame (chat three c') (joined_notice (strip (str " Dave ")))])
    /\
    (forall c', ~ In c' (keys three) -> c' <> dave ->
                sent w' c' = sent three c') /\
    (all_space (str " Dave ") = true -> strip (str " Dave ") = []) /\
    strip (strip (str " Dave ")) = strip (str " Dave ").
Proof.
  split; [exact three_NoDup|]. split; [exact dave_is_new|].
  split; [exact dave_not_chatting|]. split; [exact dave_can_send|].
  split; [exact three_can_send|].
  exact (join_registers_stripped_name dave (str " Dave ") three three_NoDup
           dave_is_new dave_not_chatting dave_can_send three_can_send).
Defined.

Lemma handle_starts_session_witness :
  NoDup (keys three) /\
  ~ In dave (keys three) /\
  chat three dave = false /\
  can_send three dave /\
  (forall c', In c' (keys three) -> can_send three c') /\
  (exists w0,
      handle dave [] three = Waiting w0 /\
      clients w0 = clients three /\
      chat w0 dave = false /\
      sent w0 dave = sent three dave ++ [clear ++ name_prompt]) /\
  (exists w',
      handle dave [RecvData (str "Dave")] three = Waiting w' /\
      clients w' = clients three ++ [(dave, strip (str "Dave"))] /\
      chat w' dave = true /\
      c_name (heap w' dave) = Some (strip (str "Dave")) /\
      sent w' dave
      = sent three dave ++ [clear ++ name_prompt;
                            clear ++ welcome (strip (str "Dave"));
                            clear ++ prompt] /\
      (forall c', In c' (keys three) ->
         sent w' c'
         = sent three c'
           ++ [frame (chat three c') (joined_notice (strip (str "Dave")))])).
Proof.
  split; [exact three_NoDup|]. split; [exact dave_is_new|].
  split; [exact dave_not_chatting|]. split; [exact dave_can_send|].
  split; [exact three_can_send|].
  exact (handle_starts_session dave (str "Dave") three three_NoDup
           dave_is_new dave_not_chatting dave_can_send three_can_send).
Defined.

Lemma kill_reraises_other_errors_witness :
  teardown_raises (break_shutdown bob ECONNRESET three) bob ECONNRESET /\
  ECONNRESET <> 32%Z /\
  ECONNRESET <> 107%Z /\
  exists w',
    kill bob true (break_shutdown bob ECONNRESET three)
    = Err (SocketError ECONNRESET) w' /\
    clients w' = clients (break_shutdown bob ECONNRESET three) /\
    stdout w' = stdout (break_shutdown bob ECONNRESET three) /\
    sent w' bob = sent (break_shutdown bob ECONNRESET three) bob /\
    chat w' bob = chat (break_shutdown bob ECONNRESET three) bob /\
    (forall c', c' <> bob ->
                heap w' c' = heap (break_shutdown bob ECONNRESET three) c').
Proof.
  assert (H : teardown_raises (break_shutdown bob ECONNRESET three) bob
                              ECONNRESET).
  { right. left. split; by_run. }
  assert (H1 : ECONNRESET <> 32%Z) by discriminate.
  assert (H2 : ECONNRESET <> 107%Z) by discriminate.
  split; [exact H|]. split; [exact H1|]. split; [exact H2|].
  exact (kill_reraises_other_errors bob true
           (break_shutdown bob ECONNRESET three) ECONNRESET H H1 H2).
Defined.

Lemma kill_swallows_broken_connection_witness :
  teardown_raises (break_shutdown bob ENOTCONN three) bob ENOTCONN /\
  (ENOTCONN = 32%Z \/ ENOTCONN = 107%Z) /\
  NoDup (keys (break_shutdown bob ENOTCONN three)) /\
  In bob (keys (break_shutdown bob ENOTCONN three)) /\
  exists w',
    kill bob true (break_shutdown bob ENOTCONN three) = Ok tt w' /\
    stdout w'
    = stdout (break_shutdown bob ENOTCONN three)
      ++ [LogLeft (c_address (heap (break_shutdown bob ENOTCONN three) bob))]
    /\
    keys w'
    = (if true
       then remove Nat.eq_dec bob (keys (break_shutdown bob ENOTCONN three))
       else keys (break_shutdown bob ENOTCONN three)) /\
    sent w' bob = sent (break_shutdown bob ENOTCONN three) bob /\
    (sk_shutdown_err
       (c_socket (heap (break_shutdown bob ENOTCONN three) bob))
     = Some ENOTCONN -> closed w' bob = false) /\
    (sk_shutdown_err
       (c_socket (heap (break_shutdown bob ENOTCONN three) bob))
     = None -> closed w' bob = true).
Proof.
  assert (H : teardown_raises (break_shutdown bob ENOTCONN three) bob
                              ENOTCONN).
  { right. left. split; by_run. }
  assert (H1 : ENOTCONN = 32%Z \/ ENOTCONN = 107%Z) by (right; exact eq_refl).
  assert (Hk : keys (break_shutdown bob ENOTCONN three) = [alice; bob; carol])
    by by_run.
  assert (Hn : NoDup (keys (break_shutdown bob ENOTCONN three))).
  { rewrite Hk. unfold alice, bob, carol.
    repeat constructor; simpl; intuition discriminate. }
  assert (Hi : In bob (keys (break_shutdown bob ENOTCONN three))).
  { rewrite Hk. right. left. exact eq_refl. }
  split; [exact H|]. split; [exact H1|]. split; [exact Hn|].
  split; [exact Hi|].
  exact (kill_swallows_broken_connection bob true
           (break_shutdown bob ENOTCONN three) ENOTCONN H H1 Hn Hi).
Defined.

Lemma leave_stops_at_failed_farewell_witness :
  send_fails (break_send bob EPIPE three) bob EPIPE /\
  exists w',
    leave bob false false (break_send bob EPIPE three)
    = Err (SocketError EPIPE) w' /\
    chat w' bob = false /\
    clients w' = clients (break_send bob EPIPE three) /\
    stdout w' = stdout (break_send bob EPIPE three) /\
    closed w' bob = closed (break_send bob EPIPE three) bob /\
    sent w' bob = sent (break_send bob EPIPE three) bob /\
    (forall c', c' <> bob ->
                heap w' c' = heap (break_send bob EPIPE three) c').
Proof.
  assert (H : send_fails (break_send bob EPIPE three) bob EPIPE).
  { right. split; by_run. }
  split; [exact H|].
  exact (leave_stops_at_failed_farewell bob false
           (break_send bob EPIPE three) EPIPE H).
Defined.

Lemma early_disconnect_raises_keyerror_witness :
  ~ In dave (keys three) /\
  chat three dave = false /\
  can_send three dave /\
  teardown_quiet three dave /\
  exists w',
    handle dave (RecvErr EPIPE :: []) three = Raised KeyError [] w' /\
    clients w' = clients three /\
    chat w' dave = false /\
    sent w' dave = sent three dave ++ [clear ++ name_prompt] /\
    (sk_shutdown_err (c_socket (heap three dave)) = None ->
     closed w' dave = true).
Proof.
  split; [exact dave_is_new|]. split; [exact dave_not_chatting|].
  split; [exact dave_can_send|]. split; [exact dave_teardown_quiet|].
  exact (early_disconnect_raises_keyerror dave [] three dave_is_new
           dave_not_chatting dave_can_send dave_teardown_quiet).
Defined.

Lemma broken_keys (n : Z) :
  keys (break_send bob n three) = [alice] ++ bob :: [carol].
Proof. reflexivity. Defined.

Lemma broken_NoDup (n : Z) : NoDup (keys (break_send bob n three)).
Proof.
  rewrite broken_keys. unfold alice, bob, carol.
  repeat constructor; simpl; intuition discriminate.
Defined.

Lemma broken_alice_can_send (n : Z) : can_send (break_send bob n three) alice.
Proof. split; by_run. Defined.

Lemma broken_bob_fails (n : Z) : send_fails (break_send bob n three) bob n.
Proof. right. split; reflexivity. Defined.

Lemma broken_others_can_send (n : Z) (c' : nat) :
  In c' (keys (break_send bob n three)) -> c' <> alice -> c' <> bob ->
  can_send (break_send bob n three) c'.
Proof.
  intros H H1 H2. rewrite broken_keys in H. simpl in H.
  destruct H as [H|[H|[H|[]]]]; subst; try contradiction.
  split; by_run.
Defined.

Lemma sweep_stops_at_broken_socket_witness :
  keys (break_send bob EPIPE three) = [alice] ++ bob :: [carol] /\
  NoDup (keys (break_send bob EPIPE three)) /\
  (forall c, In c [alice] -> can_send (break_send bob EPIPE three) c) /\
  send_fails (break_send bob EPIPE three) bob EPIPE /\
  exists w',
    close_connections (break_send bob EPIPE three)
    = Err (SocketError EPIPE) w' /\
    clients w' = clients (break_send bob EPIPE three) /\
    stdout w' = stdout (break_send bob EPIPE three) /\
    (forall c, closed w' c = closed (break_send bob EPIPE three) c /\
               chat w' c = chat (break_send bob EPIPE three) c) /\
    (forall c, In c [alice] ->
               sent w' c
               = sent (break_send bob EPIPE three) c
                 ++ [frame (chat (break_send bob EPIPE three) c)
                           closing_notice]) /\
    (forall c, In c (bob :: [carol]) ->
               sent w' c = sent (break_send bob EPIPE three) c).
Proof.
  assert (Hc : forall c, In c [alice] ->
                         can_send (break_send bob EPIPE three) c).
  { intros c [<-|[]]. exact (broken_alice_can_send EPIPE). }
  split; [exact (broken_keys EPIPE)|]. split; [exact (broken_NoDup EPIPE)|].
  split; [exact Hc|]. split; [exact (broken_bob_fails EPIPE)|].
  exact (sweep_stops_at_broken_socket (break_send bob EPIPE three) [alice]
           bob [carol] EPIPE (broken_keys EPIPE) (broken_NoDup EPIPE) Hc
           (broken_bob_fails EPIPE)).
Defined.

Lemma chat_line_dies_on_other_socket_witness :
  NoDup (keys (break_send bob ECONNRESET three)) /\
  chat (break_send bob ECONNRESET three) alice = true /\
  c_name (heap (break_send bob ECONNRESET three) alice) = Some (str "Alice")
  /\
  can_send (break_send bob ECONNRESET three) alice /\
  contains quit_token (str "hi") = false /\
  is_blank (str "hi") = false /\
  In bob (keys (break_send bob ECONNRESET three)) /\
  bob <> alice /\
  send_fails (break_send bob ECONNRESET three) bob ECONNRESET /\
  ECONNRESET <> EPIPE /\
  (forall c', In c' (keys (break_send bob ECONNRESET three)) ->
              c' <> alice -> c' <> bob ->
              can_send (break_send bob ECONNRESET three) c') /\
  exists w',
    handle_chatting alice (RecvData (str "hi") :: [])
                    (break_send bob ECONNRESET three)
    = (if (ECONNRESET =? 9)%Z then Returned [] w'
       else Raised (SocketError ECONNRESET) [] w') /\
    clients w' = clients (break_send bob ECONNRESET three) /\
    chat w' alice = true /\
    closed w' alice = false /\
    sent w' alice
    = sent (break_send bob ECONNRESET three) alice ++ [clear ++ prompt] /\
    sent w' bob = sent (break_send bob ECONNRESET three) bob.
Proof.
  assert (H1 : chat (break_send bob ECONNRESET three) alice = true)
    by by_run.
  assert (H2 : c_name (heap (break_send bob ECONNRESET three) alice)
               = Some (str "Alice")) by by_run.
  assert (H3 : contains quit_token (str "hi") = false) by by_run.
  assert (H4 : is_blank (str "hi") = false) by by_run.
  assert (H5 : In bob (keys (break_send bob ECONNRESET three))).
  { rewrite broken_keys. right. left. exact eq_refl. }
  assert (H6 : bob <> alice) by discriminate.
  assert (H7 : ECONNRESET <> EPIPE) by discriminate.
  split; [exact (broken_NoDup ECONNRESET)|]. split; [exact H1|].
  split; [exact H2|]. split; [exact (broken_alice_can_send ECONNRESET)|].
  split; [exact H3|]. split; [exact H4|]. split; [exact H5|].
  split; [exact H6|]. split; [exact (broken_bob_fails ECONNRESET)|].
  split; [exact H7|]. split; [exact (broken_others_can_send ECONNRESET)|].
  exact (chat_line_dies_on_other_socket alice bob (str "Alice") (str "hi") []
           (break_send bob ECONNRESET three) ECONNRESET
           (broken_NoDup ECONNRESET) H1 H2 (broken_alice_can_send ECONNRESET)
           H3 H4 H5 H6 (broken_bob_fails ECONNRESET) H7
           (broken_others_can_send ECONNRESET)).
Defined.

Lemma chat_line_kicks_sender_witness :
  NoDup (keys (break_send bob EPIPE three)) /\
  In alice (keys (break_send bob EPIPE three)) /\
  chat (break_send bob EPIPE three) alice = true /\
  c_name (heap (break_send bob EPIPE three) alice) = Some (str "Alice") /\
  can_send (break_send bob EPIPE three) alice /\
  teardown_quiet (break_send bob EPIPE three) alice /\
  contains quit_token (str "hi") = false /\
  is_blank (str "hi") = false /\
  In bob (keys (break_send bob EPIPE three)) /\
  bob <> alice /\
  send_fails (break_send bob EPIPE three) bob EPIPE /\
  (forall c', In c' (keys (break_send bob EPIPE three)) ->
              c' <> alice -> c' <> bob ->
              can_send (break_send bob EPIPE three) c') /\
  exists w',
    handle_chatting alice (RecvData (str "hi") :: [])
                    (break_send bob EPIPE three)
    = Raised (SocketError EPIPE) [] w' /\
    keys w' = remove Nat.eq_dec alice (keys (break_send bob EPIPE three)) /\
    In bob (keys w') /\
    chat w' alice = false /\
    sent w' alice
    = sent (break_send bob EPIPE three) alice ++ [clear ++ prompt] /\
    sent w' bob = sent (break_send bob EPIPE three) bob /\
    (sk_shutdown_err (c_socket (heap (break_send bob EPIPE three) alice))
     = None -> closed w' alice = true).
Proof.
  assert (H0 : In alice (keys (break_send bob EPIPE three))).
  { rewrite broken_keys. left. exact eq_refl. }
  assert (H1 : chat (break_send bob EPIPE three) alice = true) by by_run.
  assert (H2 : c_name (heap (break_send bob EPIPE three) alice)
               = Some (str "Alice")) by by_run.
  assert (Hq : teardown_quiet (break_send bob EPIPE three) alice).
  { split; [by_run|]. split; left; by_run. }
  assert (H3 : contains quit_token (str "hi") = false) by by_run.
  assert (H4 : is_blank (str "hi") = false) by by_run.
  assert (H5 : In bob (keys (break_send bob EPIPE three))).
  { rewrite broken_keys. right. left. exact eq_refl. }
  assert (H6 : bob <> alice) by discriminate.
  split; [exact (broken_NoDup EPIPE)|]. split; [exact H0|].
  split; [exact H1|]. split; [exact H2|].
  split; [exact (broken_alice_can_send EPIPE)|]. split; [exact Hq|].
  split; [exact H3|]. split; [exact H4|]. split; [exact H5|].
  split; [exact H6|]. split; [exact (broken_bob_fails EPIPE)|].
  split; [exact (broken_others_can_send EPIPE)|].
  exact (chat_line_kicks_sender alice bob (str "Alice") (str "hi") []
           (break_send bob EPIPE three) (broken_NoDup EPIPE) H0 H1 H2
           (broken_alice_can_send EPIPE) Hq H3 H4 H5 H6
           (broken_bob_fails EPIPE) (broken_others_can_send EPIPE)).
Defined.

Lemma chat_lines_arrive_in_order_witness :
  NoDup (keys three) /\
  chat three alice = true /\
  c_name (heap three alice) = Some (str "Alice") /\
  can_send three alice /\
  (forall c', In c' (keys three) -> c' <> alice -> can_send three c') /\
  (forall m, In m [str "hi"; []; str "there"] ->
             contains quit_token m = false) /\
  exists w',
    handler_loop alice (map RecvData [str "hi"; []; str "there"]) three
    = Waiting w' /\
    clients w' = clients three /\
    (forall c', chat w' c' = chat three c') /\
    c_name (heap w' alice) = Some (str "Alice") /\
    (forall c', can_send three c' -> can_send w' c') /\
    sent w' alice
    = sent three alice
      ++ repeat (clear ++ prompt)
                (List.length [str "hi"; []; str "there"]) /\
    (forall c', In c' (keys three) -> c' <> alice ->
       sent w' c'
       = sent three c'
         ++ map (fun m => frame (chat three c') (chat_line (str "Alice") m))
                (spoken [str "hi"; []; str "there"])) /\
    (forall c', ~ In c' (keys three) -> c' <> alice ->
                sent w' c' = sent three c').
Proof.
  assert (Hin : In alice (keys three)) by (vm_compute; auto).
  assert (Hq : forall m, In m [str "hi"; []; str "there"] ->
                         contains quit_token m = false).
  { intros m [<-|[<-|[<-|[]]]]; by_run. }
  split; [exact three_NoDup|]. split; [exact three_alice_chat|].
  split; [exact three_alice_name|].
  split; [exact (three_can_send alice Hin)|].
  split; [exact three_others_can_send|]. split; [exact Hq|].
  exact (chat_lines_arrive_in_order alice (str "Alice")
           [str "hi"; []; str "there"] three three_NoDup three_alice_chat
           three_alice_name (three_can_send alice Hin) three_others_can_send
           Hq).
Defined.

Lemma join_then_quit_restores_registry_witness :
  NoDup (keys three) /\
  ~ In dave (keys three) /\
  chat three dave = false /\
  can_send three dave /\
  teardown_quiet three dave /\
  (forall c', In c' (keys three) -> can_send three c') /\
  contains quit_token (str ":quit") = true /\
  exists w',
    handle dave [RecvData (str "Dave"); RecvData (str ":quit")] three
    = Returned [] w' /\
    clients w' = clients three /\
    chat w' dave = false /\
    sent w' dave
    = sent three dave ++ [clear ++ name_prompt;
                          clear ++ welcome (strip (str "Dave"));
                          clear ++ prompt; clear ++ prompt;
                          clear ++ farewell] /\
    (forall c', In c' (keys three) ->
       sent w' c'
       = sent three c'
         ++ [frame (chat three c') (joined_notice (strip (str "Dave")));
             frame (chat three c') (left_notice (strip (str "Dave")))]) /\
    (sk_shutdown_err (c_socket (heap three dave)) = None ->
     closed w' dave = true).
Proof.
  assert (Hq : contains quit_token (str ":quit") = true) by by_run.
  split; [exact three_NoDup|]. split; [exact dave_is_new|].
  split; [exact dave_not_chatting|]. split; [exact dave_can_send|].
  split; [exact dave_teardown_quiet|]. split; [exact three_can_send|].
  split; [exact Hq|].
  exact (join_then_quit_restores_registry dave (str "Dave") (str ":quit")
           three three_NoDup dave_is_new dave_not_chatting dave_can_send
           dave_teardown_quiet three_can_send Hq).
Defined.

Lemma handle_minds_own_entry_witness :
  NoDup (keys three) /\
  NoDup (keys (after (handle dave [line "Dave"; line ":quit"] three))) /\
  forall c' n,
    c' <> dave ->
    (In (c', n) (clients (after (handle dave [line "Dave"; line ":quit"]
                                        three)))
     <-> In (c', n) (clients three)).
Proof.
  split; [exact three_NoDup|].
  exact (handle_minds_own_entry dave [line "Dave"; line ":quit"] three
           three_NoDup).
Defined.

Lemma accept_starts_one_routine_each_witness :
  is_running (set_running true idle) = true /\
  NoDup (accepted [AcceptConn dave fresh_sock (str "10.0.0.9", 4444);
                   AcceptTimeout]) /\
  clients (accept_connections
             [AcceptConn dave fresh_sock (str "10.0.0.9", 4444);
              AcceptTimeout] (set_running true idle))
  = clients (set_running true idle) /\
  listener (accept_connections
              [AcceptConn dave fresh_sock (str "10.0.0.9", 4444);
               AcceptTimeout] (set_running true idle))
  = listener (set_running true idle) /\
  is_running (accept_connections
                [AcceptConn dave fresh_sock (str "10.0.0.9", 4444);
                 AcceptTimeout] (set_running true idle)) = true /\
  threads (accept_connections
             [AcceptConn dave fresh_sock (str "10.0.0.9", 4444);
              AcceptTimeout] (set_running true idle))
  = threads (set_running true idle)
    ++ accepted [AcceptConn dave fresh_sock (str "10.0.0.9", 4444);
                 AcceptTimeout] /\
  stdout (accept_connections
            [AcceptConn dave fresh_sock (str "10.0.0.9", 4444);
             AcceptTimeout] (set_running true idle))
  = stdout (set_running true idle)
    ++ accept_log [AcceptConn dave fresh_sock (str "10.0.0.9", 4444);
                   AcceptTimeout] /\
  (forall c s a,
      In (AcceptConn c s a)
         [AcceptConn dave fresh_sock (str "10.0.0.9", 4444); AcceptTimeout] ->
      heap (accept_connections
              [AcceptConn dave fresh_sock (str "10.0.0.9", 4444);
               AcceptTimeout] (set_running true idle)) c
      = mkClient s a false None) /\
  (forall c,
      ~ In c (accepted [AcceptConn dave fresh_sock (str "10.0.0.9", 4444);
                        AcceptTimeout]) ->
      heap (accept_connections
              [AcceptConn dave fresh_sock (str "10.0.0.9", 4444);
               AcceptTimeout] (set_running true idle)) c
      = heap (set_running true idle) c).
Proof.
  assert (H1 : is_running (set_running true idle) = true) by exact eq_refl.
  assert (H2 : NoDup (accepted [AcceptConn dave fresh_sock
                                           (str "10.0.0.9", 4444);
                                AcceptTimeout])).
  { simpl. repeat constructor. intros []. }
  split; [exact H1|]. split; [exact H2|].
  exact (accept_starts_one_routine_each
           [AcceptConn dave fresh_sock (str "10.0.0.9", 4444); AcceptTimeout]
           (set_running true idle) H1 H2).
Defined.

Lemma undecodable_line_ends_routine_witness :
  chat three alice = true /\
  can_send three alice /\
  handle_chatting alice (RecvUndecodable :: []) three
  = Raised UnicodeDecodeError [] (refreshed alice three) /\
  clients (refreshed alice three) = clients three /\
  chat (refreshed alice three) alice = true /\
  closed (refreshed alice three) alice = false /\
  sent (refreshed alice three) alice = sent three alice ++ [clear ++ prompt]
  /\
  (forall c', c' <> alice -> heap (refreshed alice three) c' = heap three c').
Proof.
  assert (Hin : In alice (keys three)) by (vm_compute; auto).
  split; [exact three_alice_chat|].
  split; [exact (three_can_send alice Hin)|].
  exact (undecodable_line_ends_routine alice [] three three_alice_chat
           (three_can_send alice Hin)).
Defined.

End MoreRuns.
